(** * genartzcom/generator: sketch analyzer, trait resolution and contract
      assembly, as a shallow embedding.

    The development follows the three TypeScript units of the repository:
    the semantic analyzer ([NFTCodeAnalyzer], p5.analyzer), the contract
    generator ([NFTContractGenerator] and [generateSolidityContract]) and
    the trait resolution client ([NFTMetadataHandler], trait.generator.ts).

    Conventions of the embedding.
    - A JavaScript string is a [string] (a sequence of [ascii] code units);
      the whitespace and case tables are the ASCII ones.
    - A JavaScript number is an exact decimal [m * 10^e], or an infinity, or
      NaN; binary rounding is not modelled.
    - [undefined] for a missing [name] field is [None].
    - A thrown [TypeError] is [None] in an [option] result; the parser's
      thrown error is [inl message].
    - The mutable fields of the analyzer instance are threaded explicitly. *)

From Stdlib Require Import String Ascii List ZArith Bool Lia DecimalString.
Import ListNotations.
#[local] Set Warnings "-register-all".
Open Scope string_scope.

(* ================================================================== *)
(** ** JavaScript strings *)
(* ================================================================== *)

(** The text that remains after the first [n] code units. *)
Fixpoint string_drop (n : nat) (s : string) : string :=
  match n, s with
  | O, _ => s
  | S n', String _ s' => string_drop n' s'
  | S _, EmptyString => EmptyString
  end.

Fixpoint string_take (n : nat) (s : string) : string :=
  match n, s with
  | S n', String c s' => String c (string_take n' s')
  | _, _ => EmptyString
  end.

Fixpoint string_repeat (c : ascii) (n : nat) : string :=
  match n with
  | O => EmptyString
  | S n' => String c (string_repeat c n')
  end.

(** [split_first pat s]: the text before and the text after the leftmost
    occurrence of [pat] in [s] (String.prototype.indexOf from 0). *)
Fixpoint split_first (pat s : string) : option (string * string) :=
  if prefix pat s then Some (EmptyString, string_drop (String.length pat) s)
  else match s with
       | EmptyString => None
       | String c s' =>
           match split_first pat s' with
           | Some (before, after) => Some (String c before, after)
           | None => None
           end
       end.

(** GetSubstitution for a string pattern (no captures): [$$], [$&],
    [$`] and [$'] are expanded; every other [$] stands for itself. *)
Fixpoint GetSubstitution (matched before after replacement : string) : string :=
  match replacement with
  | EmptyString => EmptyString
  | String c tl =>
      if (c =? "$")%char then
        match tl with
        | String d rest =>
            if (d =? "$")%char then String "$" (GetSubstitution matched before after rest)
            else if (d =? "&")%char then matched ++ GetSubstitution matched before after rest
            else if (d =? "`")%char then before ++ GetSubstitution matched before after rest
            else if (d =? "'")%char then after ++ GetSubstitution matched before after rest
            else String c (GetSubstitution matched before after tl)
        | EmptyString => String c (GetSubstitution matched before after tl)
        end
      else String c (GetSubstitution matched before after tl)
  end.

(** [s.replace(pat, replacement)] with a string pattern: only the leftmost
    occurrence is rewritten. *)
Definition replace (pat replacement s : string) : string :=
  match split_first pat s with
  | None => s
  | Some (before, after) =>
      before ++ GetSubstitution pat before after replacement ++ after
  end.

(** [s.replace(/c/g, rep)] for a one-character pattern [c] and a
    replacement text without [$]. *)
Fixpoint replaceAllChar (c : ascii) (rep s : string) : string :=
  match s with
  | EmptyString => EmptyString
  | String x s' =>
      if (x =? c)%char then rep ++ replaceAllChar c rep s'
      else String x (replaceAllChar c rep s')
  end.

(** Array.prototype.join on an array of strings. *)
Fixpoint join (sep : string) (l : list string) : string :=
  match l with
  | [] => EmptyString
  | [x] => x
  | x :: rest => x ++ sep ++ join sep rest
  end.

Definition backslash : ascii := "\"%char.
Definition dquote : ascii := ascii_of_nat 34.
Definition newline : ascii := ascii_of_nat 10.
Definition nl : string := String newline EmptyString.

(** ASCII members of the [\s] class: TAB, LF, VT, FF, CR and SPACE. *)
Definition isWhiteSpace (c : ascii) : bool :=
  let n := nat_of_ascii c in
  ((9 <=? n) && (n <=? 13))%nat || (n =? 32)%nat.

Definition isUpper (c : ascii) : bool :=
  let n := nat_of_ascii c in ((65 <=? n) && (n <=? 90))%nat.

Definition isLower (c : ascii) : bool :=
  let n := nat_of_ascii c in ((97 <=? n) && (n <=? 122))%nat.

Definition isDigit (c : ascii) : bool :=
  let n := nat_of_ascii c in ((48 <=? n) && (n <=? 57))%nat.

Definition lowerChar (c : ascii) : ascii :=
  if isUpper c then ascii_of_nat (nat_of_ascii c + 32) else c.

Definition upperChar (c : ascii) : ascii :=
  if isLower c then ascii_of_nat (nat_of_ascii c - 32) else c.

Fixpoint toLowerCase (s : string) : string :=
  match s with
  | EmptyString => EmptyString
  | String c s' => String (lowerChar c) (toLowerCase s')
  end.

Fixpoint trimStart (s : string) : string :=
  match s with
  | EmptyString => EmptyString
  | String c s' => if isWhiteSpace c then trimStart s' else s
  end.

(** [trimEnd s]: drops the trailing run of whitespace. *)
Fixpoint trimEnd (s : string) : string :=
  match s with
  | EmptyString => EmptyString
  | String c s' =>
      match trimEnd s' with
      | EmptyString => if isWhiteSpace c then EmptyString else String c EmptyString
      | t => String c t
      end
  end.

Definition trim (s : string) : string := trimEnd (trimStart s).

(** [s.replace(/\s+/g, '_')]: every maximal whitespace run becomes one
    underscore; [inRun] tells that the previous code unit was whitespace. *)
Fixpoint collapseRuns (inRun : bool) (s : string) : string :=
  match s with
  | EmptyString => EmptyString
  | String c s' =>
      if isWhiteSpace c then
        if inRun then collapseRuns true s'
        else String "_" (collapseRuns true s')
      else String c (collapseRuns false s')
  end.

Definition collapseWhiteSpace (s : string) : string := collapseRuns false s.

(* ================================================================== *)
(** ** JavaScript numbers *)
(* ================================================================== *)

(** [Finite m e] is the number [m * 10^e]. *)
Inductive number : Type :=
| Finite (m e : Z)
| Infinite (negative : bool)
| NaN.

Definition num (z : Z) : number := Finite z 0.


Definition digits_of_pos (p : positive) : string :=
  NilEmpty.string_of_uint (Pos.to_uint p).

Definition string_of_nat (n : nat) : string :=
  NilZero.string_of_uint (Nat.to_uint n).

Definition string_of_Z (z : Z) : string :=
  match z with
  | Z0 => "0"
  | Zpos p => digits_of_pos p
  | Zneg p => "-" ++ digits_of_pos p
  end.

(** Removes the trailing zeros of a digit string and counts them. *)
Fixpoint strip_trailing_zeros (s : string) : string * nat :=
  match s with
  | EmptyString => (EmptyString, O)
  | String c s' =>
      let '(t, z) := strip_trailing_zeros s' in
      match t with
      | EmptyString => if (c =? "0")%char then (EmptyString, S z)
                       else (String c EmptyString, z)
      | _ => (String c t, z)
      end
  end.

(** The normal form of [m * 10^e]: the sign, the significant digits
    without trailing zeros, and the exponent that goes with them.  Two
    decimals denote the same number exactly when their normal forms
    coincide. *)
Definition normalForm (m e : Z) : bool * string * Z :=
  match m with
  | Z0 => (false, EmptyString, 0%Z)
  | Zpos p =>
      let '(s, z) := strip_trailing_zeros (digits_of_pos p) in
      (false, s, (e + Z.of_nat z)%Z)
  | Zneg p =>
      let '(s, z) := strip_trailing_zeros (digits_of_pos p) in
      (true, s, (e + Z.of_nat z)%Z)
  end.

Definition normalForm_eqb (a b : bool * string * Z) : bool :=
  let '(sa, da, ea) := a in
  let '(sb, db, eb) := b in
  Bool.eqb sa sb && (da =? db) && (ea =? eb)%Z.

(** Numeric equality of two decimals. *)
Definition finite_eqb (m1 e1 m2 e2 : Z) : bool :=
  normalForm_eqb (normalForm m1 e1) (normalForm m2 e2).

(** [x === y] on numbers: NaN differs from everything. *)
Definition number_strict_eqb (x y : number) : bool :=
  match x, y with
  | Finite m1 e1, Finite m2 e2 => finite_eqb m1 e1 m2 e2
  | Infinite a, Infinite b => Bool.eqb a b
  | _, _ => false
  end.

(** SameValueZero, the comparison of Array.prototype.includes. *)
Definition number_sameValueZero (x y : number) : bool :=
  match x, y with
  | NaN, NaN => true
  | _, _ => number_strict_eqb x y
  end.

Definition number_truthy (x : number) : bool :=
  match x with
  | Finite m _ => negb (m =? 0)%Z
  | Infinite _ => true
  | NaN => false
  end.


(** Number::toString in radix 10 for [p * 10^e], [p] positive: with [k]
    significant digits [s] and the decimal point after digit [n]. *)
Definition finite_toString (p : positive) (e : Z) : string :=
  let '(s, z) := strip_trailing_zeros (digits_of_pos p) in
  let k := Z.of_nat (String.length s) in
  let n := (e + Z.of_nat z + k)%Z in
  if ((k <=? n) && (n <=? 21))%Z then
    s ++ string_repeat "0" (Z.to_nat (n - k))
  else if ((0 <? n) && (n <=? 21))%Z then
    string_take (Z.to_nat n) s ++ "." ++ string_drop (Z.to_nat n) s
  else if ((-6 <? n) && (n <=? 0))%Z then
    "0." ++ string_repeat "0" (Z.to_nat (- n)) ++ s
  else
    let ex := (n - 1)%Z in
    let exs := (if (ex <? 0)%Z then "-" else "+") ++ string_of_Z (Z.abs ex) in
    if (k =? 1)%Z then s ++ "e" ++ exs
    else string_take 1 s ++ "." ++ string_drop 1 s ++ "e" ++ exs.

Definition Number_toString (x : number) : string :=
  match x with
  | NaN => "NaN"
  | Infinite neg => if neg then "-Infinity" else "Infinity"
  | Finite Z0 _ => "0"
  | Finite (Zpos p) e => finite_toString p e
  | Finite (Zneg p) e => "-" ++ finite_toString p e
  end.

(* ================================================================== *)
(** ** Literal values of the syntax tree *)
(* ================================================================== *)

(** The [value] field of an ESTree [Literal] node. *)
Inductive literal : Type :=
| LString (s : string)
| LNumber (n : number)
| LBoolean (b : bool)
| LNull
| LRegExp (source flags : string)
| LBigInt (z : Z).

(** [typeof v === 'number'] *)
Definition literal_number (v : literal) : option number :=
  match v with
  | LNumber n => Some n
  | _ => None
  end.

Definition literal_truthy (v : literal) : bool :=
  match v with
  | LString s => negb (s =? EmptyString)
  | LNumber n => number_truthy n
  | LBoolean b => b
  | LNull => false
  | LRegExp _ _ => true
  | LBigInt z => negb (z =? 0)%Z
  end.

(** [a === b] between the values of two distinct literal nodes: two RegExp
    values are two objects and never equal. *)
Definition literal_strict_eqb (a b : literal) : bool :=
  match a, b with
  | LString s, LString t => (s =? t)
  | LNumber x, LNumber y => number_strict_eqb x y
  | LBoolean x, LBoolean y => Bool.eqb x y
  | LNull, LNull => true
  | LBigInt x, LBigInt y => (x =? y)%Z
  | _, _ => false
  end.

(** ToString of a literal value (never fails: no literal is an object with
    user-defined conversion). *)
Definition literal_toString (v : literal) : string :=
  match v with
  | LString s => s
  | LNumber n => Number_toString n
  | LBoolean b => if b then "true" else "false"
  | LNull => "null"
  | LRegExp source flags => "/" ++ source ++ "/" ++ flags
  | LBigInt z => string_of_Z z
  end.

(** ToString of an optional name: [undefined] prints as such. *)
Definition name_toString (n : option string) : string :=
  match n with
  | Some s => s
  | None => "undefined"
  end.

(** [a === b] on optional names. *)
Definition name_eqb (a b : option string) : bool :=
  match a, b with
  | Some s, Some t => (s =? t)
  | None, None => true
  | _, _ => false
  end.


(* ================================================================== *)
(** ** The syntax tree and its walker (acorn, acorn-walk) *)
(* ================================================================== *)

Record SourceLocation : Type := { line : nat; column : nat }.

(** ESTree nodes, untyped as in the source ([node: any]).  The node kinds
    the analyzer inspects have their own constructor; every other kind is
    an [OtherNode] carrying its [type] and the child nodes the walker
    descends into, in the walker's order.  [loc] is [node.loc.start]. *)
Inductive node : Type :=
| Identifier (loc : option SourceLocation) (name : string)
| Literal (loc : option SourceLocation) (value : literal)
| MemberExpression (loc : option SourceLocation) (object property : node)
                   (computed : bool)
| CallExpression (loc : option SourceLocation) (callee : node)
                 (arguments : list node)
| VariableDeclarator (loc : option SourceLocation) (id : node)
                     (init : option node)
| FunctionDeclaration (loc : option SourceLocation) (id : option node)
                      (params : list node) (body : node)
| OtherNode (type : string) (loc : option SourceLocation)
            (children : list node).

Definition node_type (n : node) : string :=
  match n with
  | Identifier _ _ => "Identifier"
  | Literal _ _ => "Literal"
  | MemberExpression _ _ _ _ => "MemberExpression"
  | CallExpression _ _ _ => "CallExpression"
  | VariableDeclarator _ _ _ => "VariableDeclarator"
  | FunctionDeclaration _ _ _ _ => "FunctionDeclaration"
  | OtherNode type _ _ => type
  end.

Definition node_loc (n : node) : option SourceLocation :=
  match n with
  | Identifier loc _ | Literal loc _ | MemberExpression loc _ _ _
  | CallExpression loc _ _ | VariableDeclarator loc _ _
  | FunctionDeclaration loc _ _ _ | OtherNode _ loc _ => loc
  end.

(** [n.name]: only identifiers have the field. *)
Definition node_name (n : node) : option string :=
  match n with
  | Identifier _ name => Some name
  | _ => None
  end.

(** [n?.name] on an optional node. *)
Definition opt_name (n : option node) : option string :=
  match n with
  | Some m => node_name m
  | None => None
  end.

(** [n.callee], [n.arguments], [n.id], [n.init]: present on the node kinds
    that declare them. *)
Definition node_callee (n : node) : option node :=
  match n with
  | CallExpression _ callee _ => Some callee
  | _ => None
  end.

Definition node_arguments (n : node) : list node :=
  match n with
  | CallExpression _ _ args => args
  | _ => []
  end.

Definition node_id (n : node) : option node :=
  match n with
  | VariableDeclarator _ id _ => Some id
  | FunctionDeclaration _ id _ _ => id
  | _ => None
  end.

Definition node_init (n : node) : option node :=
  match n with
  | VariableDeclarator _ _ init => init
  | _ => None
  end.

(** The nodes reached by [walk.simple] from a root, in the order their
    callbacks run: children first (in the base walker's order), then the
    node itself.  A member expression's property is entered only when
    computed. *)
Fixpoint postorder (n : node) : list node :=
  match n with
  | Identifier _ _ | Literal _ _ => [n]
  | MemberExpression _ object property computed =>
      postorder object ++ (if computed then postorder property else []) ++ [n]
  | CallExpression _ callee args =>
      postorder callee ++ flat_map postorder args ++ [n]
  | VariableDeclarator _ id init =>
      postorder id
        ++ match init with Some e => postorder e | None => [] end ++ [n]
  | FunctionDeclaration _ id params body =>
      match id with Some i => postorder i | None => [] end
        ++ flat_map postorder params ++ postorder body ++ [n]
  | OtherNode _ _ children => flat_map postorder children ++ [n]
  end.

(** [n.type === 'CallExpression'] and its siblings.  [OtherNode] stands
    for the kinds without a constructor of their own, so its [type] is
    none of these. *)
Definition isCallExpression (n : node) : bool :=
  match n with CallExpression _ _ _ => true | _ => false end.

Definition isMemberExpression (n : node) : bool :=
  match n with MemberExpression _ _ _ _ => true | _ => false end.

Definition isVariableDeclarator (n : node) : bool :=
  match n with VariableDeclarator _ _ _ => true | _ => false end.

Definition isFunctionDeclaration (n : node) : bool :=
  match n with FunctionDeclaration _ _ _ _ => true | _ => false end.

Definition node_object (n : node) : option node :=
  match n with
  | MemberExpression _ object _ _ => Some object
  | _ => None
  end.

Definition node_property (n : node) : option node :=
  match n with
  | MemberExpression _ _ property _ => Some property
  | _ => None
  end.

(** [n.callee.object] and [n.callee.property] *)
Definition callee_object (n : node) : option node :=
  match node_callee n with Some c => node_object c | None => None end.

Definition callee_property (n : node) : option node :=
  match node_callee n with Some c => node_property c | None => None end.

(** [arg && arg.type === 'Literal' ? arg.value : null] *)
Definition literal_value_or_null (arg : option node) : literal :=
  match arg with
  | Some (Literal _ v) => v
  | _ => LNull
  end.

Definition is_null (v : literal) : bool :=
  match v with LNull => true | _ => false end.

(** [walk.simple(root, { T: visitor })] over a state [S]: the callback
    runs on every node of type [T] (given by its selector), in
    [postorder]. *)
Definition walk_simple {S : Type} (T : node -> bool) (visitor : node -> S -> S)
    (root : node) (st : S) : S :=
  fold_left (fun st n => if T n then visitor n st else st)
            (postorder root) st.

(* ================================================================== *)
(** ** The analyzer's data model (p5.analyzer) *)
(* ================================================================== *)

Inductive TraitType : Type := asInt | asString | asFloat.


Definition TraitType_eqb (a b : TraitType) : bool :=
  match a, b with
  | asInt, asInt | asString, asString | asFloat, asFloat => true
  | _, _ => false
  end.

(** [name] is [node.id.name], undefined for a destructuring pattern;
    [address] is the first argument's literal value, or [null]. *)
Module Collection.
Record t : Type :=
  { name : option string; address : literal;
    sourceLocation : option SourceLocation }.
End Collection.

Module Trait.
Record t : Type :=
  { collection : option string; key : literal; type : TraitType;
    sourceLocation : option SourceLocation }.
End Trait.

Module TokenIndex.
Record t : Type := { collection : option string; tokenId : number }.
End TokenIndex.

Module TraitData.
Record t : Type :=
  { collection : option string; address : literal;
    traits : list Trait.t; tokenIndexes : list number }.
End TraitData.

Inductive Severity : Type := warning | error.

Module AnalysisIssue.
Record t : Type :=
  { type : Severity; message : string;
    location : option SourceLocation }.
End AnalysisIssue.

Module AnalysisResult.
Record t : Type :=
  { collections : list Collection.t; traits : list Trait.t;
    data : list TraitData.t; issues : list AnalysisIssue.t;
    tokenIndexes : list TokenIndex.t }.
End AnalysisResult.

(** The private fields of an [NFTCodeAnalyzer] instance. *)
Module NFTCodeAnalyzer.
Record t : Type :=
  { collections : list Collection.t; traits : list Trait.t;
    issues : list AnalysisIssue.t; tokenIndexes : list TokenIndex.t }.
End NFTCodeAnalyzer.

(* ================================================================== *)
(** ** A state monad over the analyzer instance *)
(* ================================================================== *)

Definition Method (A : Type) : Type :=
  NFTCodeAnalyzer.t -> A * NFTCodeAnalyzer.t.

Definition ret {A : Type} (a : A) : Method A := fun this => (a, this).

Definition bind {A B : Type} (m : Method A) (k : A -> Method B) : Method B :=
  fun this => let '(a, this') := m this in k a this'.

Declare Scope method_scope.
Delimit Scope method_scope with method.
Notation "x <- m ;; k" := (bind m (fun x => k))
  (at level 61, m at next level, right associativity) : method_scope.
Notation "m ;; k" := (bind m (fun _ => k))
  (at level 61, right associativity) : method_scope.

(** The state left by a method, for use as a walker callback. *)
Definition exec {A : Type} (m : Method A) (this : NFTCodeAnalyzer.t)
  : NFTCodeAnalyzer.t := snd (m this).

Definition when (b : bool) (m : Method unit) : Method unit :=
  if b then m else ret tt.

(** [l.forEach(f)] *)
Fixpoint forEach {A : Type} (f : A -> Method unit) (l : list A) : Method unit :=
  match l with
  | [] => ret tt
  | x :: r => bind (f x) (fun _ => forEach f r)
  end.

(* ================================================================== *)
(** ** NFTCodeAnalyzer (p5.analyzer) *)
(* ================================================================== *)

Section Analyzer.

Open Scope method_scope.

(** [acorn.parse(code, options)]: the syntax tree, or the message of
    the error it throws. *)
Variable acorn_parse : string -> string + node.

Definition new_NFTCodeAnalyzer : NFTCodeAnalyzer.t :=
  {| NFTCodeAnalyzer.collections := []; NFTCodeAnalyzer.traits := [];
     NFTCodeAnalyzer.issues := []; NFTCodeAnalyzer.tokenIndexes := [] |}.

Definition reset : Method unit := fun _ => (tt, new_NFTCodeAnalyzer).

Definition addIssue (issue : AnalysisIssue.t) : Method unit :=
  fun this =>
    (tt, {| NFTCodeAnalyzer.collections := NFTCodeAnalyzer.collections this;
            NFTCodeAnalyzer.traits := NFTCodeAnalyzer.traits this;
            NFTCodeAnalyzer.issues := NFTCodeAnalyzer.issues this ++ [issue];
            NFTCodeAnalyzer.tokenIndexes := NFTCodeAnalyzer.tokenIndexes this |}).

Definition pushCollection (c : Collection.t) : Method unit :=
  fun this =>
    (tt, {| NFTCodeAnalyzer.collections := NFTCodeAnalyzer.collections this ++ [c];
            NFTCodeAnalyzer.traits := NFTCodeAnalyzer.traits this;
            NFTCodeAnalyzer.issues := NFTCodeAnalyzer.issues this;
            NFTCodeAnalyzer.tokenIndexes := NFTCodeAnalyzer.tokenIndexes this |}).

Definition pushTrait (t : Trait.t) : Method unit :=
  fun this =>
    (tt, {| NFTCodeAnalyzer.collections := NFTCodeAnalyzer.collections this;
            NFTCodeAnalyzer.traits := NFTCodeAnalyzer.traits this ++ [t];
            NFTCodeAnalyzer.issues := NFTCodeAnalyzer.issues this;
            NFTCodeAnalyzer.tokenIndexes := NFTCodeAnalyzer.tokenIndexes this |}).

Definition pushTokenIndex (t : TokenIndex.t) : Method unit :=
  fun this =>
    (tt, {| NFTCodeAnalyzer.collections := NFTCodeAnalyzer.collections this;
            NFTCodeAnalyzer.traits := NFTCodeAnalyzer.traits this;
            NFTCodeAnalyzer.issues := NFTCodeAnalyzer.issues this;
            NFTCodeAnalyzer.tokenIndexes := NFTCodeAnalyzer.tokenIndexes this ++ [t] |}).

(** [this.collections.some(c => c.name === collection)] *)
Definition collectionExists (collection : option string) : Method bool :=
  fun this =>
    (existsb (fun c => name_eqb (Collection.name c) collection)
             (NFTCodeAnalyzer.collections this), this).

Definition parseCode (code : string) : string + node :=
  match acorn_parse code with
  | inl msg => inl ("Failed to parse code: " ++ msg)
  | inr ast => inr ast
  end.

Definition isFormaCollectionCall (n : node) : bool :=
  match node_init n with
  | Some init =>
      isCallExpression init
      && name_eqb (opt_name (node_callee init)) (Some "FormaCollection")
  | None => false
  end.

Definition createCollection (n : node) : Method Collection.t :=
  let name := opt_name (node_id n) in
  let firstArg :=
    match node_init n with
    | Some init => hd_error (node_arguments init)
    | None => None
    end in
  let address := literal_value_or_null firstArg in
  let sourceLocation := node_loc n in
  when (is_null address)
    (addIssue
       {| AnalysisIssue.type := warning;
          AnalysisIssue.message :=
            "Collection '" ++ name_toString name ++ "' is missing an address";
          AnalysisIssue.location := sourceLocation |}) ;;
  ret {| Collection.name := name; Collection.address := address;
         Collection.sourceLocation := sourceLocation |}.

Definition extractCollections (ast : node) : Method unit :=
  fun this =>
    (tt, walk_simple isVariableDeclarator
           (fun n =>
              exec (when (isFormaCollectionCall n)
                      (c <- createCollection n ;; pushCollection c)))
           ast this).

(** [['asInt', 'asString', 'asFloat'].includes(name)], with the type it
    names. *)
Definition traitTypeOfName (name : option string) : option TraitType :=
  match name with
  | Some s =>
      if s =? "asInt" then Some asInt
      else if s =? "asString" then Some asString
      else if s =? "asFloat" then Some asFloat
      else None
  | None => None
  end.

Definition isTraitTypeCall (n : node) : bool :=
  match node_callee n with
  | Some callee =>
      isMemberExpression callee
      && match traitTypeOfName (opt_name (node_property callee)) with
         | Some _ => true
         | None => false
         end
  | None => false
  end.

Definition isMetadataCall (n : option node) : bool :=
  match n with
  | Some m =>
      isCallExpression m
      && match node_callee m with
         | Some callee =>
             isMemberExpression callee
             && name_eqb (opt_name (node_property callee)) (Some "metadata")
         | None => false
         end
  | None => false
  end.

Definition extractTrait (n : node) : Method (option Trait.t) :=
  if negb (isTraitTypeCall n) then ret None
  else
    match traitTypeOfName (opt_name (callee_property n)) with
    | None => ret None
    | Some traitType =>
        let innerNode := callee_object n in
        if negb (isMetadataCall innerNode) then ret None
        else
          match innerNode with
          | None => ret None
          | Some inner =>
              let collectionName := opt_name (callee_object inner) in
              let keyArg := hd_error (node_arguments inner) in
              let key := literal_value_or_null keyArg in
              let sourceLocation := node_loc n in
              when (is_null key)
                (addIssue
                   {| AnalysisIssue.type := warning;
                      AnalysisIssue.message :=
                        "Trait in collection '" ++ name_toString collectionName
                          ++ "' is missing a key";
                      AnalysisIssue.location := sourceLocation |}) ;;
              ret (Some {| Trait.collection := collectionName;
                           Trait.key := key;
                           Trait.type := traitType;
                           Trait.sourceLocation := sourceLocation |})
          end
    end.

(** The comparison of [isDuplicateTrait]: collection, key and type. *)
Definition sameTrait (t trait : Trait.t) : bool :=
  name_eqb (Trait.collection t) (Trait.collection trait)
  && literal_strict_eqb (Trait.key t) (Trait.key trait)
  && TraitType_eqb (Trait.type t) (Trait.type trait).

Definition isDuplicateTrait (trait : Trait.t) : Method bool :=
  fun this =>
    (existsb (fun t => sameTrait t trait) (NFTCodeAnalyzer.traits this), this).

Definition extractTraits (ast : node) : Method unit :=
  fun this =>
    (tt, walk_simple isCallExpression
           (fun n =>
              exec (trait <- extractTrait n ;;
                    match trait with
                    | Some t =>
                        dup <- isDuplicateTrait t ;;
                        when (negb dup) (pushTrait t)
                    | None => ret tt
                    end))
           ast this).

Definition isUseTokenCall (n : node) : bool :=
  match node_callee n with
  | Some callee =>
      isMemberExpression callee
      && name_eqb (opt_name (node_property callee)) (Some "useToken")
      && (0 <? List.length (node_arguments n))%nat
  | None => false
  end.

(** Only a literal whose value has [typeof] number yields an id. *)
Definition extractTokenId (arg : option node) : option number :=
  match arg with
  | Some (Literal _ v) => literal_number v
  | _ => None
  end.

(** Nothing in the [try] block of [extractTokenIndex] throws on a
    syntax tree ([isUseTokenCall] has checked the callee and the first
    argument), so its [catch] branch has no counterpart here. *)
Definition extractTokenIndex (n : node) : Method (option TokenIndex.t) :=
  let collection := opt_name (callee_object n) in
  let tokenId := extractTokenId (hd_error (node_arguments n)) in
  known <- collectionExists collection ;;
  when (negb known)
    (addIssue
       {| AnalysisIssue.type := warning;
          AnalysisIssue.message :=
            "useToken references non-existent collection '"
              ++ name_toString collection ++ "'";
          AnalysisIssue.location := node_loc n |}) ;;
  match tokenId with
  | None =>
      addIssue
        {| AnalysisIssue.type := warning;
           AnalysisIssue.message :=
             "useToken for collection '" ++ name_toString collection
               ++ "' has non-numeric token ID";
           AnalysisIssue.location := node_loc n |} ;;
      ret None
  | Some id =>
      ret (Some {| TokenIndex.collection := collection;
                   TokenIndex.tokenId := id |})
  end.

(** [node.id && node.id.name === 'setup'] *)
Definition isSetup (n : node) : bool :=
  name_eqb (opt_name (node_id n)) (Some "setup").

(** The local [setupFunction] after the first walk: the last function
    declaration named [setup] in walk order. *)
Definition findSetupFunction (ast : node) : option node :=
  walk_simple isFunctionDeclaration
    (fun n setupFunction => if isSetup n then Some n else setupFunction)
    ast None.

Definition extractTokenUsages (ast : node) : Method unit :=
  match findSetupFunction ast with
  | Some setupFunction =>
      fun this =>
        (tt, walk_simple isCallExpression
               (fun n =>
                  exec (when (isUseTokenCall n)
                          (tokenIndex <- extractTokenIndex n ;;
                           match tokenIndex with
                           | Some t => pushTokenIndex t
                           | None => ret tt
                           end)))
               setupFunction this)
  | None => ret tt
  end.

Definition validateData : Method unit :=
  (fun this =>
     forEach
       (fun trait =>
          known <- collectionExists (Trait.collection trait) ;;
          when (negb known)
            (addIssue
               {| AnalysisIssue.type := warning;
                  AnalysisIssue.message :=
                    "Trait references non-existent collection '"
                      ++ name_toString (Trait.collection trait) ++ "'";
                  AnalysisIssue.location := Trait.sourceLocation trait |}))
       (NFTCodeAnalyzer.traits this) this) ;;
  (fun this =>
     forEach
       (fun tokenIndex =>
          known <- collectionExists (TokenIndex.collection tokenIndex) ;;
          when (negb known)
            (addIssue
               {| AnalysisIssue.type := warning;
                  AnalysisIssue.message :=
                    "Token usage references non-existent collection '"
                      ++ name_toString (TokenIndex.collection tokenIndex) ++ "'";
                  AnalysisIssue.location := None |}))
       (NFTCodeAnalyzer.tokenIndexes this) this).

(** *** groupTraitsByCollection: the insertion-ordered [Map] is the list
    of its values, keyed by their [collection]. *)

Definition Map_has (m : list TraitData.t) (k : option string) : bool :=
  existsb (fun d => name_eqb (TraitData.collection d) k) m.

(** [this.collections.find(c => c.name === k)?.address || null] *)
Definition addressOf (cs : list Collection.t) (k : option string) : literal :=
  match find (fun c => name_eqb (Collection.name c) k) cs with
  | Some c =>
      if literal_truthy (Collection.address c) then Collection.address c
      else LNull
  | None => LNull
  end.

Definition Map_ensure (cs : list Collection.t) (m : list TraitData.t)
    (k : option string) : list TraitData.t :=
  if Map_has m k then m
  else m ++ [ {| TraitData.collection := k;
                 TraitData.address := addressOf cs k;
                 TraitData.traits := [];
                 TraitData.tokenIndexes := [] |} ].

(** [f] applied in place to the entry of key [k]. *)
Definition Map_update (k : option string) (f : TraitData.t -> TraitData.t)
    (m : list TraitData.t) : list TraitData.t :=
  map (fun d => if name_eqb (TraitData.collection d) k then f d else d) m.

Definition push_trait (trait : Trait.t) (d : TraitData.t) : TraitData.t :=
  {| TraitData.collection := TraitData.collection d;
     TraitData.address := TraitData.address d;
     TraitData.traits := TraitData.traits d ++ [trait];
     TraitData.tokenIndexes := TraitData.tokenIndexes d |}.

Definition push_tokenId (id : number) (d : TraitData.t) : TraitData.t :=
  {| TraitData.collection := TraitData.collection d;
     TraitData.address := TraitData.address d;
     TraitData.traits := TraitData.traits d;
     TraitData.tokenIndexes :=
       if existsb (number_sameValueZero id) (TraitData.tokenIndexes d)
       then TraitData.tokenIndexes d
       else TraitData.tokenIndexes d ++ [id] |}.

Definition groupTraitsByCollection (this : NFTCodeAnalyzer.t)
  : list TraitData.t :=
  let cs := NFTCodeAnalyzer.collections this in
  let traitDataMap :=
    fold_left
      (fun m trait =>
         Map_update (Trait.collection trait) (push_trait trait)
           (Map_ensure cs m (Trait.collection trait)))
      (NFTCodeAnalyzer.traits this) [] in
  fold_left
    (fun m tokenIndex =>
       Map_update (TokenIndex.collection tokenIndex)
         (push_tokenId (TokenIndex.tokenId tokenIndex))
         (Map_ensure cs m (TokenIndex.collection tokenIndex)))
    (NFTCodeAnalyzer.tokenIndexes this) traitDataMap.

(** The object literal both [return] statements of [analyze] build. *)
Definition currentResult : Method AnalysisResult.t :=
  fun this =>
    ({| AnalysisResult.collections := NFTCodeAnalyzer.collections this;
        AnalysisResult.traits := NFTCodeAnalyzer.traits this;
        AnalysisResult.data := groupTraitsByCollection this;
        AnalysisResult.issues := NFTCodeAnalyzer.issues this;
        AnalysisResult.tokenIndexes := NFTCodeAnalyzer.tokenIndexes this |},
     this).

(** The extraction passes on a parsed tree (the [try] block after
    [parseCode]). *)
Definition analyzeAst (ast : node) : Method AnalysisResult.t :=
  extractCollections ast ;;
  extractTraits ast ;;
  extractTokenUsages ast ;;
  validateData ;;
  currentResult.

(** [analyze]: inside the [try], only [parseCode] throws; the [catch]
    branch records the error and returns what the instance holds. *)
Definition analyze (code : string) : Method AnalysisResult.t :=
  reset ;;
  match parseCode code with
  | inr ast => analyzeAst ast
  | inl msg =>
      addIssue {| AnalysisIssue.type := error;
                  AnalysisIssue.message := "Analysis failed: " ++ msg;
                  AnalysisIssue.location := None |} ;;
      currentResult
  end.

Definition analyzeCode (code : string) : AnalysisResult.t :=
  fst (analyze code new_NFTCodeAnalyzer).

End Analyzer.

(* ================================================================== *)
(** ** NFTContractGenerator (solidity.generator) *)
(* ================================================================== *)

(** A one-character text holding the double quote. *)
Definition q : string := String dquote EmptyString.

(** [l.map((x, index) => f x index)] *)
Fixpoint mapi_from {A B : Type} (i : nat) (f : A -> nat -> B) (l : list A)
  : list B :=
  match l with
  | [] => []
  | x :: r => f x i :: mapi_from (S i) f r
  end.

Definition mapi {A B : Type} (f : A -> nat -> B) (l : list A) : list B :=
  mapi_from 0 f l.

(** [l.map(f)] with a callback that may throw: the first throw aborts. *)
Fixpoint mapM {A B : Type} (f : A -> option B) (l : list A) : option (list B) :=
  match l with
  | [] => Some []
  | x :: r =>
      match f x with
      | None => None
      | Some y =>
          match mapM f r with
          | None => None
          | Some ys => Some (y :: ys)
          end
      end
  end.

Module templates.
Definition collectionAddress : string :=
  "address private constant %COLLECTION% = %ADDRESS%;".
Definition collectionIndex : string :=
  "uint256 private constant %COLLECTION%_INDEX = %INDEX%;".
Definition p5CodeChunk : string :=
  "string private constant CHUNK_%INDEX% = " ++ q ++ "%DATA%" ++ q ++ ";".
Definition tokenIdMapping : string :=
  "uint256 %TOKEN_ID% = _tokenIds[%COLLECTION%_INDEX];".
Definition functionParameter : string := "uint256 %TOKEN_ID%".
Definition ownershipCheck : string :=
  "require(IERC721(%COLLECTION%).ownerOf(%TOKEN_ID%) == _msgSender(), "
    ++ q ++ "Not the owner of required %COLLECTION_NAME%" ++ q ++ ");".
Definition traitRegistration : string :=
  "_traitRegistry[%COLLECTION%_INDEX].push(TraitRegistry("
    ++ q ++ "%TYPE%" ++ q ++ ", " ++ q ++ "%KEY%" ++ q ++ "));".
Definition traitSizeSet : string :=
  "_traitRegistrySize[%COLLECTION%_INDEX] = %SIZE%;".
End templates.

(** [str.replace(/\\/g, '\\\\').replace(/"/g, '\\"').replace(/\n/g, '\\n')] *)
Definition _escapeString (str : string) : string :=
  replaceAllChar newline (String backslash "n")
    (replaceAllChar dquote (String backslash q)
       (replaceAllChar backslash (String backslash (String backslash EmptyString))
          str)).

(** Modelled from the spec: the reader of a quoted literal, which the
    repository leaves to the consumer of the generated text.  After the
    opening quote, a backslash introduces one of the three escapes
    [_escapeString] writes, an unescaped quote closes the literal and
    must be its last character, and a raw line break is not allowed. *)
Fixpoint readLiteralBody (s : string) : option string :=
  match s with
  | EmptyString => None
  | String c r =>
      if (c =? dquote)%char then
        match r with
        | EmptyString => Some EmptyString
        | _ => None
        end
      else if (c =? newline)%char then None
      else if (c =? backslash)%char then
        match r with
        | EmptyString => None
        | String d r' =>
            let decoded :=
              if (d =? backslash)%char then Some backslash
              else if (d =? dquote)%char then Some dquote
              else if (d =? "n")%char then Some newline
              else None in
            match decoded, readLiteralBody r' with
            | Some x, Some t => Some (String x t)
            | _, _ => None
            end
        end
      else
        match readLiteralBody r with
        | Some t => Some (String c t)
        | None => None
        end
  end.

Definition decodeLiteral (lit : string) : option string :=
  match lit with
  | String c r => if (c =? dquote)%char then readLiteralBody r else None
  | EmptyString => None
  end.

(** The quoted constant [generateP5Storage] writes around a chunk. *)
Definition quoteLiteral (text : string) : string :=
  q ++ _escapeString text ++ q.

(** The escape of one character, for comparison with the three passes. *)
Definition escapeChar (c : ascii) : string :=
  if (c =? backslash)%char then String backslash (String backslash EmptyString)
  else if (c =? dquote)%char then String backslash q
  else if (c =? newline)%char then String backslash "n"
  else String c EmptyString.

Fixpoint escapeEach (s : string) : string :=
  match s with
  | EmptyString => EmptyString
  | String c r => escapeChar c ++ escapeEach r
  end.

(** [text.charAt(0).toUpperCase() + text.slice(1)] *)
Definition _capitalize (text : string) : string :=
  match text with
  | EmptyString => EmptyString
  | String c rest => String (upperChar c) rest
  end.

(** [name.trim()] throws a TypeError on an undefined name. *)
Definition _formatName (name : option string) : option string :=
  match name with
  | Some s => Some (_capitalize (collapseWhiteSpace (toLowerCase (trim s))))
  | None => None
  end.

(** [collections.filter(collection => collection.address)] *)
Definition _filterValidCollections (collections : list Collection.t)
  : list Collection.t :=
  filter (fun collection => literal_truthy (Collection.address collection))
         collections.

Definition _mapTraitTypeToSolidity (type : TraitType) : string :=
  match type with
  | asInt => "asInt"
  | asString => "asString"
  | asFloat => "asFloat"
  end.

Definition generateP5Storage (chunks : list string) : string :=
  let code :=
    join nl
      (mapi (fun chunk index =>
               replace "%DATA%" (_escapeString chunk)
                 (replace "%INDEX%" (string_of_nat index) templates.p5CodeChunk))
            chunks) in
  code ++ replace "%COUNT%" (string_of_nat (List.length chunks))
            (nl ++ nl ++ "uint256 private constant CHUNK_COUNT = %COUNT%;").

Definition generateP5Ls (chunks : list string) : string :=
  String.concat EmptyString
    (mapi (fun _ i =>
             "CHUNK_" ++ string_of_nat i
               ++ (if (i =? List.length chunks - 1)%nat then EmptyString else ", "))
          chunks).

Definition generateCollectionAddresses (collections : list Collection.t) : string :=
  join nl
    (map (fun collection =>
            replace "%ADDRESS%" (literal_toString (Collection.address collection))
              (replace "%COLLECTION%" (name_toString (Collection.name collection))
                 templates.collectionAddress))
         (_filterValidCollections collections)).

Definition generateCollectionIndexes (collections : list Collection.t) : string :=
  join nl
    (mapi (fun collection index =>
             replace "%INDEX%" (string_of_nat index)
               (replace "%COLLECTION%" (name_toString (Collection.name collection))
                  templates.collectionIndex))
          (_filterValidCollections collections)).

(** The statement emitted for one collection by [generateSolidityJsField]. *)
Definition jsFieldStatement (collection : Collection.t) : option string :=
  let name := name_toString (Collection.name collection) in
  match _formatName (Collection.name collection) with
  | None => None
  | Some formatted =>
      Some ("string memory " ++ name ++ "_jsField = generateCollectionTraitJS("
              ++ q ++ name ++ q ++ ", " ++ name ++ ", " ++ name
              ++ "_INDEX, tokenId_" ++ formatted ++ ");")
  end.

Definition generateSolidityJsField (collections : list Collection.t)
  : option string :=
  option_map (join nl) (mapM jsFieldStatement collections).

Definition generateMetadataExtraction (collections : list Collection.t)
  : option string :=
  option_map (join nl)
    (mapM (fun collection =>
             match _formatName (Collection.name collection) with
             | None => None
             | Some formatted =>
                 let variableName := "metadata_" ++ formatted in
                 let tokenId := "tokenId_" ++ formatted in
                 Some ("string memory " ++ variableName ++ " = "
                         ++ name_toString (Collection.name collection)
                         ++ ".getTokenMetadata(" ++ tokenId ++ ");")
             end)
          (_filterValidCollections collections)).

(** [collectionName.toLowerCase()] throws on an undefined name as well. *)
Definition generateFullMetadataSettings (traitData : list TraitData.t)
  : option string :=
  let code := "string memory tokenMetadata = " ++ q ++ "{}" ++ q ++ ";" in
  let code := code ++ nl ++ "tokenMetadata = tokenMetadata" in
  match
    mapM (fun data =>
            match TraitData.collection data, _formatName (TraitData.collection data) with
            | Some collectionName, Some formatted =>
                Some (nl ++ "    .setTokenAttribute(" ++ q
                         ++ toLowerCase collectionName ++ "_metadata" ++ q
                         ++ ", metadata_" ++ formatted ++ ")")
            | _, _ => None
            end)
         traitData
  with
  | None => None
  | Some parts =>
      Some (code ++ String.concat EmptyString parts
              ++ nl ++ "    .setTokenAttribute(" ++ q ++ "canvas" ++ q
              ++ ", canvasBase64)" ++ ";")
  end.

Definition generateTokenIdMapping (collections : list Collection.t)
  : option string :=
  option_map (join nl)
    (mapM (fun collection =>
             match _formatName (Collection.name collection) with
             | None => None
             | Some formatted =>
                 let tokenId := "tokenId_" ++ formatted in
                 Some (replace "%COLLECTION%"
                         (name_toString (Collection.name collection))
                         (replace "%TOKEN_ID%" tokenId templates.tokenIdMapping))
             end)
          (_filterValidCollections collections)).

Definition generateOwnershipChecks (collections : list Collection.t)
  : option string :=
  option_map (join nl)
    (mapM (fun collection =>
             match _formatName (Collection.name collection) with
             | None => None
             | Some formatted =>
                 let tokenId := "tokenId_" ++ formatted in
                 let displayName := formatted in
                 Some (replace "%COLLECTION_NAME%" displayName
                         (replace "%TOKEN_ID%" tokenId
                            (replace "%COLLECTION%"
                               (name_toString (Collection.name collection))
                               templates.ownershipCheck)))
             end)
          (_filterValidCollections collections)).

Definition generateFunctionParameters (collections : list Collection.t)
  : option string :=
  let validCollections := _filterValidCollections collections in
  option_map (String.concat EmptyString)
    (mapM (fun x => x)
       (mapi (fun collection index =>
                match _formatName (Collection.name collection) with
                | None => None
                | Some formatted =>
                    let tokenId := "tokenId_" ++ formatted in
                    let isLast := (index =? List.length validCollections - 1)%nat in
                    Some (replace "%TOKEN_ID%" tokenId templates.functionParameter
                            ++ (if isLast then EmptyString else ", "))
                end)
             validCollections)).

(** [trait.key || ''], as the text [replace] and the template literals
    make of it. *)
Definition keyText (key : literal) : string :=
  if literal_truthy key then literal_toString key else EmptyString.

Definition generateTraitRegistration (traitData : list TraitData.t) : string :=
  let registrationCode :=
    flat_map
      (fun data =>
         map (fun trait =>
                replace "%KEY%" (keyText (Trait.key trait))
                  (replace "%TYPE%" (_mapTraitTypeToSolidity (Trait.type trait))
                     (replace "%COLLECTION%"
                        (name_toString (TraitData.collection data))
                        templates.traitRegistration)))
             (TraitData.traits data))
      traitData in
  let sizeSetCode :=
    map (fun data =>
           replace "%SIZE%" (string_of_nat (List.length (TraitData.traits data)))
             (replace "%COLLECTION%" (name_toString (TraitData.collection data))
                templates.traitSizeSet))
        traitData in
  join nl (registrationCode ++ sizeSetCode).

Definition generateSolidityBase64EncodedField (collections : list Collection.t)
  : string :=
  let jsFields :=
    join ", "
      (map (fun collection =>
              name_toString (Collection.name collection) ++ "_jsField")
           collections) in
  nl ++ "        string memory allTraits = string(abi.encodePacked("
     ++ jsFields ++ "));" ++ nl ++ "    ".

Definition generateMetadataCementing : string :=
  "_cementTokenMetadata(newTokenId);".

(* ================================================================== *)
(** ** generateSolidityContract (solidity.finalize) *)
(* ================================================================== *)

(** The chain of [replace] calls on the template, for an analysis result
    and the compressed chunks.  The fragments are evaluated in the order
    of the chain; a fragment that throws aborts the assembly. *)
Definition assemble (analysis : AnalysisResult.t) (p5slot : list string)
    (templateSolidity : string) : option string :=
  let collections := AnalysisResult.collections analysis in
  let data := AnalysisResult.data analysis in
  let t := replace "%CONTRACT_NAME%" "NFTCollection" templateSolidity in
  let t := replace "%COLLECTION_CONTRACTS%" (generateCollectionAddresses collections) t in
  let t := replace "%COLLECTION_CODE%" (generateCollectionIndexes collections) t in
  let t := replace "%CHUNKS%" (generateP5Storage p5slot) t in
  let t := replace "%COLLECTION_TRAITS%" (generateTraitRegistration data) t in
  match generateTokenIdMapping collections with
  | None => None
  | Some idMapping =>
  let t := replace "%ID_MAPPING%" idMapping t in
  match generateOwnershipChecks collections with
  | None => None
  | Some ownershipChecks =>
  let t := replace "%REQUIRED_MINT_CODE%" ownershipChecks t in
  match generateMetadataExtraction collections with
  | None => None
  | Some metadataExtraction =>
  let t := replace "%METADATA_EXP%" metadataExtraction t in
  match generateSolidityJsField collections with
  | None => None
  | Some jsField =>
  let t := replace "%TRAIT_JS%" jsField t in
  let t := replace "%TRAIT_BASE64%" (generateSolidityBase64EncodedField collections) t in
  let t := replace "%P5_LS%" (generateP5Ls p5slot) t in
  match generateFullMetadataSettings data with
  | None => None
  | Some attributes =>
  let t := replace "%ATTRIBUTES%" attributes t in
  Some (replace "%CEMENT_METADATA_CODE%" generateMetadataCementing t)
  end end end end end.

Section Finalize.

Variable acorn_parse : string -> string + node.

(** The collaborators imported from [../process] and [../compress]. *)
Variable process : string -> string.
Variable compress : string -> nat -> list string.

Definition generateSolidityContract (code templateSolidity : string)
  : option string :=
  let analysis := analyzeCode acorn_parse code in
  let processedCode := process code in
  let p5slot := compress processedCode 512 in
  assemble analysis p5slot templateSolidity.

End Finalize.

(* ================================================================== *)
(** ** Values of type [any] (trait.generator.ts) *)
(* ================================================================== *)

(** The values metadata carries: what [JSON.parse] builds, and
    [undefined].  An object is the list of its own properties. *)
Inductive jsvalue : Type :=
| JUndefined
| JNull
| JBoolean (b : bool)
| JNumber (n : number)
| JString (s : string)
| JArray (items : list jsvalue)
| JObject (fields : list (string * jsvalue)).

Definition hasOwnProperty (fields : list (string * jsvalue)) (k : string) : bool :=
  existsb (fun kv => fst kv =? k) fields.

Definition jsvalue_truthy (v : jsvalue) : bool :=
  match v with
  | JUndefined | JNull => false
  | JBoolean b => b
  | JNumber n => number_truthy n
  | JString s => negb (s =? EmptyString)
  | JArray _ | JObject _ => true
  end.

(** [v === undefined || v === null] *)
Definition nullish (v : jsvalue) : bool :=
  match v with
  | JUndefined | JNull => true
  | _ => false
  end.

(** [String(v)], that is ToString.  An array joins the texts of its
    elements with commas, [null] and [undefined] elements printing as
    nothing.  A plain object prints through [Object.prototype.toString],
    unless an own [toString] property shadows it: a property read from
    JSON is never callable, and [Object.prototype.valueOf] (or an own
    [valueOf] data property) yields no primitive, so the conversion
    throws a TypeError ([None]). *)
Fixpoint ToString (v : jsvalue) : option string :=
  match v with
  | JUndefined => Some "undefined"
  | JNull => Some "null"
  | JBoolean b => Some (if b then "true" else "false")
  | JNumber n => Some (Number_toString n)
  | JString s => Some s
  | JArray items =>
      option_map (join ",")
        ((fix elements (l : list jsvalue) : option (list string) :=
            match l with
            | [] => Some []
            | x :: r =>
                match (if nullish x then Some EmptyString else ToString x) with
                | None => None
                | Some s =>
                    match elements r with
                    | None => None
                    | Some ss => Some (s :: ss)
                    end
                end
            end) items)
  | JObject fields =>
      if hasOwnProperty fields "toString" then None
      else Some "[object Object]"
  end.

Definition digitValue (c : ascii) : Z := Z.of_nat (nat_of_ascii c - 48).

Definition hexDigitValue (c : ascii) : option Z :=
  let n := nat_of_ascii c in
  if isDigit c then Some (Z.of_nat (n - 48))
  else if ((97 <=? n) && (n <=? 102))%nat then Some (Z.of_nat (n - 87))
  else if ((65 <=? n) && (n <=? 70))%nat then Some (Z.of_nat (n - 55))
  else None.

(** The leading radix-10 digits of [s], as a number of digits and their
    value continuing [acc], and the text after them. *)
Fixpoint readDigits (s : string) (count : nat) (acc : Z) : nat * Z * string :=
  match s with
  | String c r =>
      if isDigit c then readDigits r (S count) (acc * 10 + digitValue c)
      else (count, acc, s)
  | EmptyString => (count, acc, s)
  end.

Fixpoint readHexDigits (s : string) (count : nat) (acc : Z) : nat * Z :=
  match s with
  | String c r =>
      match hexDigitValue c with
      | Some d => readHexDigits r (S count) (acc * 16 + d)
      | None => (count, acc)
      end
  | EmptyString => (count, acc)
  end.

(** An optional sign in front of [s]. *)
Definition readSign (s : string) : bool * string :=
  match s with
  | String c r =>
      if (c =? "-")%char then (true, r)
      else if (c =? "+")%char then (false, r)
      else (false, s)
  | EmptyString => (false, s)
  end.

Definition signed (negative : bool) (z : Z) : Z :=
  if negative then (- z)%Z else z.

(** [parseInt(text)] with no radix argument. *)
Definition parseInt_string (inputString : string) : number :=
  let '(negative, text) := readSign (trimStart inputString) in
  if prefix "0x" text || prefix "0X" text then
    let '(count, value) := readHexDigits (string_drop 2 text) 0 0 in
    match count with
    | O => NaN
    | _ => num (signed negative value)
    end
  else
    let '(count, value, _) := readDigits text 0 0 in
    match count with
    | O => NaN
    | _ => num (signed negative value)
    end.

(** [parseInt(v)]: the argument is converted with ToString first. *)
Definition parseInt (v : jsvalue) : option number :=
  option_map parseInt_string (ToString v).

(** The exponent part [e], [e+] or [e-] followed by digits, if any. *)
Definition readExponent (s : string) : Z :=
  match s with
  | String c r =>
      if (c =? "e")%char || (c =? "E")%char then
        let '(negative, r') := readSign r in
        let '(count, value, _) := readDigits r' 0 0 in
        match count with
        | O => 0%Z
        | _ => signed negative value
        end
      else 0%Z
  | EmptyString => 0%Z
  end.

(** [parseFloat(text)]: the longest prefix that is a StrDecimalLiteral. *)
Definition parseFloat_string (inputString : string) : number :=
  let '(negative, text) := readSign (trimStart inputString) in
  if prefix "Infinity" text then Infinite negative
  else
    let '(intCount, intValue, afterInt) := readDigits text 0 0 in
    let '(fracCount, mantissa, afterFrac) :=
      match afterInt with
      | String c r =>
          if (c =? ".")%char then readDigits r 0 intValue
          else (O, intValue, afterInt)
      | EmptyString => (O, intValue, afterInt)
      end in
    match (intCount + fracCount)%nat with
    | O => NaN
    | _ => Finite (signed negative mantissa)
                  (readExponent afterFrac - Z.of_nat fracCount)
    end.

Definition parseFloat (v : jsvalue) : option number :=
  option_map parseFloat_string (ToString v).

(** [x || 0] on a number. *)
Definition orZero (x : number) : number :=
  if number_truthy x then x else num 0.

(* ================================================================== *)
(** ** NFTMetadataHandler (trait.generator.ts) *)
(* ================================================================== *)

Inductive MetadataSourceType : Type := forma | erc721 | opensea | unknown.


Module MetadataResult.
Record t : Type :=
  { metadata : jsvalue; sourceType : MetadataSourceType;
    source : option string; success : bool; error : option string }.
End MetadataResult.

Module TraitValue.
Record t : Type :=
  { original : jsvalue; formatted : jsvalue; traitType : TraitType }.
End TraitValue.

(** [Record<string, TraitValue>]: the own properties in insertion order. *)
Definition TraitValues : Type := list (string * TraitValue.t).

Fixpoint lookup {V : Type} (k : string) (o : list (string * V)) : option V :=
  match o with
  | [] => None
  | (k', v) :: r => if k' =? k then Some v else lookup k r
  end.

(** [o[k] = v] *)
Fixpoint assign {V : Type} (k : string) (v : V) (o : list (string * V))
  : list (string * V) :=
  match o with
  | [] => [(k, v)]
  | (k', v') :: r => if k' =? k then (k, v) :: r else (k', v') :: assign k v r
  end.

Module CollectionCodeResult.
Record t : Type :=
  { collectionName : option string; address : literal; code : string;
    metadataSource : MetadataSourceType; traitValues : TraitValues;
    metadata : jsvalue; tokenId : number; success : bool;
    error : option string }.
End CollectionCodeResult.

Module CollectionsCodeResult.
Record t : Type :=
  { collections : list CollectionCodeResult.t; combinedCode : string;
    successCount : nat; failureCount : nat }.
End CollectionsCodeResult.


(** The [switch] of [formatValue]; [None] when the conversion throws. *)
Definition formatValue (value : jsvalue) (traitType : string) : option jsvalue :=
  if traitType =? "asString" then option_map JString (ToString value)
  else if traitType =? "asInt" then
    option_map (fun n => JNumber (orZero n)) (parseInt value)
  else if traitType =? "asFloat" then
    option_map (fun n => JNumber (orZero n)) (parseFloat value)
  else Some value.







Section Handler.

(** The network side of the handler, and what lies behind it: building
    the contract object and [fetchTokenMetadata] for an address and a
    token id ([inl message] when the former throws); and, for a metadata
    value, the object [extractTraitValues] returns, as the property read
    [extractedValues[key]] on it ([None] for [undefined]), or the
    message of the error it throws.  The message of the TypeError of a
    failed conversion is the engine's. *)
Variable fetchTokenMetadata : literal -> number -> string + MetadataResult.t.
Variable extractTraitValues : jsvalue -> string + (string -> option jsvalue).
Variable TypeError_message : string.






End Handler.

(* ================================================================== *)
(** ** What the three discovery passes read off the tree *)
(* ================================================================== *)

(** The declarative side of the properties below: the entities a node
    stands for, stated on the node alone, without the instance. *)

(** The Collection a FormaCollection declarator declares. *)
Definition collectionOf (n : node) : Collection.t :=
  {| Collection.name := opt_name (node_id n);
     Collection.address :=
       literal_value_or_null
         match node_init n with
         | Some init => hd_error (node_arguments init)
         | None => None
         end;
     Collection.sourceLocation := node_loc n |}.

Definition isCollectionDeclarator (n : node) : bool :=
  isVariableDeclarator n && isFormaCollectionCall n.

(** One entry per FormaCollection declarator, in walk order. *)
Definition declaredCollections (ast : node) : list Collection.t :=
  map collectionOf (filter isCollectionDeclarator (postorder ast)).

(** The Trait a call of shape [<object>.metadata(<key>).<type>()] declares. *)
Definition traitOf (n : node) : option Trait.t :=
  if isCallExpression n && isTraitTypeCall n && isMetadataCall (callee_object n)
  then
    match traitTypeOfName (opt_name (callee_property n)), callee_object n with
    | Some traitType, Some inner =>
        Some {| Trait.collection := opt_name (callee_object inner);
                Trait.key := literal_value_or_null (hd_error (node_arguments inner));
                Trait.type := traitType;
                Trait.sourceLocation := node_loc n |}
    | _, _ => None
    end
  else None.

(** The trait declarations of a tree, in walk order, duplicates included. *)
Definition traitDeclarations (ast : node) : list Trait.t :=
  flat_map (fun n => match traitOf n with Some t => [t] | None => [] end)
           (postorder ast).





(** First occurrence wins: [t] joins the list unless an entry with the
    same collection, key and type is there already. *)
Definition pushUnique (acc : list Trait.t) (t : Trait.t) : list Trait.t :=
  if existsb (fun x => sameTrait x t) acc then acc else acc ++ [t].

Definition firstOccurrences (l : list Trait.t) : list Trait.t :=
  fold_left pushUnique l [].


(** The callback of [extractTraits], as a state transformer. *)
Definition traitStep (this : NFTCodeAnalyzer.t) (n : node) : NFTCodeAnalyzer.t :=
  if isCallExpression n then
    exec (bind (extractTrait n)
            (fun trait =>
               match trait with
               | Some t =>
                   bind (isDuplicateTrait t)
                     (fun dup => when (negb dup) (pushTrait t))
               | None => ret tt
               end)) this
  else this.


(** The callback of the second walk of [extractTokenUsages]. *)
Definition tokenStep (this : NFTCodeAnalyzer.t) (n : node) : NFTCodeAnalyzer.t :=
  if isCallExpression n then
    exec (when (isUseTokenCall n)
            (bind (extractTokenIndex n)
               (fun tokenIndex =>
                  match tokenIndex with
                  | Some t => pushTokenIndex t
                  | None => ret tt
                  end))) this
  else this.

(** A method that changes nothing but the issue list, and only by adding
    to it. *)
Definition onlyAddsIssues {A : Type} (m : Method A) : Prop :=
  forall this,
    NFTCodeAnalyzer.collections (snd (m this)) = NFTCodeAnalyzer.collections this
    /\ NFTCodeAnalyzer.traits (snd (m this)) = NFTCodeAnalyzer.traits this
    /\ NFTCodeAnalyzer.tokenIndexes (snd (m this))
       = NFTCodeAnalyzer.tokenIndexes this
    /\ incl (NFTCodeAnalyzer.issues this) (NFTCodeAnalyzer.issues (snd (m this))).

(* ================================================================== *)
(** ** Sample sketches, as the trees the parser builds for them *)
(* ================================================================== *)

Definition at_ (l c : nat) : option SourceLocation :=
  Some {| line := l; column := c |}.

(** [var A = FormaCollection('0x01'); var A = FormaCollection('0x02');] *)
Definition sketch_redeclared : node :=
  OtherNode "Program" (at_ 1 0)
    [ OtherNode "VariableDeclaration" (at_ 1 0)
        [ VariableDeclarator (at_ 1 4) (Identifier (at_ 1 4) "A")
            (Some (CallExpression (at_ 1 8)
                     (Identifier (at_ 1 8) "FormaCollection")
                     [Literal (at_ 1 24) (LString "0x01")])) ];
      OtherNode "VariableDeclaration" (at_ 1 33)
        [ VariableDeclarator (at_ 1 37) (Identifier (at_ 1 37) "A")
            (Some (CallExpression (at_ 1 41)
                     (Identifier (at_ 1 41) "FormaCollection")
                     [Literal (at_ 1 57) (LString "0x02")])) ] ].

(** The statement [A.useToken(<arg>);] at line [l]. *)
Definition useTokenStatement (l : nat) (arg : node) : node :=
  OtherNode "ExpressionStatement" (at_ l 2)
    [ CallExpression (at_ l 2)
        (MemberExpression (at_ l 2) (Identifier (at_ l 2) "A")
           (Identifier (at_ l 4) "useToken") false)
        [arg] ].

(** [const A = FormaCollection('0xAA');] on line 1, followed by the
    given statements. *)
Definition sketch_with (statements : list node) : node :=
  OtherNode "Program" (at_ 1 0)
    (OtherNode "VariableDeclaration" (at_ 1 0)
       [ VariableDeclarator (at_ 1 6) (Identifier (at_ 1 6) "A")
           (Some (CallExpression (at_ 1 10)
                    (Identifier (at_ 1 10) "FormaCollection")
                    [Literal (at_ 1 26) (LString "0xAA")])) ]
     :: statements).

(** [function setup() { <body> }] on line 2. *)
Definition setupDeclaration (body : list node) : node :=
  FunctionDeclaration (at_ 2 0) (Some (Identifier (at_ 2 9) "setup")) []
    (OtherNode "BlockStatement" (at_ 2 17) body).



(** The statement [A.metadata('Color').asString();] at line [l]. *)
Definition colorTraitStatement (l : nat) : node :=
  OtherNode "ExpressionStatement" (at_ l 0)
    [ CallExpression (at_ l 0)
        (MemberExpression (at_ l 0)
           (CallExpression (at_ l 0)
              (MemberExpression (at_ l 0) (Identifier (at_ l 0) "A")
                 (Identifier (at_ l 2) "metadata") false)
              [Literal (at_ l 11) (LString "Color")])
           (Identifier (at_ l 20) "asString") false)
        [] ].

(** Example A of the specification, with the trait read a second time:
    [const A = FormaCollection('0xAA');
     function setup() {
       A.useToken(3);
     }
     A.metadata('Color').asString();
     A.metadata('Color').asString();] *)
Definition sketch_example_A : node :=
  sketch_with
    [ setupDeclaration [ useTokenStatement 3 (Literal (at_ 3 13) (LNumber (num 3))) ];
      colorTraitStatement 5;
      colorTraitStatement 6 ].

(* ================================================================== *)
(** ** Occurrences of a text in a text *)
(* ================================================================== *)

Definition occursIn (pat s : string) : Prop :=
  exists before after, s = before ++ pat ++ after.

(** The statement [generateSolidityJsField] writes for a collection named
    [name] whose formatted name is [formatted]. *)
Definition jsFieldText (name formatted : string) : string :=
  "string memory " ++ name ++ "_jsField = generateCollectionTraitJS("
    ++ q ++ name ++ q ++ ", " ++ name ++ ", " ++ name
    ++ "_INDEX, tokenId_" ++ formatted ++ ");".

(** A model with one collection, declared without an address. *)
Definition unaddressed_A : Collection.t :=
  {| Collection.name := Some "A"; Collection.address := LNull;
     Collection.sourceLocation := at_ 1 6 |}.

(* ================================================================== *)
(** ** The assembly as a list of steps, and the single pass of the spec *)
(* ================================================================== *)

(** The placeholders of the chain in [generateSolidityContract], in the
    order of the chain. *)
Definition placeholderOrder : list string :=
  [ "%CONTRACT_NAME%"; "%COLLECTION_CONTRACTS%"; "%COLLECTION_CODE%";
    "%CHUNKS%"; "%COLLECTION_TRAITS%"; "%ID_MAPPING%";
    "%REQUIRED_MINT_CODE%"; "%METADATA_EXP%"; "%TRAIT_JS%";
    "%TRAIT_BASE64%"; "%P5_LS%"; "%ATTRIBUTES%"; "%CEMENT_METADATA_CODE%" ].

(** Each placeholder with the fragment the chain gives it; [None] when a
    fragment throws. *)
Definition assemblySteps (analysis : AnalysisResult.t) (p5slot : list string)
  : option (list (string * string)) :=
  let collections := AnalysisResult.collections analysis in
  let data := AnalysisResult.data analysis in
  match generateTokenIdMapping collections,
        generateOwnershipChecks collections,
        generateMetadataExtraction collections,
        generateSolidityJsField collections,
        generateFullMetadataSettings data with
  | Some idMapping, Some ownershipChecks, Some metadataExtraction,
    Some jsField, Some attributes =>
      Some [ ("%CONTRACT_NAME%", "NFTCollection");
             ("%COLLECTION_CONTRACTS%", generateCollectionAddresses collections);
             ("%COLLECTION_CODE%", generateCollectionIndexes collections);
             ("%CHUNKS%", generateP5Storage p5slot);
             ("%COLLECTION_TRAITS%", generateTraitRegistration data);
             ("%ID_MAPPING%", idMapping);
             ("%REQUIRED_MINT_CODE%", ownershipChecks);
             ("%METADATA_EXP%", metadataExtraction);
             ("%TRAIT_JS%", jsField);
             ("%TRAIT_BASE64%", generateSolidityBase64EncodedField collections);
             ("%P5_LS%", generateP5Ls p5slot);
             ("%ATTRIBUTES%", attributes);
             ("%CEMENT_METADATA_CODE%", generateMetadataCementing) ]
  | _, _, _, _, _ => None
  end.

(** One step of the chain on the current text. *)
Definition replaceStep (text : string) (step : string * string) : string :=
  replace (fst step) (snd step) text.

(** The single pass the specification describes: one scan of the
    template from left to right which, where a placeholder starts, writes
    its fragment and resumes after the placeholder, and copies every
    other character.  What it writes is never read again.  [skip] counts
    the characters of a placeholder still to pass over. *)
Fixpoint singlePassFrom (steps : list (string * string)) (skip : nat)
    (template : string) : string :=
  match template with
  | EmptyString => EmptyString
  | String c rest =>
      match skip with
      | S k => singlePassFrom steps k rest
      | O =>
          match find (fun step => prefix (fst step) template) steps with
          | Some (placeholder, fragment) =>
              fragment ++ singlePassFrom steps (String.length placeholder - 1) rest
          | None => String c (singlePassFrom steps O rest)
          end
      end
  end.

Definition singlePass (steps : list (string * string)) (template : string)
  : string :=
  singlePassFrom steps O template.

(** [const A = FormaCollection('0xAA');
     A.metadata('%ID_MAPPING%').asString();] *)
Definition sketch_placeholder_key : node :=
  sketch_with
    [ OtherNode "ExpressionStatement" (at_ 2 0)
        [ CallExpression (at_ 2 0)
            (MemberExpression (at_ 2 0)
               (CallExpression (at_ 2 0)
                  (MemberExpression (at_ 2 0) (Identifier (at_ 2 0) "A")
                     (Identifier (at_ 2 2) "metadata") false)
                  [Literal (at_ 2 11) (LString "%ID_MAPPING%")])
               (Identifier (at_ 2 27) "asString") false)
            [] ] ].

(** The text of [sketch_placeholder_key] as one chunk. *)
Definition placeholder_key_chunks : list string :=
  [ "const A = FormaCollection('0xAA');A.metadata('%ID_MAPPING%').asString();" ].

(** A template with two placeholders, in the order the repository's
    template has them. *)
Definition two_placeholder_template : string :=
  "%COLLECTION_TRAITS%|%ID_MAPPING%".

(* ================================================================== *)
(** ** Conversions that succeed, texts that start a number *)
(* ================================================================== *)

(** The values [String(v)] accepts: every value but an object with an own
    [toString] property, and the arrays that hold one. *)
Fixpoint stringifiable (v : jsvalue) : bool :=
  match v with
  | JArray items =>
      (fix all (l : list jsvalue) : bool :=
         match l with
         | [] => true
         | x :: r => (nullish x || stringifiable x) && all r
         end) items
  | JObject fields => negb (hasOwnProperty fields "toString")
  | _ => true
  end.







(** A collection of the model without an address, with one trait of each
    type and two token usages. *)
Definition unaddressed_data : TraitData.t :=
  {| TraitData.collection := Some "A";
     TraitData.address := LNull;
     TraitData.traits :=
       [ {| Trait.collection := Some "A"; Trait.key := LString "Color";
            Trait.type := asString; Trait.sourceLocation := at_ 2 0 |};
         {| Trait.collection := Some "A"; Trait.key := LString "Size";
            Trait.type := asInt; Trait.sourceLocation := at_ 3 0 |};
         {| Trait.collection := Some "A"; Trait.key := LNull;
            Trait.type := asFloat; Trait.sourceLocation := at_ 4 0 |} ];
     TraitData.tokenIndexes := [num 7; num 3] |}.


(** The token id [generateFormaCollectionCode] picks. *)
Definition chosenTokenId (collection : TraitData.t) : number :=
  match TraitData.tokenIndexes collection with
  | first :: _ => first
  | [] => num 1
  end.


(* ================================================================== *)
(** ** Templates whose placeholders a single pass and the chain agree on *)
(* ================================================================== *)

Fixpoint forallChars (p : ascii -> bool) (s : string) : bool :=
  match s with
  | EmptyString => true
  | String c r => p c && forallChars p r
  end.

Definition percentFree (s : string) : bool :=
  forallChars (fun c => negb (c =? "%")%char) s.

Definition dollarFree (s : string) : bool :=
  forallChars (fun c => negb (c =? "$")%char) s.

(** The characters of a placeholder's name: capitals, digits, underscore. *)
Definition isNameChar (c : ascii) : bool :=
  isUpper c || isDigit c || (c =? "_")%char.

Definition isName (s : string) : bool := forallChars isNameChar s.

(** [s] holds a character that no placeholder name has. *)
Definition hasOtherChar (s : string) : bool := negb (forallChars isNameChar s).

Definition mkPlaceholder (name : string) : string := "%" ++ name ++ "%".

(** The names of the placeholders of the chain, in its order. *)
Definition placeholderNames : list string :=
  [ "CONTRACT_NAME"; "COLLECTION_CONTRACTS"; "COLLECTION_CODE"; "CHUNKS";
    "COLLECTION_TRAITS"; "ID_MAPPING"; "REQUIRED_MINT_CODE"; "METADATA_EXP";
    "TRAIT_JS"; "TRAIT_BASE64"; "P5_LS"; "ATTRIBUTES"; "CEMENT_METADATA_CODE" ].

Definition memName (n : string) (l : list string) : bool :=
  existsb (String.eqb n) l.

Fixpoint distinctNames (l : list string) : bool :=
  match l with
  | [] => true
  | n :: r => negb (memName n r) && distinctNames r
  end.

(** A placeholder of a template and the literal text that follows it. *)
Record slot : Type := { slot_name : string; slot_text : string }.

(** The text of the slots, each placeholder written by [hole]. *)
Fixpoint renderSlots (hole : string -> string) (slots : list slot) : string :=
  match slots with
  | [] => EmptyString
  | s :: r => hole (slot_name s) ++ slot_text s ++ renderSlots hole r
  end.

(** The template made of the text [l0] and the slots. *)
Definition templateOf (l0 : string) (slots : list slot) : string :=
  l0 ++ renderSlots mkPlaceholder slots.

(** The fragment the steps give to a placeholder name. *)
Definition fragmentOf (steps : list (string * string)) (name : string) : string :=
  match find (fun step => fst step =? mkPlaceholder name) steps with
  | Some step => snd step
  | None => mkPlaceholder name
  end.

(** The template with every placeholder replaced by its fragment. *)
Definition filledTemplate (steps : list (string * string)) (l0 : string)
    (slots : list slot) : string :=
  l0 ++ renderSlots (fragmentOf steps) slots.

(** A template in which the chain cannot go wrong: no [%] outside the
    placeholders; every placeholder one of the chain, used once; and after
    each placeholder a text with a character that no placeholder name
    has (a line break, a space, a bracket). *)
Definition wellFormedTemplate (l0 : string) (slots : list slot) : bool :=
  percentFree l0
  && forallb (fun s => memName (slot_name s) placeholderNames
                       && percentFree (slot_text s)
                       && hasOtherChar (slot_text s)) slots
  && distinctNames (map slot_name slots).

(** Fragments that bring neither [%] nor a [$] pattern. *)
Definition cleanFragments (steps : list (string * string)) : bool :=
  forallb (fun step => percentFree (snd step) && dollarFree (snd step)) steps.

(** A placeholder written as itself until its step has run, and as its
    fragment afterwards; [done] lists the names whose step has run. *)
Definition holeAfter (steps : list (string * string)) (done : list string)
    (name : string) : string :=
  if memName name done then fragmentOf steps name else mkPlaceholder name.

(** [split_first] steps over [pre]: the first occurrence is looked for in
    what follows. *)
Definition prepend (pre : string) (o : option (string * string))
  : option (string * string) :=
  match o with
  | Some (before, after) => Some (pre ++ before, after)
  | None => None
  end.

Definition passes (pat pre : string) : Prop :=
  forall rest, split_first pat (pre ++ rest) = prepend pre (split_first pat rest).

(** A small template in the shape of the repository's. *)
Definition sample_template_head : string := "contract ".

Definition sample_template_slots : list slot :=
  [ {| slot_name := "CONTRACT_NAME"; slot_text := " {" ++ nl |};
    {| slot_name := "COLLECTION_CONTRACTS"; slot_text := nl |};
    {| slot_name := "COLLECTION_CODE"; slot_text := nl |};
    {| slot_name := "CHUNKS"; slot_text := nl ++ "function mint() {" ++ nl |};
    {| slot_name := "ID_MAPPING"; slot_text := nl |};
    {| slot_name := "REQUIRED_MINT_CODE"; slot_text := nl ++ "}" ++ nl ++ "}" |} ].

(** Chunks as the compression step hands them over: Base64 text. *)
Definition sample_chunks : list string := [ "Y29uc3QgQSA9"; "IEZvcm1h" ].

(** The conditions on a slot that the chain relies on. *)
Definition slotReady (steps : list (string * string)) (s : slot) : Prop :=
  isName (slot_name s) = true
  /\ percentFree (slot_text s) = true
  /\ hasOtherChar (slot_text s) = true
  /\ percentFree (fragmentOf steps (slot_name s)) = true.


(** The steps of the assembly for example A and the sample chunks. *)
Definition sample_steps : list (string * string) :=
  Eval vm_compute in
    match assemblySteps (fst (analyzeAst sketch_example_A new_NFTCodeAnalyzer))
            sample_chunks with
    | Some steps => steps
    | None => []
    end.

(* ================================================================== *)
(** ** Further definitions: the grouping, seen per collection *)
(* ================================================================== *)

(** The keys of the map, in insertion order. *)
Definition Map_keys (m : list TraitData.t) : list (option string) :=
  map TraitData.collection m.

(** The names of a list in the order of their first appearance. *)
Definition firstSeen (names : list (option string)) : list (option string) :=
  fold_left
    (fun seen k => if existsb (name_eqb k) seen then seen else (seen ++ [k])%list)
    names [].

(** The traits of a collection name, in their order. *)
Definition traitsOf (k : option string) (traits : list Trait.t) : list Trait.t :=
  filter (fun t => name_eqb (Trait.collection t) k) traits.

(** The token ids bound to a collection name, in their order, repeated as
    the sketch repeats them. *)
Definition tokenIdsOf (k : option string) (tokenIndexes : list TokenIndex.t)
  : list number :=
  map TokenIndex.tokenId
    (filter (fun t => name_eqb (TokenIndex.collection t) k) tokenIndexes).

(** [ids] lists no number twice, in the sense of [includes]. *)
Fixpoint distinctIds (ids : list number) : bool :=
  match ids with
  | [] => true
  | x :: r => negb (existsb (number_sameValueZero x) r) && distinctIds r
  end.

(** [id] joins the list unless [includes] finds it there. *)
Definition pushId (ids : list number) (id : number) : list number :=
  if existsb (number_sameValueZero id) ids then ids else (ids ++ [id])%list.

(** The numbers of a list in the order of their first appearance. *)
Definition firstIds (ids : list number) : list number :=
  fold_left pushId ids [].

(** The entry [groupTraitsByCollection] creates for a new key. *)
Definition newTraitData (cs : list Collection.t) (k : option string)
  : TraitData.t :=
  {| TraitData.collection := k;
     TraitData.address := addressOf cs k;
     TraitData.traits := [];
     TraitData.tokenIndexes := [] |}.

(** The map [m] groups the traits [ts] and the token usages [tis] of an
    instance whose collections are [cs]. *)
Definition grouped (cs : list Collection.t) (ts : list Trait.t)
    (tis : list TokenIndex.t) (m : list TraitData.t) : Prop :=
  Map_keys m
  = firstSeen (map Trait.collection ts ++ map TokenIndex.collection tis)%list
  /\ forall d, In d m ->
       TraitData.traits d = traitsOf (TraitData.collection d) ts
       /\ TraitData.tokenIndexes d
          = firstIds (tokenIdsOf (TraitData.collection d) tis)
       /\ TraitData.address d = addressOf cs (TraitData.collection d).

(* ================================================================== *)
(** ** Further definitions: the warnings of the analyzer *)
(* ================================================================== *)

(** The callback of [extractCollections], as a state transformer. *)
Definition collectionStep (this : NFTCodeAnalyzer.t) (n : node)
  : NFTCodeAnalyzer.t :=
  if isVariableDeclarator n then
    exec (when (isFormaCollectionCall n)
            (bind (createCollection n) (fun c => pushCollection c))) this
  else this.

(** The warning [createCollection] records for a collection without
    address. *)
Definition missingAddressWarning (c : Collection.t) : AnalysisIssue.t :=
  {| AnalysisIssue.type := warning;
     AnalysisIssue.message :=
       "Collection '" ++ name_toString (Collection.name c)
         ++ "' is missing an address";
     AnalysisIssue.location := Collection.sourceLocation c |}.

(** The warning [extractTrait] records for a trait without key. *)
Definition missingKeyWarning (t : Trait.t) : AnalysisIssue.t :=
  {| AnalysisIssue.type := warning;
     AnalysisIssue.message :=
       "Trait in collection '" ++ name_toString (Trait.collection t)
         ++ "' is missing a key";
     AnalysisIssue.location := Trait.sourceLocation t |}.

(** The warnings [validateData] records for a trait and for a token usage
    whose collection is not declared. *)
Definition undeclaredTraitWarning (t : Trait.t) : AnalysisIssue.t :=
  {| AnalysisIssue.type := warning;
     AnalysisIssue.message :=
       "Trait references non-existent collection '"
         ++ name_toString (Trait.collection t) ++ "'";
     AnalysisIssue.location := Trait.sourceLocation t |}.

Definition undeclaredTokenWarning (t : TokenIndex.t) : AnalysisIssue.t :=
  {| AnalysisIssue.type := warning;
     AnalysisIssue.message :=
       "Token usage references non-existent collection '"
         ++ name_toString (TokenIndex.collection t) ++ "'";
     AnalysisIssue.location := None |}.

(** [collections.some(c => c.name === k)] *)
Definition declared (cs : list Collection.t) (k : option string) : bool :=
  existsb (fun c => name_eqb (Collection.name c) k) cs.


(** [const C = FormaCollection();
     function setup() {
       B.useToken(7);
     }
     B.metadata().asInt();] *)
Definition sketch_undeclared : node :=
  OtherNode "Program" (at_ 1 0)
    [ OtherNode "VariableDeclaration" (at_ 1 0)
        [ VariableDeclarator (at_ 1 6) (Identifier (at_ 1 6) "C")
            (Some (CallExpression (at_ 1 10)
                     (Identifier (at_ 1 10) "FormaCollection") [])) ];
      setupDeclaration
        [ OtherNode "ExpressionStatement" (at_ 3 2)
            [ CallExpression (at_ 3 2)
                (MemberExpression (at_ 3 2) (Identifier (at_ 3 2) "B")
                   (Identifier (at_ 3 4) "useToken") false)
                [Literal (at_ 3 13) (LNumber (num 7))] ] ];
      OtherNode "ExpressionStatement" (at_ 5 0)
        [ CallExpression (at_ 5 0)
            (MemberExpression (at_ 5 0)
               (CallExpression (at_ 5 0)
                  (MemberExpression (at_ 5 0) (Identifier (at_ 5 0) "B")
                     (Identifier (at_ 5 2) "metadata") false)
                  [])
               (Identifier (at_ 5 13) "asInt") false)
            [] ] ].

(** A parser that returns the given tree for every text. *)
Definition parsesTo (ast : node) (code : string) : string + node := inr ast.

(** The entities of [sketch_undeclared]. *)
Definition unaddressed_C : Collection.t :=
  {| Collection.name := Some "C"; Collection.address := LNull;
     Collection.sourceLocation := at_ 1 6 |}.

Definition keyless_B_trait : Trait.t :=
  {| Trait.collection := Some "B"; Trait.key := LNull; Trait.type := asInt;
     Trait.sourceLocation := at_ 5 0 |}.

Definition B_token_7 : TokenIndex.t :=
  {| TokenIndex.collection := Some "B"; TokenIndex.tokenId := num 7 |}.

(* ================================================================== *)
(** ** Further definitions: the lines the generator writes *)
(* ================================================================== *)



(** The constant declared for chunk [index]. *)
Definition chunkLine (chunk : string) (index : nat) : string :=
  "string private constant CHUNK_" ++ string_of_nat index ++ " = "
    ++ quoteLiteral chunk ++ ";".

Definition chunkCountLine (count : nat) : string :=
  "uint256 private constant CHUNK_COUNT = " ++ string_of_nat count ++ ";".

(** The constants declared for an addressed collection, the second with
    its position [index] among the addressed collections. *)
Definition addressLine (collection : Collection.t) : string :=
  "address private constant " ++ name_toString (Collection.name collection)
    ++ " = " ++ literal_toString (Collection.address collection) ++ ";".

Definition indexLine (collection : Collection.t) (index : nat) : string :=
  "uint256 private constant " ++ name_toString (Collection.name collection)
    ++ "_INDEX = " ++ string_of_nat index ++ ";".

(** A collection whose name and address text hold neither [%] nor [$]. *)
Definition cleanCollection (collection : Collection.t) : bool :=
  percentFree (name_toString (Collection.name collection))
  && dollarFree (name_toString (Collection.name collection))
  && dollarFree (literal_toString (Collection.address collection)).

(** Two addressed collections and one without address between them. *)
Definition three_collections : list Collection.t :=
  [ {| Collection.name := Some "A"; Collection.address := LString "0xAA";
       Collection.sourceLocation := at_ 1 6 |};
    {| Collection.name := Some "B"; Collection.address := LNull;
       Collection.sourceLocation := at_ 2 6 |};
    {| Collection.name := Some "C"; Collection.address := LString "0xCC";
       Collection.sourceLocation := at_ 3 6 |} ].

(* ================================================================== *)
(** ** Further definitions: what the resolution loop stores and writes *)
(* ================================================================== *)













(* ================================================================== *)
(** ** The retrieval of metadata (trait.generator.ts) *)
(* ================================================================== *)

(** The three view functions of the contract ABI the handler calls, each
    returning the decoded [string] or rejecting with a message. *)
Module Contract.
Record t : Type :=
  { getTokenMetadata : number -> string + string;
    tokenURI : number -> string + string;
    uri : number -> string + string }.
End Contract.

(** The class [\w]. *)
Definition isWordChar (c : ascii) : bool :=
  isUpper c || isLower c || isDigit c || (c =? "_")%char.

(** The line terminators (LF and CR among the ASCII characters), which
    [.] does not match. *)
Definition isLineTerminator (c : ascii) : bool :=
  (c =? newline)%char || (c =? ascii_of_nat 13)%char.

(** The longest prefix of word characters, and the text after it. *)
Fixpoint spanWord (s : string) : string * string :=
  match s with
  | String c r =>
      if isWordChar c then let '(w, rest) := spanWord r in (String c w, rest)
      else (EmptyString, s)
  | EmptyString => (EmptyString, EmptyString)
  end.

(** [s] is a match of [\w+]. *)
Definition isWord (s : string) : bool :=
  negb (s =? EmptyString) && forallChars isWordChar s.

(** [s] is a match of [.+]. *)
Definition isPayload (s : string) : bool :=
  negb (s =? EmptyString) && forallChars (fun c => negb (isLineTerminator c)) s.

(** [data.match(/^data:\w+\/\w+;base64,(.+)$/)]: the capture group of
    the match, if there is one.  Neither [/] nor [;] is a word character,
    so each [\w+] can only stand for a whole run of word characters. *)
Definition matchBase64DataUri (data : string) : option string :=
  if prefix "data:" data then
    let '(type, afterType) := spanWord (string_drop 5 data) in
    if isWord type && prefix "/" afterType then
      let '(subtype, afterSubtype) := spanWord (string_drop 1 afterType) in
      if isWord subtype && prefix ";base64," afterSubtype then
        let base64Data := string_drop 8 afterSubtype in
        if isPayload base64Data then Some base64Data else None
      else None
    else None
  else None.

(** [s.includes(pat)] *)
Definition includes (s pat : string) : bool :=
  match split_first pat s with
  | Some _ => true
  | None => false
  end.

(** The result returned when no method yields metadata. *)
Definition allMethodsFailed : MetadataResult.t :=
  {| MetadataResult.metadata := JNull;
     MetadataResult.sourceType := unknown;
     MetadataResult.source := None;
     MetadataResult.success := false;
     MetadataResult.error :=
       Some "Failed to retrieve metadata using all available methods" |}.

(** The object [extractTraitValues] fills: its own properties, and its
    prototype, which an assignment to [__proto__] can replace. *)
Inductive prototype : Type :=
| ObjectPrototype
| NullPrototype
| ValuePrototype (v : jsvalue).

Module Values.
Record t : Type :=
  { own : list (string * jsvalue); proto : prototype }.
End Values.

(** [{}] *)
Definition emptyValues : Values.t :=
  {| Values.own := []; Values.proto := ObjectPrototype |}.

(** Whether an assignment to [__proto__] on the object runs the setter of
    [Object.prototype]: it does unless an own data property of that name
    comes first, on the object or on a prototype read from JSON, or the
    prototype is null. *)
Definition reachesProtoSetter (values : Values.t) : bool :=
  negb (hasOwnProperty (Values.own values) "__proto__")
  && match Values.proto values with
     | ObjectPrototype => true
     | NullPrototype => false
     | ValuePrototype (JObject fields) =>
         negb (hasOwnProperty fields "__proto__")
     | ValuePrototype _ => true
     end.

(** [values[key] = value].  The setter of [__proto__] replaces the
    prototype by an object or by null and ignores every other value; any
    other assignment creates or updates an own property. *)
Definition setProperty (key : string) (value : jsvalue) (values : Values.t)
  : Values.t :=
  if (key =? "__proto__") && reachesProtoSetter values then
    match value with
    | JArray _ | JObject _ =>
        {| Values.own := Values.own values;
           Values.proto := ValuePrototype value |}
    | JNull =>
        {| Values.own := Values.own values; Values.proto := NullPrototype |}
    | _ => values
    end
  else {| Values.own := assign key value (Values.own values);
          Values.proto := Values.proto values |}.

(** [v.name] for the five names [extractTraitValues] reads
    ([attributes], [traits], [trait_type], [name], [value]), which no
    prototype of a metadata value defines: the own property of an object,
    [undefined] on any other value, and a TypeError ([None]) on [null]
    and [undefined]. *)
Definition getNamed (v : jsvalue) (name : string) : option jsvalue :=
  match v with
  | JUndefined | JNull => None
  | JObject fields =>
      Some (match lookup name fields with
            | Some x => x
            | None => JUndefined
            end)
  | _ => Some JUndefined
  end.

(** [a || b] *)
Definition orElse (a b : jsvalue) : jsvalue :=
  if jsvalue_truthy a then a else b.

(** [Object.entries(v)] on a truthy value: the own properties of an
    object, the elements of an array and the characters of a text under
    their indexes, and nothing for a number or a boolean. *)
Definition Object_entries (v : jsvalue) : list (string * jsvalue) :=
  match v with
  | JObject fields => fields
  | JArray items => mapi (fun item index => (string_of_nat index, item)) items
  | JString s =>
      mapi (fun c index => (string_of_nat index, JString (String c EmptyString)))
        (list_ascii_of_string s)
  | _ => []
  end.

(** The metadata fields that are never taken for traits. *)
Definition nonTraitFields : list string :=
  [ "name"; "description"; "image"; "external_url"; "animation_url" ].

Module NFTMetadataHandler.

Section Retrieval.

(** [JSON.parse] ([None] when it throws),
    [Buffer.from(text, 'base64').toString('utf-8')], which never
    throws, and [axios.get(uri)] as the [data] of its response or the
    message of its rejection. *)
Variable JSON_parse : string -> option jsvalue.
Variable base64_decode : string -> string.
Variable axios_get : string -> string + jsvalue.

(** Every throw inside is caught and turned into [null]. *)
Definition parseBase64Metadata (data : string) : jsvalue :=
  match matchBase64DataUri data with
  | Some base64Data =>
      match JSON_parse (base64_decode base64Data) with
      | Some parsed => parsed
      | None => JNull
      end
  | None => JNull
  end.

Definition fetchMetadataFromURI (uri : string) : jsvalue :=
  let uri :=
    if prefix "ipfs://" uri then
      let ipfsHash := replace "ipfs://" EmptyString uri in
      "https://ipfs.io/ipfs/" ++ ipfsHash
    else uri in
  if prefix "http" uri then
    match axios_get uri with
    | inr data => data
    | inl _ => JNull
    end
  else if prefix "data:application/json;base64," uri then
    parseBase64Metadata uri
  else JNull.

(** Method 1: what the first [try] block returns, if it returns. *)
Definition formaAttempt (contract : Contract.t) (tokenId : number)
  : option MetadataResult.t :=
  match Contract.getTokenMetadata contract tokenId with
  | inl _ => None
  | inr tokenMetadata =>
      if prefix "{" tokenMetadata then
        match JSON_parse tokenMetadata with
        | Some parsed =>
            Some {| MetadataResult.metadata := parsed;
                    MetadataResult.sourceType := forma;
                    MetadataResult.source := Some "getTokenMetadata";
                    MetadataResult.success := true;
                    MetadataResult.error := None |}
        | None => None
        end
      else if includes tokenMetadata "base64" then
        let parsedMetadata := parseBase64Metadata tokenMetadata in
        if jsvalue_truthy parsedMetadata then
          Some {| MetadataResult.metadata := parsedMetadata;
                  MetadataResult.sourceType := forma;
                  MetadataResult.source := Some "getTokenMetadata (base64)";
                  MetadataResult.success := true;
                  MetadataResult.error := None |}
        else None
      else None
  end.

(** Methods 2 and 3: what the [try] block around a call that returns
    a URI returns, if it returns. *)
Definition uriAttempt (call : number -> string + string)
    (sourceType : MetadataSourceType) (tokenId : number)
  : option MetadataResult.t :=
  match call tokenId with
  | inl _ => None
  | inr uri =>
      let metadata := fetchMetadataFromURI uri in
      if jsvalue_truthy metadata then
        Some {| MetadataResult.metadata := metadata;
                MetadataResult.sourceType := sourceType;
                MetadataResult.source := Some uri;
                MetadataResult.success := true;
                MetadataResult.error := None |}
      else None
  end.

(** Nothing throws outside the three inner [try] blocks, so the outer
    [catch] has no counterpart. *)
Definition fetchTokenMetadata (contract : Contract.t) (tokenId : number)
  : MetadataResult.t :=
  match formaAttempt contract tokenId with
  | Some result => result
  | None =>
      match uriAttempt (Contract.tokenURI contract) erc721 tokenId with
      | Some result => result
      | None =>
          match uriAttempt (Contract.uri contract) opensea tokenId with
          | Some result => result
          | None => allMethodsFailed
          end
      end
  end.

(** [new ethers.Contract(address, abi, provider)], which throws on an
    address it cannot resolve, followed by [fetchTokenMetadata]: the
    retrieval as [generateFormaCollectionCode] runs it. *)
Variable new_Contract : literal -> string + Contract.t.


End Retrieval.

(** [metadata.attributes || metadata.traits || []], on a truthy
    metadata. *)
Definition attributesOf (metadata : jsvalue) : jsvalue :=
  match getNamed metadata "attributes", getNamed metadata "traits" with
  | Some attributes, Some traits =>
      orElse (orElse attributes traits) (JArray [])
  | _, _ => JArray []
  end.

(** [attribute.trait_type || attribute.name]; [None] when the read
    throws. *)
Definition traitTypeOf (attribute : jsvalue) : option jsvalue :=
  match getNamed attribute "trait_type", getNamed attribute "name" with
  | Some trait_type, Some name => Some (orElse trait_type name)
  | _, _ => None
  end.

(** The callback of [attributes.forEach] over the elements, in order;
    [None] when it throws: on a null element, and on a trait type that
    has no property key (its conversion to a text throws). *)
Fixpoint forEachAttribute (attributes : list jsvalue) (values : Values.t)
  : option Values.t :=
  match attributes with
  | [] => Some values
  | attribute :: rest =>
      match traitTypeOf attribute with
      | None => None
      | Some traitType =>
          if jsvalue_truthy traitType then
            match ToString traitType, getNamed attribute "value" with
            | Some key, Some value =>
                forEachAttribute rest (setProperty key value values)
            | _, _ => None
            end
          else forEachAttribute rest values
      end
  end.

(** [Object.entries(o).forEach(([key, value]) => { values[key] = value })] *)
Definition assignEntries (entries : list (string * jsvalue))
    (values : Values.t) : Values.t :=
  fold_left (fun values entry => setProperty (fst entry) (snd entry) values)
    entries values.

Definition isNonTraitField (key : string) : bool :=
  existsb (String.eqb key) nonTraitFields.

Definition extractTraitValues (metadata : jsvalue) : option Values.t :=
  let values := emptyValues in
  if negb (jsvalue_truthy metadata) then Some values
  else
    let attributes := attributesOf metadata in
    let filled :=
      match attributes with
      | JArray items => forEachAttribute items values
      | JObject fields => Some (assignEntries fields values)
      | _ => Some values
      end in
    match filled with
    | None => None
    | Some values =>
        if (List.length (Values.own values) =? 0)%nat then
          Some (assignEntries
                  (filter (fun entry => negb (isNonTraitField (fst entry)))
                     (Object_entries metadata))
                  values)
        else Some values
    end.

End NFTMetadataHandler.


(** A contract that answers [tokenURI] with a data URI, and a reader of
    the one JSON text it carries. *)
Definition data_uri_contract : Contract.t :=
  {| Contract.getTokenMetadata := fun _ => inl "execution reverted";
     Contract.tokenURI :=
       fun _ => inr "data:application/json;base64,eyJDb2xvciI6ImJsdWUifQ==";
     Contract.uri := fun _ => inl "execution reverted" |}.

(** The JSON text of an object whose property [Color] is the text
    [blue]. *)
Definition blue_JSON_text : string :=
  "{" ++ q ++ "Color" ++ q ++ ":" ++ q ++ "blue" ++ q ++ "}".

Definition sample_JSON_parse (text : string) : option jsvalue :=
  if text =? blue_JSON_text then Some (JObject [("Color", JString "blue")])
  else None.

Definition sample_base64_decode (text : string) : string :=
  if text =? "eyJDb2xvciI6ImJsdWUifQ==" then blue_JSON_text else EmptyString.

(* ================================================================== *)
(** ** Further definitions: what the attributes of a metadata contribute *)
(* ================================================================== *)

(** An element of the attribute array on which the callback throws: null
    or undefined, or one whose trait type is an object without a text
    form. *)
Definition throwingAttribute (attribute : jsvalue) : bool :=
  match NFTMetadataHandler.traitTypeOf attribute with
  | None => true
  | Some traitType => jsvalue_truthy traitType && negb (stringifiable traitType)
  end.

(** The property an element of the attribute array contributes: none
    when its trait type and name are falsy. *)
Definition attributePair (attribute : jsvalue) : option (string * jsvalue) :=
  match NFTMetadataHandler.traitTypeOf attribute with
  | Some traitType =>
      if jsvalue_truthy traitType then
        match ToString traitType, getNamed attribute "value" with
        | Some key, Some value => Some (key, value)
        | _, _ => None
        end
      else None
  | None => None
  end.

(** The properties the attribute array contributes, in order. *)
Definition attributePairs (attributes : list jsvalue)
  : list (string * jsvalue) :=
  flat_map (fun attribute =>
              match attributePair attribute with
              | Some contributed => [contributed]
              | None => []
              end)
           attributes.

(** The keys of a list of entries are other than [__proto__]. *)
Definition plainKeys (entries : list (string * jsvalue)) : bool :=
  forallb (fun entry => negb (fst entry =? "__proto__")) entries.

(** A metadata in the OpenSea format whose second attribute overrides the
    first, and one with top-level properties only. *)
Definition overridden_metadata : jsvalue :=
  JObject [("name", JString "Token 7");
           ("attributes",
            JArray [JObject [("trait_type", JString "Color");
                             ("value", JString "red")];
                    JObject [("name", JString "Size");
                             ("value", JNumber (num 3))];
                    JObject [("trait_type", JString "Color");
                             ("value", JString "blue")]])].

Definition top_level_fields : list (string * jsvalue) :=
  [ ("name", JString "Token 7"); ("image", JString "ipfs://img");
    ("Color", JString "blue"); ("Size", JNumber (num 3)) ].

(* ================================================================== *)
(** ** Further definitions: the lines of the trait registration *)
(* ================================================================== *)

(** The statement that registers a trait of a data entry. *)
Definition registrationLine (data : TraitData.t) (trait : Trait.t) : string :=
  "_traitRegistry[" ++ name_toString (TraitData.collection data)
    ++ "_INDEX].push(TraitRegistry(" ++ q
    ++ _mapTraitTypeToSolidity (Trait.type trait) ++ q ++ ", " ++ q
    ++ keyText (Trait.key trait) ++ q ++ "));".

(** The statement that records the number of traits of a data entry. *)
Definition sizeLine (data : TraitData.t) : string :=
  "_traitRegistrySize[" ++ name_toString (TraitData.collection data)
    ++ "_INDEX] = " ++ string_of_nat (List.length (TraitData.traits data)) ++ ";".

(** A data entry whose name holds neither [%] nor [$] and whose trait
    keys hold no [$]. *)
Definition cleanData (data : TraitData.t) : bool :=
  percentFree (name_toString (TraitData.collection data))
  && dollarFree (name_toString (TraitData.collection data))
  && forallb (fun trait => dollarFree (keyText (Trait.key trait)))
       (TraitData.traits data).

(* ================================================================== *)
(** * Properties *)
(* ================================================================== *)

(** ** Sanity checks of the JavaScript primitives *)

Example Number_toString_samples :
  Number_toString (Finite 15 (-1)) = "1.5" /\
  Number_toString (num 0) = "0" /\
  Number_toString (num 1200) = "1200" /\
  Number_toString (Finite 1 21) = "1e+21" /\
  Number_toString (Finite (-25) (-8)) = "-2.5e-7" /\
  Number_toString (Finite 5 (-3)) = "0.005" /\
  string_of_nat 0 = "0" /\ string_of_nat 12 = "12".
Proof. repeat split; reflexivity. Qed.

(* ================================================================== *)
(** ** String-literal escaping *)
(* ================================================================== *)

Lemma string_app_assoc (a b c : string) : (a ++ b) ++ c = a ++ (b ++ c).
Proof. induction a as [|x a IH]; simpl; [reflexivity | now rewrite IH]. Qed.

Lemma string_app_nil_r (a : string) : a ++ EmptyString = a.
Proof. induction a as [|x a IH]; simpl; [reflexivity | now rewrite IH]. Qed.

Lemma replaceAllChar_app (c : ascii) (rep a b : string) :
  replaceAllChar c rep (a ++ b)
  = replaceAllChar c rep a ++ replaceAllChar c rep b.
Proof.
  induction a as [|x a IH]; simpl; [reflexivity|].
  destruct (x =? c)%char; rewrite IH; simpl;
    [now rewrite string_app_assoc | reflexivity].
Qed.

Lemma _escapeString_cons (c : ascii) (s : string) :
  _escapeString (String c s) = escapeChar c ++ _escapeString s.
Proof.
  unfold _escapeString, escapeChar. simpl.
  destruct (Ascii.eqb_spec c backslash) as [->|Hb]; [reflexivity|].
  simpl.
  destruct (Ascii.eqb_spec c dquote) as [->|Hq]; [reflexivity|].
  simpl.
  destruct (Ascii.eqb_spec c newline) as [->|Hn]; reflexivity.
Qed.

Lemma _escapeString_escapeEach (s : string) : _escapeString s = escapeEach s.
Proof.
  induction s as [|c s IH]; [reflexivity|].
  rewrite _escapeString_cons, IH. reflexivity.
Qed.

Lemma readLiteralBody_escapeEach (s : string) :
  readLiteralBody (escapeEach s ++ q) = Some s.
Proof.
  induction s as [|c s IH]; [reflexivity|].
  simpl. unfold escapeChar.
  destruct (Ascii.eqb_spec c backslash) as [->|Hb].
  { simpl. rewrite IH. reflexivity. }
  destruct (Ascii.eqb_spec c dquote) as [->|Hq].
  { simpl. rewrite IH. reflexivity. }
  destruct (Ascii.eqb_spec c newline) as [->|Hn].
  { simpl. rewrite IH. reflexivity. }
  simpl.
  apply Ascii.eqb_neq in Hb, Hq, Hn. rewrite Hb, Hq, Hn, IH. reflexivity.
Qed.

(** C6. [_escapeString] runs its three global replacements in the order
    backslash, double quote, newline; the result escapes every character
    on its own (no escape is escaped again); and reading back the quoted
    literal built from the escaped text gives the original text, for
    every text. *)
Theorem escapeString_order_and_roundtrip (text : string) :
  _escapeString text
  = replaceAllChar newline (String backslash "n")
      (replaceAllChar dquote (String backslash q)
         (replaceAllChar backslash
            (String backslash (String backslash EmptyString)) text))
  /\ _escapeString text = escapeEach text
  /\ decodeLiteral (quoteLiteral text) = Some text.
Proof.
  split; [reflexivity|]. split; [apply _escapeString_escapeEach|].
  unfold decodeLiteral, quoteLiteral. simpl.
  rewrite _escapeString_escapeEach. apply readLiteralBody_escapeEach.
Qed.

(** Quoting before escaping the backslash escapes the backslash of the
    quote's own escape: the order of the passes matters. *)
Example escape_quote_first_differs :
  replaceAllChar backslash (String backslash (String backslash EmptyString))
    (replaceAllChar dquote (String backslash q) q)
  = String backslash (String backslash q)
  /\ _escapeString q = String backslash q.
Proof. split; reflexivity. Qed.

(* ================================================================== *)
(** ** The analyzer: parse failure and determinism *)
(* ================================================================== *)

Section AnalyzerTop.

Variable acorn_parse : string -> string + node.

Lemma analyze_reset (code : string) (this : NFTCodeAnalyzer.t) :
  analyze acorn_parse code this
  = analyze acorn_parse code new_NFTCodeAnalyzer.
Proof. reflexivity. Qed.

(** On a text that parses, [analyze] is the extraction on its tree,
    started from an empty instance. *)
Lemma analyze_parsed (code : string) (ast : node) (this : NFTCodeAnalyzer.t) :
  acorn_parse code = inr ast ->
  analyze acorn_parse code this = analyzeAst ast new_NFTCodeAnalyzer.
Proof.
  intros Hparse. rewrite analyze_reset.
  unfold analyze, parseCode. rewrite Hparse. reflexivity.
Qed.

(** C4. [analyze] is a total function of the source text and the
    instance it runs on (nothing escapes its [try]); when the parser
    throws, the result holds exactly one issue, of severity error, and
    empty collections, traits, data and tokenIndexes, whatever the
    instance held before. *)
Theorem analyze_parse_failure (code msg : string) (this : NFTCodeAnalyzer.t) :
  acorn_parse code = inl msg ->
  fst (analyze acorn_parse code this)
  = {| AnalysisResult.collections := [];
       AnalysisResult.traits := [];
       AnalysisResult.data := [];
       AnalysisResult.issues :=
         [ {| AnalysisIssue.type := error;
              AnalysisIssue.message :=
                "Analysis failed: Failed to parse code: " ++ msg;
              AnalysisIssue.location := None |} ];
       AnalysisResult.tokenIndexes := [] |}.
Proof.
  intros Hparse. rewrite analyze_reset.
  unfold analyze, parseCode. rewrite Hparse. reflexivity.
Qed.

(** C9. Two calls of [analyze] on the same text give the same result:
    same collections, traits, data and tokenIndexes in the same order
    and the same issues, on a fresh instance ([analyzeCode]), on any two
    instances, and on one instance called twice. *)
Theorem analyze_deterministic (code : string) (this1 this2 : NFTCodeAnalyzer.t) :
  fst (analyze acorn_parse code this1) = fst (analyze acorn_parse code this2)
  /\ fst (analyze acorn_parse code this1) = analyzeCode acorn_parse code
  /\ fst (analyze acorn_parse code (snd (analyze acorn_parse code this1)))
     = fst (analyze acorn_parse code this1).
Proof.
  unfold analyzeCode. repeat split; apply (f_equal fst);
    rewrite analyze_reset; symmetry; rewrite analyze_reset; reflexivity.
Qed.

End AnalyzerTop.

Lemma analyze_parse_failure_witness :
  fst (analyze (fun _ => inl "Unexpected token (1:4)") "let = ;"
         new_NFTCodeAnalyzer)
  = {| AnalysisResult.collections := [];
       AnalysisResult.traits := [];
       AnalysisResult.data := [];
       AnalysisResult.issues :=
         [ {| AnalysisIssue.type := error;
              AnalysisIssue.message :=
                "Analysis failed: Failed to parse code: Unexpected token (1:4)";
              AnalysisIssue.location := None |} ];
       AnalysisResult.tokenIndexes := [] |}.
Proof.
  apply (analyze_parse_failure (fun _ => inl "Unexpected token (1:4)")
           "let = ;" "Unexpected token (1:4)" new_NFTCodeAnalyzer).
  reflexivity.
Defined.

(* ================================================================== *)
(** ** The walker as a fold *)
(* ================================================================== *)

Lemma fold_left_proj {S A P : Type} (f : S -> A -> S) (proj : S -> P)
    (h : P -> A -> P) :
  (forall st x, proj (f st x) = h (proj st) x) ->
  forall l st, proj (fold_left f l st) = fold_left h l (proj st).
Proof.
  intros Hstep l. induction l as [|x l IH]; intros st; simpl; [reflexivity|].
  rewrite IH, Hstep. reflexivity.
Qed.

Lemma fold_left_append {A B : Type} (g : A -> list B) (l : list A) (acc : list B) :
  fold_left (fun acc x => (acc ++ g x)%list) l acc = (acc ++ flat_map g l)%list.
Proof.
  revert acc. induction l as [|x l IH]; intros acc; simpl.
  - now rewrite app_nil_r.
  - rewrite IH. now rewrite app_assoc.
Qed.

Lemma fold_left_keep {S A P : Type} (f : S -> A -> S) (proj : S -> P) :
  (forall st x, proj (f st x) = proj st) ->
  forall l st, proj (fold_left f l st) = proj st.
Proof.
  intros Hstep l. induction l as [|x l IH]; intros st; simpl; [reflexivity|].
  rewrite IH. apply Hstep.
Qed.

Lemma flat_map_filter_map {A B : Type} (p : A -> bool) (g : A -> B) (l : list A) :
  flat_map (fun x => if p x then [g x] else []) l = map g (filter p l).
Proof.
  induction l as [|x l IH]; simpl; [reflexivity|].
  destruct (p x); simpl; now rewrite IH.
Qed.

(** Unfolds the method combinators in a goal about one callback. *)
Ltac method_simpl :=
  unfold exec, when, bind, ret, addIssue, pushCollection, pushTrait,
    pushTokenIndex, collectionExists, isDuplicateTrait; simpl.

(* ================================================================== *)
(** ** Pass 1: collection discovery *)
(* ================================================================== *)

Lemma extractCollections_collections (ast : node) (this : NFTCodeAnalyzer.t) :
  NFTCodeAnalyzer.collections (snd (extractCollections ast this))
  = (NFTCodeAnalyzer.collections this ++ declaredCollections ast)%list.
Proof.
  unfold extractCollections, walk_simple, declaredCollections. simpl.
  rewrite (fold_left_proj _ NFTCodeAnalyzer.collections
             (fun acc n => (acc ++ (if isCollectionDeclarator n
                                    then [collectionOf n] else []))%list)).
  - rewrite fold_left_append, flat_map_filter_map. reflexivity.
  - intros st n. unfold isCollectionDeclarator.
    destruct (isVariableDeclarator n); simpl; [|now rewrite app_nil_r].
    destruct (isFormaCollectionCall n); simpl.
    + unfold createCollection. method_simpl.
      destruct (is_null _); reflexivity.
    + method_simpl. now rewrite app_nil_r.
Qed.

Lemma extractCollections_others (ast : node) (this : NFTCodeAnalyzer.t) :
  NFTCodeAnalyzer.traits (snd (extractCollections ast this))
  = NFTCodeAnalyzer.traits this
  /\ NFTCodeAnalyzer.tokenIndexes (snd (extractCollections ast this))
     = NFTCodeAnalyzer.tokenIndexes this.
Proof.
  unfold extractCollections, walk_simple. simpl.
  split; apply fold_left_keep; intros st n;
    destruct (isVariableDeclarator n); try reflexivity;
    destruct (isFormaCollectionCall n); try reflexivity;
    unfold createCollection; method_simpl; destruct (is_null _); reflexivity.
Qed.

(* ================================================================== *)
(** ** Pass 2: trait discovery *)
(* ================================================================== *)

Lemma extractTrait_fst (n : node) (this : NFTCodeAnalyzer.t) :
  isCallExpression n = true -> fst (extractTrait n this) = traitOf n.
Proof.
  intros Hcall. unfold extractTrait, traitOf. rewrite Hcall. simpl.
  destruct (isTraitTypeCall n); simpl; [|reflexivity].
  destruct (traitTypeOfName (opt_name (callee_property n))) as [ty|].
  - destruct (isMetadataCall (callee_object n)); simpl; [|reflexivity].
    destruct (callee_object n) as [inner|]; [|reflexivity].
    method_simpl. destruct (is_null _); reflexivity.
  - destruct (isMetadataCall (callee_object n)); reflexivity.
Qed.

Lemma extractTrait_frame (n : node) (this : NFTCodeAnalyzer.t) :
  NFTCodeAnalyzer.collections (snd (extractTrait n this))
  = NFTCodeAnalyzer.collections this
  /\ NFTCodeAnalyzer.traits (snd (extractTrait n this))
     = NFTCodeAnalyzer.traits this
  /\ NFTCodeAnalyzer.tokenIndexes (snd (extractTrait n this))
     = NFTCodeAnalyzer.tokenIndexes this.
Proof.
  unfold extractTrait.
  destruct (isTraitTypeCall n); simpl; [|auto].
  destruct (traitTypeOfName _); [|auto].
  destruct (isMetadataCall _); simpl; [|auto].
  destruct (callee_object n); [|auto].
  method_simpl. destruct (is_null _); auto.
Qed.

Lemma traitStep_traits (this : NFTCodeAnalyzer.t) (n : node) :
  NFTCodeAnalyzer.traits (traitStep this n)
  = match traitOf n with
    | Some t => pushUnique (NFTCodeAnalyzer.traits this) t
    | None => NFTCodeAnalyzer.traits this
    end.
Proof.
  unfold traitStep. destruct (isCallExpression n) eqn:Hcall.
  - pose proof (extractTrait_fst n this Hcall) as Hfst.
    destruct (extractTrait_frame n this) as (_ & Htr & _).
    unfold exec, bind. destruct (extractTrait n this) as [trait this'].
    simpl in Hfst, Htr. subst trait. destruct (traitOf n) as [t|].
    + unfold isDuplicateTrait, when, pushUnique. rewrite Htr.
      destruct (existsb _ _); simpl; rewrite ?Htr; reflexivity.
    + simpl. exact Htr.
  - unfold traitOf. rewrite Hcall. reflexivity.
Qed.

Lemma traitStep_frame (this : NFTCodeAnalyzer.t) (n : node) :
  NFTCodeAnalyzer.collections (traitStep this n)
  = NFTCodeAnalyzer.collections this
  /\ NFTCodeAnalyzer.tokenIndexes (traitStep this n)
     = NFTCodeAnalyzer.tokenIndexes this.
Proof.
  unfold traitStep. destruct (isCallExpression n); [|auto].
  destruct (extractTrait_frame n this) as (Hc & _ & Hti).
  unfold exec, bind. destruct (extractTrait n this) as [trait this'].
  simpl in Hc, Hti. destruct trait as [t|]; [|auto].
  unfold isDuplicateTrait, when. destruct (negb _); auto.
Qed.

Lemma extractTraits_fold (ast : node) (this : NFTCodeAnalyzer.t) :
  snd (extractTraits ast this) = fold_left traitStep (postorder ast) this.
Proof. reflexivity. Qed.

Lemma fold_pushUnique_declarations (l : list node) (acc : list Trait.t) :
  fold_left (fun acc n => match traitOf n with
                          | Some t => pushUnique acc t
                          | None => acc
                          end) l acc
  = fold_left pushUnique
      (flat_map (fun n => match traitOf n with Some t => [t] | None => [] end) l)
      acc.
Proof.
  revert acc. induction l as [|n l IH]; intros acc; simpl; [reflexivity|].
  rewrite IH. destruct (traitOf n); reflexivity.
Qed.

Lemma extractTraits_traits (ast : node) (this : NFTCodeAnalyzer.t) :
  NFTCodeAnalyzer.traits (snd (extractTraits ast this))
  = fold_left pushUnique (traitDeclarations ast) (NFTCodeAnalyzer.traits this).
Proof.
  rewrite extractTraits_fold.
  rewrite (fold_left_proj traitStep NFTCodeAnalyzer.traits
             (fun acc n => match traitOf n with
                           | Some t => pushUnique acc t
                           | None => acc
                           end) traitStep_traits).
  apply fold_pushUnique_declarations.
Qed.

Lemma extractTraits_frame (ast : node) (this : NFTCodeAnalyzer.t) :
  NFTCodeAnalyzer.collections (snd (extractTraits ast this))
  = NFTCodeAnalyzer.collections this
  /\ NFTCodeAnalyzer.tokenIndexes (snd (extractTraits ast this))
     = NFTCodeAnalyzer.tokenIndexes this.
Proof.
  rewrite extractTraits_fold.
  split; apply fold_left_keep; intros st n; apply traitStep_frame.
Qed.

(* ================================================================== *)
(** ** Pass 3: token-usage discovery *)
(* ================================================================== *)



Lemma tokenStep_frame (this : NFTCodeAnalyzer.t) (n : node) :
  NFTCodeAnalyzer.collections (tokenStep this n)
  = NFTCodeAnalyzer.collections this
  /\ NFTCodeAnalyzer.traits (tokenStep this n) = NFTCodeAnalyzer.traits this.
Proof.
  unfold tokenStep.
  destruct (isCallExpression n); simpl; [|auto].
  destruct (isUseTokenCall n); simpl; [|auto].
  unfold extractTokenIndex. method_simpl.
  destruct (negb _); destruct (extractTokenId _); auto.
Qed.

Lemma tokenStep_issues_incl (this : NFTCodeAnalyzer.t) (n : node) :
  incl (NFTCodeAnalyzer.issues this) (NFTCodeAnalyzer.issues (tokenStep this n)).
Proof.
  unfold tokenStep.
  destruct (isCallExpression n); simpl; [|apply incl_refl].
  destruct (isUseTokenCall n); simpl; [|apply incl_refl].
  unfold extractTokenIndex. method_simpl.
  destruct (negb _); destruct (extractTokenId _); simpl;
    intros x Hx; rewrite ?in_app_iff; auto.
Qed.


Lemma fold_tokenStep_issues_incl (l : list node) (this : NFTCodeAnalyzer.t) :
  incl (NFTCodeAnalyzer.issues this)
       (NFTCodeAnalyzer.issues (fold_left tokenStep l this)).
Proof.
  revert this. induction l as [|n l IH]; intros this; simpl; [apply incl_refl|].
  eapply incl_tran; [apply tokenStep_issues_incl | apply IH].
Qed.


Lemma extractTokenUsages_fold (ast : node) (this : NFTCodeAnalyzer.t) :
  snd (extractTokenUsages ast this)
  = match findSetupFunction ast with
    | Some setupFunction => fold_left tokenStep (postorder setupFunction) this
    | None => this
    end.
Proof. unfold extractTokenUsages. destruct (findSetupFunction ast); reflexivity. Qed.


Lemma extractTokenUsages_frame (ast : node) (this : NFTCodeAnalyzer.t) :
  NFTCodeAnalyzer.collections (snd (extractTokenUsages ast this))
  = NFTCodeAnalyzer.collections this
  /\ NFTCodeAnalyzer.traits (snd (extractTokenUsages ast this))
     = NFTCodeAnalyzer.traits this.
Proof.
  rewrite extractTokenUsages_fold.
  destruct (findSetupFunction ast) as [f|]; [|auto].
  split; apply fold_left_keep; intros st n; apply tokenStep_frame.
Qed.

(* ================================================================== *)
(** ** The validation pass only adds issues *)
(* ================================================================== *)

Lemma onlyAddsIssues_ret {A : Type} (a : A) : onlyAddsIssues (ret a).
Proof. intros this. simpl. auto using incl_refl. Qed.

Lemma onlyAddsIssues_addIssue (i : AnalysisIssue.t) : onlyAddsIssues (addIssue i).
Proof.
  intros this. simpl. repeat split.
  intros x Hx. apply in_app_iff. now left.
Qed.

Lemma onlyAddsIssues_collectionExists (c : option string) :
  onlyAddsIssues (collectionExists c).
Proof. intros this. simpl. auto using incl_refl. Qed.

Lemma onlyAddsIssues_when (b : bool) (m : Method unit) :
  onlyAddsIssues m -> onlyAddsIssues (when b m).
Proof. destruct b; simpl; [auto | intros _; apply onlyAddsIssues_ret]. Qed.

Lemma onlyAddsIssues_bind {A B : Type} (m : Method A) (k : A -> Method B) :
  onlyAddsIssues m -> (forall a, onlyAddsIssues (k a)) -> onlyAddsIssues (bind m k).
Proof.
  intros Hm Hk this. unfold bind. specialize (Hm this).
  destruct (m this) as [a this1]. simpl in Hm.
  destruct Hm as (Hc & Ht & Hi & Hs).
  destruct (Hk a this1) as (Hc' & Ht' & Hi' & Hs').
  rewrite Hc', Ht', Hi', Hc, Ht, Hi. repeat split.
  eapply incl_tran; eassumption.
Qed.

Lemma onlyAddsIssues_forEach {A : Type} (f : A -> Method unit) (l : list A) :
  (forall x, onlyAddsIssues (f x)) -> onlyAddsIssues (forEach f l).
Proof.
  intros Hf. induction l as [|x l IH]; simpl.
  - apply onlyAddsIssues_ret.
  - apply onlyAddsIssues_bind; [apply Hf | intros _; exact IH].
Qed.

(** A method that first reads a field of the instance. *)
Lemma onlyAddsIssues_reading {A : Type} (f : NFTCodeAnalyzer.t -> Method A) :
  (forall this0, onlyAddsIssues (f this0)) ->
  onlyAddsIssues (fun this => f this this).
Proof. intros Hf this. apply (Hf this this). Qed.

Lemma validateData_onlyAddsIssues : onlyAddsIssues validateData.
Proof.
  unfold validateData.
  apply onlyAddsIssues_bind; [|intros _];
    apply (onlyAddsIssues_reading (fun this0 => forEach _ _)); intros this0;
    apply onlyAddsIssues_forEach; intros x;
    (apply onlyAddsIssues_bind;
     [apply onlyAddsIssues_collectionExists
     | intros known; apply onlyAddsIssues_when, onlyAddsIssues_addIssue]).
Qed.

(* ================================================================== *)
(** ** The result of the passes *)
(* ================================================================== *)

Lemma bind_run {A B : Type} (m : Method A) (k : A -> Method B)
    (this : NFTCodeAnalyzer.t) :
  bind m k this = k (fst (m this)) (snd (m this)).
Proof. unfold bind. destruct (m this). reflexivity. Qed.

(** The instance after the three passes and the validation. *)
Lemma analyzeAst_run (ast : node) (this : NFTCodeAnalyzer.t) :
  analyzeAst ast this
  = currentResult
      (snd (validateData
              (snd (extractTokenUsages ast
                      (snd (extractTraits ast
                              (snd (extractCollections ast this)))))))).
Proof. unfold analyzeAst. rewrite !bind_run. reflexivity. Qed.

(** Exposes the instance a field of the result is read from. *)
Ltac result_fields :=
  rewrite analyzeAst_run; unfold currentResult;
  cbn [fst AnalysisResult.collections AnalysisResult.traits
       AnalysisResult.tokenIndexes AnalysisResult.issues].

Lemma analyzeAst_collections (ast : node) (this : NFTCodeAnalyzer.t) :
  AnalysisResult.collections (fst (analyzeAst ast this))
  = (NFTCodeAnalyzer.collections this ++ declaredCollections ast)%list.
Proof.
  result_fields.
  destruct (validateData_onlyAddsIssues
              (snd (extractTokenUsages ast
                      (snd (extractTraits ast
                              (snd (extractCollections ast this)))))))
    as (-> & _).
  destruct (extractTokenUsages_frame ast
              (snd (extractTraits ast (snd (extractCollections ast this)))))
    as (-> & _).
  destruct (extractTraits_frame ast (snd (extractCollections ast this)))
    as (-> & _).
  apply extractCollections_collections.
Qed.

Lemma analyzeAst_traits (ast : node) (this : NFTCodeAnalyzer.t) :
  AnalysisResult.traits (fst (analyzeAst ast this))
  = fold_left pushUnique (traitDeclarations ast) (NFTCodeAnalyzer.traits this).
Proof.
  result_fields.
  destruct (validateData_onlyAddsIssues
              (snd (extractTokenUsages ast
                      (snd (extractTraits ast
                              (snd (extractCollections ast this)))))))
    as (_ & -> & _).
  destruct (extractTokenUsages_frame ast
              (snd (extractTraits ast (snd (extractCollections ast this)))))
    as (_ & ->).
  rewrite extractTraits_traits.
  destruct (extractCollections_others ast this) as (-> & _). reflexivity.
Qed.



(** End-to-end example A of the specification (with the trait read
    twice): one collection, one trait, one token usage, no issue. *)
Example example_A_result :
  fst (analyzeAst sketch_example_A new_NFTCodeAnalyzer)
  = {| AnalysisResult.collections :=
         [ {| Collection.name := Some "A"; Collection.address := LString "0xAA";
              Collection.sourceLocation := at_ 1 6 |} ];
       AnalysisResult.traits :=
         [ {| Trait.collection := Some "A"; Trait.key := LString "Color";
              Trait.type := asString; Trait.sourceLocation := at_ 5 0 |} ];
       AnalysisResult.data :=
         [ {| TraitData.collection := Some "A";
              TraitData.address := LString "0xAA";
              TraitData.traits :=
                [ {| Trait.collection := Some "A"; Trait.key := LString "Color";
                     Trait.type := asString; Trait.sourceLocation := at_ 5 0 |} ];
              TraitData.tokenIndexes := [num 3] |} ];
       AnalysisResult.issues := [];
       AnalysisResult.tokenIndexes :=
         [ {| TokenIndex.collection := Some "A"; TokenIndex.tokenId := num 3 |} ] |}.
Proof. reflexivity. Qed.

(* ================================================================== *)
(** ** Collections: one entry per declarator *)
(* ================================================================== *)

(** C3, as the code has it.  Every variable declarator initialised by a
    [FormaCollection] call registers one Collection, in walk order and
    without deduplication: the collections of the result are exactly the
    declared ones, so their names are pairwise distinct exactly when the
    declared names are. *)
Theorem collections_one_per_declarator (ast : node) :
  AnalysisResult.collections (fst (analyzeAst ast new_NFTCodeAnalyzer))
  = declaredCollections ast
  /\ List.length (AnalysisResult.collections (fst (analyzeAst ast new_NFTCodeAnalyzer)))
     = List.length (filter isCollectionDeclarator (postorder ast))
  /\ (NoDup (map Collection.name
               (AnalysisResult.collections (fst (analyzeAst ast new_NFTCodeAnalyzer))))
      <-> NoDup (map (fun n => opt_name (node_id n))
                   (filter isCollectionDeclarator (postorder ast)))).
Proof.
  rewrite analyzeAst_collections. simpl. unfold declaredCollections.
  rewrite length_map, map_map. simpl. repeat split; auto.
Qed.

(** C3, as stated, fails: a name declared twice is registered twice. *)
Lemma collections_names_repeat :
  map Collection.name
    (AnalysisResult.collections (fst (analyzeAst sketch_redeclared new_NFTCodeAnalyzer)))
  = [Some "A"; Some "A"]
  /\ ~ NoDup (map Collection.name
                (AnalysisResult.collections
                   (fst (analyzeAst sketch_redeclared new_NFTCodeAnalyzer)))).
Proof.
  split; [reflexivity|].
  intros H. change (NoDup [Some "A"; Some "A"]) in H.
  inversion H as [|x l Hnotin _]. apply Hnotin. now left.
Qed.

(* ================================================================== *)
(** ** Token usages *)
(* ================================================================== *)




(* ================================================================== *)
(** ** Traits: first occurrence wins *)
(* ================================================================== *)

Lemma normalForm_eqb_eq (a b : bool * string * Z) :
  normalForm_eqb a b = true <-> a = b.
Proof.
  destruct a as [[sa da] ea], b as [[sb db] eb]. unfold normalForm_eqb.
  rewrite !andb_true_iff, Bool.eqb_true_iff, String.eqb_eq, Z.eqb_eq.
  split; [intros [[-> ->] ->]; reflexivity | intros [= -> -> ->]; auto].
Qed.

Lemma number_strict_eqb_sym (x y : number) :
  number_strict_eqb x y = number_strict_eqb y x.
Proof.
  destruct x as [m1 e1|a|], y as [m2 e2|b|]; simpl; try reflexivity.
  - unfold finite_eqb.
    destruct (normalForm_eqb (normalForm m1 e1) (normalForm m2 e2)) eqn:H1;
      destruct (normalForm_eqb (normalForm m2 e2) (normalForm m1 e1)) eqn:H2;
      try reflexivity.
    + apply normalForm_eqb_eq in H1. symmetry in H1.
      apply normalForm_eqb_eq in H1. congruence.
    + apply normalForm_eqb_eq in H2. symmetry in H2.
      apply normalForm_eqb_eq in H2. congruence.
  - destruct a, b; reflexivity.
Qed.

Lemma number_strict_eqb_trans (x y z : number) :
  number_strict_eqb x y = true -> number_strict_eqb y z = true ->
  number_strict_eqb x z = true.
Proof.
  destruct x as [m1 e1|a|], y as [m2 e2|b|], z as [m3 e3|c|]; simpl;
    try discriminate.
  - unfold finite_eqb. rewrite !normalForm_eqb_eq. congruence.
  - rewrite !Bool.eqb_true_iff. congruence.
Qed.



Lemma number_strict_eqb_refl_finite (m e : Z) :
  number_strict_eqb (Finite m e) (Finite m e) = true.
Proof. simpl. unfold finite_eqb. now apply normalForm_eqb_eq. Qed.

Lemma name_eqb_eq (a b : option string) : name_eqb a b = true <-> a = b.
Proof.
  destruct a as [s|], b as [t|]; simpl; try (split; congruence).
  rewrite String.eqb_eq. split; congruence.
Qed.




Lemma find_app {A : Type} (p : A -> bool) (l1 l2 : list A) :
  find p (l1 ++ l2)
  = match find p l1 with Some x => Some x | None => find p l2 end.
Proof.
  induction l1 as [|x l1 IH]; simpl; [reflexivity|].
  destruct (p x); [reflexivity | exact IH].
Qed.


Section FirstOccurrence.

(** The triple looked for. *)
Variable t : Trait.t.




End FirstOccurrence.

Lemma find_filter_head {A : Type} (p : A -> bool) (l : list A) :
  find p l = hd_error (filter p l).
Proof.
  induction l as [|x l IH]; simpl; [reflexivity|].
  destruct (p x); [reflexivity | exact IH].
Qed.


(** The visit of a duplicate declaration whose key is a literal leaves the
    instance as it was: no trait, no issue.  (Without a key literal, the
    visit still records its missing-key warning.) *)
Lemma duplicate_visit_changes_nothing (this : NFTCodeAnalyzer.t) (n : node)
    (d : Trait.t) :
  traitOf n = Some d ->
  is_null (Trait.key d) = false ->
  existsb (fun x => sameTrait x d) (NFTCodeAnalyzer.traits this) = true ->
  traitStep this n = this.
Proof.
  intros Hd Hkey Hdup. unfold traitStep, traitOf in *.
  destruct (isCallExpression n); [|discriminate]. simpl in Hd.
  unfold extractTrait.
  destruct (isTraitTypeCall n); [|discriminate]. simpl in *.
  destruct (isMetadataCall (callee_object n)); [|discriminate]. simpl in *.
  destruct (traitTypeOfName (opt_name (callee_property n))) as [ty|];
    [|discriminate].
  destruct (callee_object n) as [inner|]; [|discriminate].
  injection Hd as <-. simpl in Hkey.
  unfold exec, bind, when, isDuplicateTrait. rewrite Hkey. simpl.
  rewrite Hdup. reflexivity.
Qed.

Lemma analyzeAst_traits_firstOccurrences (ast : node) :
  AnalysisResult.traits (fst (analyzeAst ast new_NFTCodeAnalyzer))
  = firstOccurrences (traitDeclarations ast).
Proof. apply analyzeAst_traits. Qed.



(* ================================================================== *)
(** ** Fragments over all collections and over the addressed ones *)
(* ================================================================== *)

Lemma occursIn_refl (s : string) : occursIn s s.
Proof. exists EmptyString, EmptyString. simpl. now rewrite string_app_nil_r. Qed.

Lemma occursIn_app_l (pat a b : string) : occursIn pat a -> occursIn pat (a ++ b).
Proof.
  intros (x & y & ->). exists x, (y ++ b).
  now rewrite !string_app_assoc.
Qed.

Lemma occursIn_app_r (pat a b : string) : occursIn pat b -> occursIn pat (a ++ b).
Proof.
  intros (x & y & ->). exists (a ++ x), y.
  now rewrite !string_app_assoc.
Qed.

Lemma occursIn_join (sep x : string) (l : list string) :
  In x l -> occursIn x (join sep l).
Proof.
  induction l as [|y l IH]; [easy|].
  intros [->|Hin].
  - destruct l; simpl; [apply occursIn_refl | apply occursIn_app_l, occursIn_refl].
  - destruct l as [|z l]; [easy|].
    change (join sep (y :: z :: l)) with (y ++ sep ++ join sep (z :: l)).
    apply occursIn_app_r, occursIn_app_r, IH, Hin.
Qed.

Lemma mapM_total {A B : Type} (f : A -> option B) (l : list A) :
  (forall x, In x l -> f x <> None) ->
  exists ys, mapM f l = Some ys
             /\ List.length ys = List.length l
             /\ forall x, In x l -> exists y, f x = Some y /\ In y ys.
Proof.
  induction l as [|x l IH]; intros Hf.
  - exists []. simpl. repeat split. easy.
  - destruct (f x) as [y|] eqn:Hx; [|now destruct (Hf x (or_introl eq_refl))].
    destruct IH as (ys & Hys & Hlen & Hall); [intros z Hz; apply Hf; now right|].
    exists (y :: ys). simpl. rewrite Hx, Hys, Hlen. repeat split.
    intros z [<-|Hz].
    + exists y. auto.
    + destruct (Hall z Hz) as (w & Hw & Hin). exists w. auto.
Qed.

Lemma _filterValidCollections_drop (l1 l2 : list Collection.t) (c : Collection.t) :
  literal_truthy (Collection.address c) = false ->
  _filterValidCollections (l1 ++ c :: l2) = _filterValidCollections (l1 ++ l2).
Proof.
  intros Hc. unfold _filterValidCollections.
  rewrite !filter_app. simpl. now rewrite Hc.
Qed.

(** C10.  [generateSolidityJsField] and
    [generateSolidityBase64EncodedField] run over every collection of the
    model.  For a collection [c] without an address, anywhere in the list:
    the first returns a text with one statement per collection, among them
    the statement of [c], which names the constant of [c], its [_INDEX]
    constant and its [tokenId_] variable; the second lists the
    [_jsField] of [c]; and the fragments that declare these identifiers
    ([generateCollectionAddresses], [generateCollectionIndexes],
    [generateTokenIdMapping], [generateFunctionParameters]) are the same
    as if [c] were not in the model.  (A collection whose name is
    undefined makes [_formatName] throw, hence the condition on names.) *)
Theorem unaddressed_collections_referenced
    (before after : list Collection.t) (c : Collection.t) :
  literal_truthy (Collection.address c) = false ->
  (forall x, In x (before ++ c :: after) -> Collection.name x <> None) ->
  exists name formatted text statements,
    Collection.name c = Some name
    /\ _formatName (Some name) = Some formatted
    /\ generateSolidityJsField (before ++ c :: after) = Some text
    /\ text = join nl statements
    /\ List.length statements = List.length (before ++ c :: after)
    /\ In (jsFieldText name formatted) statements
    /\ occursIn (jsFieldText name formatted) text
    /\ occursIn (name ++ "_jsField")
         (generateSolidityBase64EncodedField (before ++ c :: after))
    /\ generateCollectionAddresses (before ++ c :: after)
       = generateCollectionAddresses (before ++ after)
    /\ generateCollectionIndexes (before ++ c :: after)
       = generateCollectionIndexes (before ++ after)
    /\ generateTokenIdMapping (before ++ c :: after)
       = generateTokenIdMapping (before ++ after)
    /\ generateFunctionParameters (before ++ c :: after)
       = generateFunctionParameters (before ++ after).
Proof.
  intros Hc Hnames.
  assert (Hin : In c (before ++ c :: after)) by (apply in_elt).
  destruct (Collection.name c) as [name|] eqn:Hname;
    [|now destruct (Hnames c Hin)].
  destruct (mapM_total jsFieldStatement (before ++ c :: after))
    as (statements & Hmap & Hlen & Hall).
  { intros x Hx. unfold jsFieldStatement.
    destruct (Collection.name x) eqn:Hx'; [discriminate|].
    now destruct (Hnames x Hx). }
  destruct (Hall c Hin) as (stmt & Hstmt & Hstmt_in).
  unfold jsFieldStatement in Hstmt. rewrite Hname in Hstmt. simpl in Hstmt.
  injection Hstmt as <-.
  exists name, (_capitalize (collapseWhiteSpace (toLowerCase (trim name)))),
    (join nl statements), statements.
  repeat split; auto.
  - unfold generateSolidityJsField. now rewrite Hmap.
  - now apply occursIn_join.
  - unfold generateSolidityBase64EncodedField.
    apply occursIn_app_r, occursIn_app_r, occursIn_app_l, occursIn_join.
    apply in_map_iff. exists c. rewrite Hname. auto.
  - unfold generateCollectionAddresses. now rewrite _filterValidCollections_drop.
  - unfold generateCollectionIndexes. now rewrite _filterValidCollections_drop.
  - unfold generateTokenIdMapping. now rewrite _filterValidCollections_drop.
  - unfold generateFunctionParameters. now rewrite _filterValidCollections_drop.
Qed.

Lemma unaddressed_collections_referenced_witness :
  exists name formatted text statements,
    Collection.name unaddressed_A = Some name
    /\ _formatName (Some name) = Some formatted
    /\ generateSolidityJsField ([] ++ unaddressed_A :: []) = Some text
    /\ text = join nl statements
    /\ List.length statements = List.length ([] ++ unaddressed_A :: [])
    /\ In (jsFieldText name formatted) statements
    /\ occursIn (jsFieldText name formatted) text
    /\ occursIn (name ++ "_jsField")
         (generateSolidityBase64EncodedField ([] ++ unaddressed_A :: []))
    /\ generateCollectionAddresses ([] ++ unaddressed_A :: [])
       = generateCollectionAddresses ([] ++ [])
    /\ generateCollectionIndexes ([] ++ unaddressed_A :: [])
       = generateCollectionIndexes ([] ++ [])
    /\ generateTokenIdMapping ([] ++ unaddressed_A :: [])
       = generateTokenIdMapping ([] ++ [])
    /\ generateFunctionParameters ([] ++ unaddressed_A :: [])
       = generateFunctionParameters ([] ++ []).
Proof.
  apply (unaddressed_collections_referenced [] [] unaddressed_A).
  - reflexivity.
  - intros x [<-|[]]. discriminate.
Defined.

(** The fragments for the model that holds only the unaddressed [A]. *)
Example unaddressed_A_fragments :
  generateSolidityJsField [unaddressed_A]
  = Some ("string memory A_jsField = generateCollectionTraitJS("
            ++ q ++ "A" ++ q ++ ", A, A_INDEX, tokenId_A);")
  /\ generateSolidityBase64EncodedField [unaddressed_A]
     = nl ++ "        string memory allTraits = string(abi.encodePacked(A_jsField));"
          ++ nl ++ "    "
  /\ generateCollectionAddresses [unaddressed_A] = EmptyString
  /\ generateCollectionIndexes [unaddressed_A] = EmptyString
  /\ generateTokenIdMapping [unaddressed_A] = Some EmptyString
  /\ generateFunctionParameters [unaddressed_A] = Some EmptyString.
Proof. repeat split. Qed.

(* ================================================================== *)
(** ** Template assembly *)
(* ================================================================== *)

Lemma prefix_app (p r : string) : prefix p (p ++ r) = true.
Proof.
  induction p as [|c p IH]; simpl; [now destruct r|].
  destruct (ascii_dec c c); [exact IH | contradiction].
Qed.

Lemma prefix_split (p s : string) :
  prefix p s = true -> s = p ++ string_drop (String.length p) s.
Proof.
  revert s. induction p as [|c p IH]; intros s H; simpl; [reflexivity|].
  destruct s as [|d s]; simpl in H; [discriminate|].
  destruct (ascii_dec c d) as [->|]; [|discriminate].
  simpl. f_equal. now apply IH.
Qed.

Lemma split_first_eq (pat s : string) :
  split_first pat s
  = if prefix pat s then Some (EmptyString, string_drop (String.length pat) s)
    else match s with
         | EmptyString => None
         | String c s' =>
             match split_first pat s' with
             | Some (before, after) => Some (String c before, after)
             | None => None
             end
         end.
Proof. destruct s; reflexivity. Qed.

Lemma split_first_Some (pat s before after : string) :
  split_first pat s = Some (before, after) ->
  s = before ++ pat ++ after
  /\ forall before' after',
       s = before' ++ pat ++ after' ->
       (String.length before <= String.length before')%nat.
Proof.
  revert before after. induction s as [|c s IH]; intros before after H.
  - rewrite split_first_eq in H. destruct (prefix pat EmptyString) eqn:Hp; [|discriminate].
    injection H as <- <-. split; [now apply prefix_split|]. intros; simpl; lia.
  - rewrite split_first_eq in H. destruct (prefix pat (String c s)) eqn:Hp.
    + injection H as <- <-. split; [now apply prefix_split|]. intros; simpl; lia.
    + destruct (split_first pat s) as [[b a]|] eqn:Hrec; [|discriminate].
      injection H as <- <-. destruct (IH b a eq_refl) as [Heq Hmin].
      split; [simpl; now f_equal|].
      intros before' after' Hs. destruct before' as [|d before'].
      * simpl in Hs. rewrite Hs, prefix_app in Hp. discriminate.
      * simpl in Hs. injection Hs as _ Hs. simpl.
        apply le_n_S. eapply Hmin. exact Hs.
Qed.

Lemma split_first_None (pat s : string) :
  split_first pat s = None -> ~ occursIn pat s.
Proof.
  induction s as [|c s IH]; intros H (before & after & Hs).
  - rewrite split_first_eq in H. destruct (prefix pat EmptyString) eqn:Hp; [discriminate|].
    destruct before; [|discriminate]. simpl in Hs.
    rewrite Hs, prefix_app in Hp. discriminate.
  - rewrite split_first_eq in H. destruct (prefix pat (String c s)) eqn:Hp; [discriminate|].
    destruct (split_first pat s) as [[b a]|] eqn:Hrec; [discriminate|].
    destruct before as [|d before].
    + simpl in Hs. rewrite Hs, prefix_app in Hp. discriminate.
    + simpl in Hs. injection Hs as _ Hs. apply IH; [reflexivity|].
      now exists before, after.
Qed.

Lemma string_app_same_length (a b c d : string) :
  a ++ b = c ++ d -> String.length a = String.length c -> a = c /\ b = d.
Proof.
  revert c. induction a as [|x a IH]; intros c H Hlen.
  - destruct c; [auto | discriminate].
  - destruct c as [|y c]; [discriminate|].
    simpl in H, Hlen. injection H as -> H. injection Hlen as Hlen.
    destruct (IH c H Hlen) as [-> ->]. auto.
Qed.

Lemma replace_absent (pat replacement s : string) :
  ~ occursIn pat s -> replace pat replacement s = s.
Proof.
  intros Hno. unfold replace.
  destruct (split_first pat s) as [[b a]|] eqn:H; [|reflexivity].
  destruct (split_first_Some _ _ _ _ H) as [Hs _].
  exfalso. apply Hno. now exists b, a.
Qed.

Lemma replace_leftmost (pat replacement s before after : string) :
  s = before ++ pat ++ after ->
  (forall before' after',
      s = before' ++ pat ++ after' ->
      (String.length before <= String.length before')%nat) ->
  replace pat replacement s
  = before ++ GetSubstitution pat before after replacement ++ after.
Proof.
  intros Hs Hmin. unfold replace.
  destruct (split_first pat s) as [[b a]|] eqn:H.
  - destruct (split_first_Some _ _ _ _ H) as [Hs' Hmin'].
    assert (Hlen : String.length b = String.length before).
    { apply Nat.le_antisymm; [eapply Hmin' | eapply Hmin]; eassumption. }
    rewrite Hs in Hs'.
    destruct (string_app_same_length _ _ _ _ Hs' (eq_sym Hlen)) as [<- Hrest].
    destruct (string_app_same_length _ _ _ _ Hrest eq_refl) as [_ <-].
    reflexivity.
  - exfalso. apply (split_first_None _ _ H). now exists before, after.
Qed.

Lemma assemble_steps (analysis : AnalysisResult.t) (p5slot : list string)
    (templateSolidity : string) :
  assemble analysis p5slot templateSolidity
  = option_map (fun steps => fold_left replaceStep steps templateSolidity)
      (assemblySteps analysis p5slot).
Proof.
  unfold assemble, assemblySteps.
  destruct (generateTokenIdMapping _); [|reflexivity].
  destruct (generateOwnershipChecks _); [|reflexivity].
  destruct (generateMetadataExtraction _); [|reflexivity].
  destruct (generateSolidityJsField _); [|reflexivity].
  destruct (generateFullMetadataSettings _); reflexivity.
Qed.

Lemma assemblySteps_order (analysis : AnalysisResult.t) (p5slot : list string)
    (steps : list (string * string)) :
  assemblySteps analysis p5slot = Some steps -> map fst steps = placeholderOrder.
Proof.
  unfold assemblySteps.
  destruct (generateTokenIdMapping _); [|discriminate].
  destruct (generateOwnershipChecks _); [|discriminate].
  destruct (generateMetadataExtraction _); [|discriminate].
  destruct (generateSolidityJsField _); [|discriminate].
  destruct (generateFullMetadataSettings _); [|discriminate].
  intros [= <-]. reflexivity.
Qed.

(** *** When the chain and the single pass agree *)

Lemma prefix_cons (a b : ascii) (p s : string) :
  prefix (String a p) (String b s) = if (a =? b)%char then prefix p s else false.
Proof.
  simpl. destruct (ascii_dec a b) as [->|Hne].
  - now rewrite Ascii.eqb_refl.
  - apply Ascii.eqb_neq in Hne. now rewrite Hne.
Qed.

Lemma prepend_nil (o : option (string * string)) : prepend EmptyString o = o.
Proof. destruct o as [[b a]|]; reflexivity. Qed.

Lemma prepend_app (x y : string) (o : option (string * string)) :
  prepend x (prepend y o) = prepend (x ++ y) o.
Proof. destruct o as [[b a]|]; simpl; [now rewrite string_app_assoc | reflexivity]. Qed.

Lemma passes_nil (pat : string) : passes pat EmptyString.
Proof. intros rest. simpl. now rewrite prepend_nil. Qed.

Lemma passes_app (pat x y : string) :
  passes pat x -> passes pat y -> passes pat (x ++ y).
Proof.
  intros Hx Hy rest. rewrite string_app_assoc, Hx, Hy. apply prepend_app.
Qed.

Lemma split_first_cons (pat : string) (c : ascii) (s : string) :
  split_first pat (String c s)
  = if prefix pat (String c s)
    then Some (EmptyString, string_drop (String.length pat) (String c s))
    else prepend (String c EmptyString) (split_first pat s).
Proof.
  rewrite split_first_eq. destruct (prefix pat (String c s)); [reflexivity|].
  destruct (split_first pat s) as [[b a]|]; reflexivity.
Qed.

Lemma mkPlaceholder_cons (name : string) :
  mkPlaceholder name = String "%" (name ++ "%").
Proof. reflexivity. Qed.

Lemma prefix_placeholder (name : string) (c : ascii) (s : string) :
  prefix (mkPlaceholder name) (String c s)
  = (c =? "%")%char && prefix (name ++ "%") s.
Proof.
  rewrite mkPlaceholder_cons, prefix_cons, Ascii.eqb_sym.
  now destruct (c =? "%")%char.
Qed.

Lemma passes_percentFree (name s : string) :
  percentFree s = true -> passes (mkPlaceholder name) s.
Proof.
  induction s as [|c s IH]; intros Hs; [apply passes_nil|].
  unfold percentFree in Hs. simpl in Hs.
  apply andb_true_iff in Hs as [Hc Hs]. apply negb_true_iff in Hc.
  intros rest. change (String c s ++ rest) with (String c (s ++ rest)).
  rewrite split_first_cons, prefix_placeholder, Hc. simpl andb. cbv iota.
  rewrite (IH Hs rest), prepend_app. reflexivity.
Qed.

(** Two different names: the placeholder of one does not start where the
    placeholder of the other does. *)
Lemma prefix_other_name (n m rest : string) :
  percentFree n = true -> percentFree m = true -> n <> m ->
  prefix (n ++ "%") (m ++ "%" ++ rest) = false.
Proof.
  revert m. induction n as [|a n IH]; intros m Hn Hm Hne.
  - destruct m as [|b m]; [contradiction|].
    simpl in Hm. apply andb_true_iff in Hm as [Hb _].
    simpl append. rewrite prefix_cons.
    apply negb_true_iff in Hb. rewrite Ascii.eqb_sym. now rewrite Hb.
  - simpl in Hn. apply andb_true_iff in Hn as [Ha Hn].
    destruct m as [|b m].
    + simpl append. rewrite prefix_cons. apply negb_true_iff in Ha. now rewrite Ha.
    + simpl in Hm. apply andb_true_iff in Hm as [Hb Hm].
      simpl append. rewrite prefix_cons.
      destruct (Ascii.eqb_spec a b) as [->|]; [|reflexivity].
      apply IH; auto. congruence.
Qed.

(** After a text with a character foreign to names, no placeholder can
    close. *)
Lemma prefix_blocked (n t rest : string) :
  isName n = true -> percentFree t = true -> hasOtherChar t = true ->
  prefix (n ++ "%") (t ++ rest) = false.
Proof.
  revert t. induction n as [|a n IH]; intros t Hn Ht Ho.
  - destruct t as [|c t]; [discriminate|].
    simpl in Ht. apply andb_true_iff in Ht as [Hc _].
    simpl append. rewrite prefix_cons.
    apply negb_true_iff in Hc. rewrite Ascii.eqb_sym. now rewrite Hc.
  - unfold isName in Hn. simpl in Hn. apply andb_true_iff in Hn as [Ha Hn].
    destruct t as [|c t]; [discriminate|].
    simpl in Ht. apply andb_true_iff in Ht as [Hc Ht].
    simpl append. rewrite prefix_cons.
    destruct (Ascii.eqb_spec a c) as [->|]; [|reflexivity].
    apply IH; auto.
    unfold hasOtherChar in *. simpl in Ho. now rewrite Ha in Ho.
Qed.

Lemma isName_percentFree (n : string) : isName n = true -> percentFree n = true.
Proof.
  induction n as [|c n IH]; [reflexivity|].
  unfold isName, percentFree. simpl. rewrite !andb_true_iff.
  intros [Hc Hn]. split; [|now apply IH].
  destruct (Ascii.eqb_spec c "%") as [->|]; [discriminate | reflexivity].
Qed.

(** The chain steps over the placeholder of another name and the text
    after it. *)
Lemma passes_other_hole (p n t : string) :
  isName p = true -> isName n = true -> n <> p ->
  percentFree t = true -> hasOtherChar t = true ->
  passes (mkPlaceholder p) (mkPlaceholder n ++ t).
Proof.
  intros Hp Hn Hne Ht Ho rest.
  pose proof (isName_percentFree _ Hp) as Hp'.
  pose proof (isName_percentFree _ Hn) as Hn'.
  assert (Hshape : (mkPlaceholder n ++ t) ++ rest
                   = String "%" (n ++ String "%" (t ++ rest))).
  { rewrite mkPlaceholder_cons. simpl. now rewrite !string_app_assoc. }
  rewrite Hshape.
  rewrite split_first_cons, prefix_placeholder.
  change (String "%" (t ++ rest)) with ("%" ++ t ++ rest).
  rewrite (prefix_other_name p n (t ++ rest) Hp' Hn') by congruence.
  rewrite andb_false_r.
  rewrite (passes_percentFree p n Hn' ("%" ++ t ++ rest)).
  change ("%" ++ t ++ rest) with (String "%" (t ++ rest)).
  rewrite split_first_cons, prefix_placeholder.
  rewrite (prefix_blocked p t rest Hp Ht Ho), andb_false_r.
  rewrite (passes_percentFree p t Ht rest).
  rewrite !prepend_app. reflexivity.
Qed.

Lemma GetSubstitution_dollarFree (matched before after g : string) :
  dollarFree g = true -> GetSubstitution matched before after g = g.
Proof.
  induction g as [|c g IH]; [reflexivity|].
  unfold dollarFree. simpl. rewrite andb_true_iff. intros [Hc Hg].
  apply negb_true_iff in Hc. rewrite Hc. f_equal. now apply IH.
Qed.

Lemma string_drop_app (p rest : string) :
  string_drop (String.length p) (p ++ rest) = rest.
Proof. induction p as [|c p IH]; [reflexivity | exact IH]. Qed.

Lemma split_first_at_head (pat rest : string) :
  split_first pat (pat ++ rest) = Some (EmptyString, rest).
Proof. now rewrite split_first_eq, prefix_app, string_drop_app. Qed.

Lemma split_first_placeholder_nil (p : string) :
  split_first (mkPlaceholder p) EmptyString = None.
Proof. reflexivity. Qed.

Lemma renderSlots_ext (h1 h2 : string -> string) (slots : list slot) :
  (forall s, In s slots -> h1 (slot_name s) = h2 (slot_name s)) ->
  renderSlots h1 slots = renderSlots h2 slots.
Proof.
  induction slots as [|s slots IH]; intros H; [reflexivity|].
  simpl. rewrite (H s (or_introl eq_refl)), IH; [reflexivity|].
  intros x Hx. apply H. now right.
Qed.

Lemma memName_In (n : string) (l : list string) :
  memName n l = true <-> In n l.
Proof.
  unfold memName. rewrite existsb_exists. split.
  - intros (x & Hx & Heq). apply String.eqb_eq in Heq. now subst.
  - intros H. exists n. split; [exact H | apply String.eqb_refl].
Qed.

Lemma memName_cons (n p : string) (l : list string) :
  memName n (p :: l) = (n =? p) || memName n l.
Proof. reflexivity. Qed.

(** One step of the chain on a partly filled template: the slot of the
    step's placeholder, if the template has it, is filled; nothing else
    changes. *)
Lemma replace_fills_slot (steps : list (string * string)) (done : list string)
    (p : string) (slots : list slot) :
  isName p = true ->
  dollarFree (fragmentOf steps p) = true ->
  Forall (slotReady steps) slots ->
  distinctNames (map slot_name slots) = true ->
  forall pre,
    passes (mkPlaceholder p) pre ->
    replace (mkPlaceholder p) (fragmentOf steps p)
      (pre ++ renderSlots (holeAfter steps done) slots)
    = pre ++ renderSlots (holeAfter steps (p :: done)) slots.
Proof.
  intros Hp Hdollar Hready.
  induction Hready as [|s slots (Hn & Ht & Ho & Hf) _ IH]; intros Hdistinct pre Hpre.
  - simpl. unfold replace.
    rewrite (Hpre EmptyString), split_first_placeholder_nil. reflexivity.
  - simpl in Hdistinct. apply andb_true_iff in Hdistinct as [Hfresh Hdistinct].
    apply negb_true_iff in Hfresh.
    simpl renderSlots. unfold holeAfter at 1 3. rewrite memName_cons.
    destruct (memName (slot_name s) done) eqn:Hdone.
    + rewrite orb_true_r.
      assert (Hassoc : forall x y z, pre ++ x ++ y ++ z = (pre ++ x ++ y) ++ z)
        by (intros; now rewrite !string_app_assoc).
      rewrite !Hassoc.
      apply (IH Hdistinct).
      apply passes_app; [exact Hpre|].
      apply passes_percentFree.
      unfold percentFree in *.
      clear - Hf Ht. revert Hf.
      induction (fragmentOf steps (slot_name s)) as [|c f IHf]; simpl; [auto|].
      rewrite !andb_true_iff. intros [Hc Hf]. auto.
    + rewrite orb_false_r.
      destruct (String.eqb_spec (slot_name s) p) as [Heq|Hne].
      * subst p. unfold replace.
        rewrite (Hpre _), split_first_at_head. simpl prepend.
        rewrite string_app_nil_r, GetSubstitution_dollarFree by exact Hdollar.
        do 3 f_equal.
        apply renderSlots_ext. intros x Hx. unfold holeAfter.
        rewrite memName_cons.
        destruct (String.eqb_spec (slot_name x) (slot_name s)) as [Heq|]; [|reflexivity].
        exfalso.
        assert (memName (slot_name s) (map slot_name slots) = true).
        { apply memName_In. rewrite <- Heq. now apply in_map. }
        congruence.
      * assert (Hassoc : forall x y z, pre ++ x ++ y ++ z = (pre ++ x ++ y) ++ z)
          by (intros; now rewrite !string_app_assoc).
        rewrite !Hassoc.
        apply (IH Hdistinct).
        apply passes_app; [exact Hpre|].
        now apply passes_other_hole.
Qed.

(** The chain, one step per name. *)
Lemma chain_fills_slots (steps : list (string * string)) (l0 : string)
    (slots : list slot) (names : list string) :
  percentFree l0 = true ->
  Forall (slotReady steps) slots ->
  distinctNames (map slot_name slots) = true ->
  (forall n, In n names ->
             isName n = true /\ dollarFree (fragmentOf steps n) = true) ->
  forall done,
    fold_left (fun text n => replace (mkPlaceholder n) (fragmentOf steps n) text)
      names (l0 ++ renderSlots (holeAfter steps done) slots)
    = l0 ++ renderSlots (holeAfter steps (rev names ++ done)%list) slots.
Proof.
  intros Hl0 Hready Hdistinct.
  induction names as [|n names IH]; intros Hnames done; [reflexivity|].
  simpl fold_left.
  destruct (Hnames n (or_introl eq_refl)) as [Hn Hd].
  rewrite (replace_fills_slot steps done n slots Hn Hd Hready Hdistinct l0
             (passes_percentFree n l0 Hl0)).
  rewrite IH by (intros m Hm; apply Hnames; now right).
  simpl rev. now rewrite <- app_assoc.
Qed.

Lemma renderSlots_all_done (steps : list (string * string)) (done : list string)
    (slots : list slot) :
  (forall s, In s slots -> memName (slot_name s) done = true) ->
  renderSlots (holeAfter steps done) slots = renderSlots (fragmentOf steps) slots.
Proof.
  intros H. apply renderSlots_ext. intros s Hs. unfold holeAfter.
  now rewrite (H s Hs).
Qed.

Lemma renderSlots_none_done (steps : list (string * string)) (slots : list slot) :
  renderSlots (holeAfter steps []) slots = renderSlots mkPlaceholder slots.
Proof. apply renderSlots_ext. reflexivity. Qed.

(** The steps of the assembly, by name. *)
Lemma assemblySteps_by_name (analysis : AnalysisResult.t) (p5slot : list string)
    (steps : list (string * string)) :
  assemblySteps analysis p5slot = Some steps ->
  steps = map (fun n => (mkPlaceholder n, fragmentOf steps n)) placeholderNames.
Proof.
  unfold assemblySteps.
  destruct (generateTokenIdMapping _); [|discriminate].
  destruct (generateOwnershipChecks _); [|discriminate].
  destruct (generateMetadataExtraction _); [|discriminate].
  destruct (generateSolidityJsField _); [|discriminate].
  destruct (generateFullMetadataSettings _); [|discriminate].
  intros [= <-]. reflexivity.
Qed.

Lemma fold_left_map {A B C : Type} (f : A -> B -> A) (g : C -> B) (l : list C)
    (a : A) :
  fold_left f (map g l) a = fold_left (fun x c => f x (g c)) l a.
Proof. revert a. induction l as [|c l IH]; intros a; simpl; [reflexivity | apply IH]. Qed.

Lemma placeholderNames_are_names :
  forall n, In n placeholderNames -> isName n = true.
Proof. apply forallb_forall. reflexivity. Qed.

(** *** The single pass on a template of slots *)

Lemma singlePassFrom_cons0 (steps : list (string * string)) (c : ascii)
    (rest : string) :
  singlePassFrom steps O (String c rest)
  = match find (fun step => prefix (fst step) (String c rest)) steps with
    | Some (placeholder, fragment) =>
        fragment ++ singlePassFrom steps (String.length placeholder - 1) rest
    | None => String c (singlePassFrom steps O rest)
    end.
Proof. reflexivity. Qed.

Lemma singlePassFrom_skip (steps : list (string * string)) (s rest : string) :
  singlePassFrom steps (String.length s) (s ++ rest) = singlePassFrom steps O rest.
Proof. induction s as [|c s IH]; [now destruct rest | exact IH]. Qed.

Lemma find_all_false {A : Type} (p : A -> bool) (l : list A) :
  (forall x, In x l -> p x = false) -> find p l = None.
Proof.
  induction l as [|x l IH]; intros H; [reflexivity|].
  simpl. rewrite (H x (or_introl eq_refl)). apply IH. intros y Hy. apply H. now right.
Qed.

Lemma singlePass_copies (f : string -> string) (names : list string)
    (s rest : string) :
  percentFree s = true ->
  singlePassFrom (map (fun n => (mkPlaceholder n, f n)) names) O (s ++ rest)
  = s ++ singlePassFrom (map (fun n => (mkPlaceholder n, f n)) names) O rest.
Proof.
  induction s as [|c s IH]; intros Hs; [reflexivity|].
  unfold percentFree in Hs. simpl in Hs.
  apply andb_true_iff in Hs as [Hc Hs]. apply negb_true_iff in Hc.
  change (String c s ++ rest) with (String c (s ++ rest)).
  rewrite singlePassFrom_cons0, find_all_false.
  - rewrite (IH Hs). reflexivity.
  - intros step Hstep. apply in_map_iff in Hstep as (n & <- & _).
    simpl fst. now rewrite prefix_placeholder, Hc.
Qed.

Lemma mkPlaceholder_inj (n m : string) : mkPlaceholder n = mkPlaceholder m -> n = m.
Proof.
  unfold mkPlaceholder. simpl. intros [= H]. revert m H.
  induction n as [|a n IH]; intros [|b m] H; simpl in H; try reflexivity.
  - injection H as _ H. destruct m; discriminate.
  - injection H as _ H. destruct n; discriminate.
  - injection H as -> H. f_equal. now apply IH.
Qed.

Lemma find_placeholder_prefix (f : string -> string) (names : list string)
    (n rest : string) :
  (forall m, In m names -> percentFree m = true) ->
  percentFree n = true ->
  find (fun step => prefix (fst step) (mkPlaceholder n ++ rest))
       (map (fun m => (mkPlaceholder m, f m)) names)
  = find (fun step => fst step =? mkPlaceholder n)
         (map (fun m => (mkPlaceholder m, f m)) names).
Proof.
  intros Hnames Hn. induction names as [|m names IH]; [reflexivity|].
  cbn [map find fst].
  assert (Heq : prefix (mkPlaceholder m) (mkPlaceholder n ++ rest)
                = (mkPlaceholder m =? mkPlaceholder n)).
  { destruct (String.eqb_spec (mkPlaceholder m) (mkPlaceholder n)) as [->|Hne].
    - apply prefix_app.
    - rewrite (mkPlaceholder_cons n).
      change (String "%" (n ++ "%") ++ rest) with (String "%" ((n ++ "%") ++ rest)).
      rewrite prefix_placeholder, string_app_assoc. simpl andb.
      apply prefix_other_name; auto.
      + apply Hnames. now left.
      + intros ->. now apply Hne. }
  rewrite Heq. destruct (mkPlaceholder m =? mkPlaceholder n); [reflexivity|].
  apply IH. intros x Hx. apply Hnames. now right.
Qed.

Lemma singlePass_fills (f : string -> string) (names : list string)
    (n rest : string) :
  (forall m, In m names -> percentFree m = true) ->
  In n names ->
  singlePassFrom (map (fun m => (mkPlaceholder m, f m)) names) O
    (mkPlaceholder n ++ rest)
  = fragmentOf (map (fun m => (mkPlaceholder m, f m)) names) n
      ++ singlePassFrom (map (fun m => (mkPlaceholder m, f m)) names) O rest.
Proof.
  intros Hnames Hin.
  pose proof (find_placeholder_prefix f names n rest Hnames (Hnames n Hin)) as Hfind.
  change (mkPlaceholder n ++ rest) with (String "%" ((n ++ "%") ++ rest)).
  rewrite singlePassFrom_cons0.
  change (String "%" ((n ++ "%") ++ rest)) with (mkPlaceholder n ++ rest).
  rewrite Hfind. unfold fragmentOf.
  destruct (find (fun step => fst step =? mkPlaceholder n) _) as [[ph g]|] eqn:Hf.
  - apply find_some in Hf as [_ Heq]. simpl in Heq. apply String.eqb_eq in Heq.
    subst ph. simpl snd. f_equal.
    replace (String.length (mkPlaceholder n) - 1)%nat
      with (String.length (n ++ "%"))
      by (rewrite (mkPlaceholder_cons n); simpl; lia).
    apply singlePassFrom_skip.
  - exfalso.
    assert (Hstep : In (mkPlaceholder n, f n)
                       (map (fun m => (mkPlaceholder m, f m)) names))
      by (apply in_map_iff; now exists n).
    apply (find_none _ _ Hf) in Hstep. simpl in Hstep.
    now rewrite String.eqb_refl in Hstep.
Qed.

Lemma singlePass_slots (f : string -> string) (names : list string)
    (slots : list slot) :
  (forall m, In m names -> percentFree m = true) ->
  (forall s, In s slots -> In (slot_name s) names /\ percentFree (slot_text s) = true) ->
  singlePassFrom (map (fun m => (mkPlaceholder m, f m)) names) O
    (renderSlots mkPlaceholder slots)
  = renderSlots (fragmentOf (map (fun m => (mkPlaceholder m, f m)) names)) slots.
Proof.
  intros Hnames. induction slots as [|s slots IH]; intros Hslots; [reflexivity|].
  destruct (Hslots s (or_introl eq_refl)) as [Hin Ht].
  cbn [renderSlots].
  rewrite (singlePass_fills f names _ _ Hnames Hin).
  rewrite (singlePass_copies f names _ _ Ht).
  rewrite IH; [reflexivity|]. intros x Hx. apply Hslots. now right.
Qed.

(** On a well-formed template and with clean fragments, the chain and the
    single pass give the same text: the template with each placeholder
    replaced by its fragment. *)
Lemma assemble_wellFormed (analysis : AnalysisResult.t) (p5slot : list string)
    (steps : list (string * string)) (l0 : string) (slots : list slot) :
  assemblySteps analysis p5slot = Some steps ->
  cleanFragments steps = true ->
  wellFormedTemplate l0 slots = true ->
  assemble analysis p5slot (templateOf l0 slots)
  = Some (filledTemplate steps l0 slots)
  /\ singlePass steps (templateOf l0 slots) = filledTemplate steps l0 slots.
Proof.
  intros Hsteps Hclean Hwf.
  pose proof (assemblySteps_by_name _ _ _ Hsteps) as Hshape.
  unfold wellFormedTemplate in Hwf.
  apply andb_true_iff in Hwf as [Hwf Hdistinct].
  apply andb_true_iff in Hwf as [Hl0 Hslots].
  rewrite forallb_forall in Hslots.
  assert (Hfrag : forall n, In n placeholderNames ->
                    percentFree (fragmentOf steps n) = true
                    /\ dollarFree (fragmentOf steps n) = true).
  { intros n Hn. unfold cleanFragments in Hclean. rewrite forallb_forall in Hclean.
    apply andb_true_iff.
    apply (Hclean (mkPlaceholder n, fragmentOf steps n)).
    assert (Hin : In (mkPlaceholder n, fragmentOf steps n)
                     (map (fun n => (mkPlaceholder n, fragmentOf steps n))
                        placeholderNames))
      by (apply in_map_iff; now exists n).
    now rewrite <- Hshape in Hin. }
  assert (Hslot : forall s, In s slots ->
                    In (slot_name s) placeholderNames
                    /\ percentFree (slot_text s) = true
                    /\ hasOtherChar (slot_text s) = true).
  { intros s Hs. specialize (Hslots s Hs).
    apply andb_true_iff in Hslots as [Hslots Ho].
    apply andb_true_iff in Hslots as [Hin Ht].
    apply memName_In in Hin. auto. }
  assert (Hchain :
            fold_left
              (fun text n => replace (mkPlaceholder n) (fragmentOf steps n) text)
              placeholderNames (l0 ++ renderSlots mkPlaceholder slots)
            = l0 ++ renderSlots (fragmentOf steps) slots).
  { rewrite <- (renderSlots_none_done steps).
    rewrite chain_fills_slots; auto.
    - f_equal. apply renderSlots_all_done. intros s Hs.
      apply memName_In. rewrite app_nil_r. apply in_rev. rewrite rev_involutive.
      now apply Hslot.
    - apply Forall_forall. intros s Hs.
      destruct (Hslot s Hs) as (Hin & Ht & Ho).
      repeat split; auto.
      + now apply placeholderNames_are_names.
      + now apply Hfrag.
    - intros n Hn. split; [now apply placeholderNames_are_names | now apply Hfrag]. }
  assert (Hpass :
            singlePassFrom
              (map (fun n => (mkPlaceholder n, fragmentOf steps n)) placeholderNames)
              O (l0 ++ renderSlots mkPlaceholder slots)
            = l0 ++ renderSlots
                      (fragmentOf
                         (map (fun n => (mkPlaceholder n, fragmentOf steps n))
                            placeholderNames)) slots).
  { rewrite singlePass_copies by exact Hl0. f_equal.
    apply singlePass_slots.
    - intros m Hm. apply isName_percentFree. now apply placeholderNames_are_names.
    - intros s Hs. destruct (Hslot s Hs) as (Hin & Ht & _). auto. }
  rewrite <- Hshape in Hpass.
  unfold templateOf, filledTemplate, singlePass. split; [|exact Hpass].
  rewrite assemble_steps, Hsteps. simpl option_map. f_equal.
  rewrite <- Hchain.
  transitivity
    (fold_left replaceStep
       (map (fun n => (mkPlaceholder n, fragmentOf steps n)) placeholderNames)
       (l0 ++ renderSlots mkPlaceholder slots)).
  - now rewrite <- Hshape.
  - now rewrite fold_left_map.
Qed.
(** C2, as the code has it.  The assembly is a chain of thirteen
    [replace] calls, one per placeholder in a fixed order, each applied to
    the whole text the previous one returned, and not a single scan.  A
    step whose placeholder does not occur in that text returns it
    unchanged; otherwise the step rewrites the leftmost occurrence in that
    text and nothing else, wherever that occurrence came from, the
    template or an earlier fragment.  On a well-formed template (no [%]
    outside its placeholders, each placeholder one of the chain and used
    once, each followed by text with a character foreign to placeholder
    names) and with fragments free of [%] and [$], the chain gives what a
    single pass gives: every placeholder replaced once by its fragment,
    and no fragment rewritten. *)
Theorem assembly_sequential_first_occurrence
    (analysis : AnalysisResult.t) (p5slot : list string) (templateSolidity : string) :
  assemble analysis p5slot templateSolidity
  = option_map (fun steps => fold_left replaceStep steps templateSolidity)
      (assemblySteps analysis p5slot)
  /\ (forall steps, assemblySteps analysis p5slot = Some steps ->
                    map fst steps = placeholderOrder)
  /\ (forall text step, ~ occursIn (fst step) text -> replaceStep text step = text)
  /\ (forall text step before after,
        text = before ++ fst step ++ after ->
        (forall before' after',
            text = before' ++ fst step ++ after' ->
            (String.length before <= String.length before')%nat) ->
        replaceStep text step
        = before ++ GetSubstitution (fst step) before after (snd step) ++ after)
  /\ (forall steps l0 slots,
        assemblySteps analysis p5slot = Some steps ->
        cleanFragments steps = true ->
        wellFormedTemplate l0 slots = true ->
        assemble analysis p5slot (templateOf l0 slots)
        = Some (filledTemplate steps l0 slots)
        /\ singlePass steps (templateOf l0 slots) = filledTemplate steps l0 slots).
Proof.
  split; [apply assemble_steps|]. split; [apply assemblySteps_order|].
  split; [|split].
  - intros text step H. now apply replace_absent.
  - intros text step before after Hs Hmin. now apply replace_leftmost.
  - intros steps l0 slots. apply assemble_wellFormed.
Qed.

Lemma assembly_sequential_first_occurrence_witness :
  replaceStep "a %X% b %X%" ("%X%", "c")
  = "a " ++ GetSubstitution "%X%" "a " " b %X%" "c" ++ " b %X%"
  /\ assemble (fst (analyzeAst sketch_example_A new_NFTCodeAnalyzer)) sample_chunks
       (templateOf sample_template_head sample_template_slots)
     = Some (filledTemplate sample_steps sample_template_head sample_template_slots)
  /\ singlePass sample_steps (templateOf sample_template_head sample_template_slots)
     = filledTemplate sample_steps sample_template_head sample_template_slots.
Proof.
  split.
  - apply (proj1 (proj2 (proj2 (proj2
             (assembly_sequential_first_occurrence
                (fst (analyzeAst sketch_example_A new_NFTCodeAnalyzer))
                sample_chunks two_placeholder_template))))
             "a %X% b %X%" ("%X%", "c") "a " " b %X%").
    + reflexivity.
    + intros before' after' H.
      destruct before' as [|x [|y before']]; [discriminate | discriminate |].
      simpl. lia.
  - apply (proj2 (proj2 (proj2 (proj2
             (assembly_sequential_first_occurrence
                (fst (analyzeAst sketch_example_A new_NFTCodeAnalyzer))
                sample_chunks two_placeholder_template))))
             sample_steps sample_template_head sample_template_slots).
    + vm_compute. reflexivity.
    + vm_compute. reflexivity.
    + vm_compute. reflexivity.
Defined.

(** The sample template, assembled. *)
Example sample_template_assembled :
  assemble (fst (analyzeAst sketch_example_A new_NFTCodeAnalyzer)) sample_chunks
    (templateOf sample_template_head sample_template_slots)
  = Some ("contract NFTCollection {" ++ nl
            ++ "address private constant A = 0xAA;" ++ nl
            ++ "uint256 private constant A_INDEX = 0;" ++ nl
            ++ "string private constant CHUNK_0 = " ++ q ++ "Y29uc3QgQSA9" ++ q ++ ";" ++ nl
            ++ "string private constant CHUNK_1 = " ++ q ++ "IEZvcm1h" ++ q ++ ";" ++ nl
            ++ nl ++ "uint256 private constant CHUNK_COUNT = 2;" ++ nl
            ++ "function mint() {" ++ nl
            ++ "uint256 tokenId_A = _tokenIds[A_INDEX];" ++ nl
            ++ "require(IERC721(A).ownerOf(tokenId_A) == _msgSender(), "
            ++ q ++ "Not the owner of required A" ++ q ++ ");" ++ nl
            ++ "}" ++ nl ++ "}").
Proof. vm_compute. reflexivity. Qed.

(** Whatever the chunks are, the assembly of the two-placeholder template
    for [sketch_placeholder_key] ends with the mapping statement inside
    the registration statement. *)
Lemma assembly_of_placeholder_key (p5slot : list string) :
  assemble (fst (analyzeAst sketch_placeholder_key new_NFTCodeAnalyzer)) p5slot
    two_placeholder_template
  = Some ("_traitRegistry[A_INDEX].push(TraitRegistry(" ++ q ++ "asString" ++ q
            ++ ", " ++ q ++ "uint256 tokenId_A = _tokenIds[A_INDEX];" ++ q ++ "));"
            ++ nl ++ "_traitRegistrySize[A_INDEX] = 1;|%ID_MAPPING%").
Proof. vm_compute. reflexivity. Qed.

(** C2, as stated, fails: the key of a trait brings the text of a later
    placeholder into the registration fragment; the later step rewrites
    that text, inside what was substituted, and the placeholder of the
    template survives.  A single pass gives another text. *)
Lemma assembly_resubstitutes :
  assemble (fst (analyzeAst sketch_placeholder_key new_NFTCodeAnalyzer))
    placeholder_key_chunks two_placeholder_template
  = Some ("_traitRegistry[A_INDEX].push(TraitRegistry(" ++ q ++ "asString" ++ q
            ++ ", " ++ q ++ "uint256 tokenId_A = _tokenIds[A_INDEX];" ++ q ++ "));"
            ++ nl ++ "_traitRegistrySize[A_INDEX] = 1;|%ID_MAPPING%")
  /\ option_map (fun steps => singlePass steps two_placeholder_template)
       (assemblySteps (fst (analyzeAst sketch_placeholder_key new_NFTCodeAnalyzer))
          placeholder_key_chunks)
     = Some ("_traitRegistry[A_INDEX].push(TraitRegistry(" ++ q ++ "asString" ++ q
               ++ ", " ++ q ++ "%ID_MAPPING%" ++ q ++ "));"
               ++ nl ++ "_traitRegistrySize[A_INDEX] = 1;"
               ++ "|uint256 tokenId_A = _tokenIds[A_INDEX];")
  /\ assemble (fst (analyzeAst sketch_placeholder_key new_NFTCodeAnalyzer))
       placeholder_key_chunks two_placeholder_template
     <> option_map (fun steps => singlePass steps two_placeholder_template)
          (assemblySteps (fst (analyzeAst sketch_placeholder_key new_NFTCodeAnalyzer))
             placeholder_key_chunks).
Proof.
  split; [vm_compute; reflexivity|]. split; [vm_compute; reflexivity|].
  vm_compute. discriminate.
Qed.

(* ================================================================== *)
(** ** Value coercion *)
(* ================================================================== *)





(** Induction on values, with the hypothesis on every item of an array. *)
Lemma jsvalue_array_ind (P : jsvalue -> Prop) :
  P JUndefined -> P JNull -> (forall b, P (JBoolean b)) ->
  (forall n, P (JNumber n)) -> (forall s, P (JString s)) ->
  (forall items, Forall P items -> P (JArray items)) ->
  (forall fields, P (JObject fields)) ->
  forall v, P v.
Proof.
  intros Hu Hn Hb Hnum Hs Ha Ho.
  fix IH 1. intros v. destruct v as [| |b|n|s|items|fields].
  - exact Hu.
  - exact Hn.
  - apply Hb.
  - apply Hnum.
  - apply Hs.
  - apply Ha.
    exact ((fix all (l : list jsvalue) : Forall P l :=
              match l with
              | [] => Forall_nil P
              | x :: r => Forall_cons x (IH x) (all r)
              end) items).
  - apply Ho.
Qed.

Lemma ToString_stringifiable (v : jsvalue) :
  (exists s, ToString v = Some s) <-> stringifiable v = true.
Proof.
  induction v as [| |b|n|s|items IH|fields] using jsvalue_array_ind;
    try (simpl; split; [reflexivity | intros _; eexists; reflexivity]).
  - simpl. induction IH as [|x items Hx _ IHitems].
    + simpl. split; [reflexivity | intros _; eexists; reflexivity].
    + destruct (nullish x) eqn:Hnull; simpl.
      * rewrite <- IHitems. split.
        -- intros (s & Hs).
           destruct ((fix elements (l : list jsvalue) : option (list string) := _) items)
             as [ss|]; [eexists; reflexivity | discriminate].
        -- intros (s & Hs).
           destruct ((fix elements (l : list jsvalue) : option (list string) := _) items)
             as [ss|]; [eexists; reflexivity | discriminate].
      * rewrite andb_true_iff, <- IHitems, <- Hx. split.
        -- intros (s & Hs). destruct (ToString x) as [sx|]; [|discriminate].
           split; [eexists; reflexivity|].
           destruct ((fix elements (l : list jsvalue) : option (list string) := _) items)
             as [ss|]; [eexists; reflexivity | discriminate].
        -- intros [(sx & ->) (s & Hs)].
           destruct ((fix elements (l : list jsvalue) : option (list string) := _) items)
             as [ss|]; [eexists; reflexivity | discriminate].
  - simpl. destruct (hasOwnProperty fields "toString"); simpl; split;
      try discriminate; try reflexivity.
    + intros (s & Hs). discriminate.
    + intros _. eexists; reflexivity.
Qed.



(** The two parsers read the longest numeric prefix of a text, and
    [|| 0] turns NaN into 0. *)
Example formatValue_samples :
  formatValue (JString "12px") "asInt" = Some (JNumber (num 12))
  /\ formatValue (JString " -3.5e1x") "asFloat" = Some (JNumber (Finite (-35) 0))
  /\ formatValue (JString "0x1F") "asInt" = Some (JNumber (num 31))
  /\ formatValue (JString "px12") "asInt" = Some (JNumber (num 0))
  /\ formatValue (JBoolean true) "asFloat" = Some (JNumber (num 0))
  /\ formatValue JNull "asInt" = Some (JNumber (num 0))
  /\ formatValue (JObject []) "asString" = Some (JString "[object Object]")
  /\ formatValue (JArray [JNumber (num 4); JNull; JString "a"]) "asString"
     = Some (JString "4,,a")
  /\ formatValue (JNumber (Finite 25 (-1))) "asString" = Some (JString "2.5").
Proof. repeat split. Qed.


(* ================================================================== *)
(** ** Per-collection resolution *)
(* ================================================================== *)









Section HandlerFacts.

Variable fetchTokenMetadata : literal -> number -> string + MetadataResult.t.
Variable extractTraitValues : jsvalue -> string + (string -> option jsvalue).
Variable TypeError_message : string.



End HandlerFacts.


(* ================================================================== *)
(** * Further properties *)
(* ================================================================== *)

(* ================================================================== *)
(** ** The grouping of traits and token usages by collection *)
(* ================================================================== *)

Lemma name_eqb_refl (k : option string) : name_eqb k k = true.
Proof. now apply name_eqb_eq. Qed.

Lemma name_eqb_sym (a b : option string) : name_eqb a b = name_eqb b a.
Proof.
  destruct (name_eqb a b) eqn:E.
  - apply name_eqb_eq in E. subst. symmetry. apply name_eqb_refl.
  - destruct (name_eqb b a) eqn:E'; [|reflexivity].
    apply name_eqb_eq in E'. subst. now rewrite name_eqb_refl in E.
Qed.

Lemma existsb_name_In (k : option string) (l : list (option string)) :
  existsb (name_eqb k) l = true <-> In k l.
Proof.
  rewrite existsb_exists. split.
  - intros (x & Hin & Heq). apply name_eqb_eq in Heq. now subst.
  - intros Hin. exists k. split; [assumption | apply name_eqb_refl].
Qed.

Lemma Map_has_keys (m : list TraitData.t) (k : option string) :
  Map_has m k = existsb (name_eqb k) (Map_keys m).
Proof.
  unfold Map_has, Map_keys. induction m as [|d m IH]; simpl; [reflexivity|].
  now rewrite IH, name_eqb_sym.
Qed.

Lemma Map_keys_ensure (cs : list Collection.t) (m : list TraitData.t)
    (k : option string) :
  Map_keys (Map_ensure cs m k)
  = if existsb (name_eqb k) (Map_keys m) then Map_keys m
    else (Map_keys m ++ [k])%list.
Proof.
  unfold Map_ensure. rewrite Map_has_keys.
  destruct (existsb _ _); [reflexivity|].
  unfold Map_keys. now rewrite map_app.
Qed.

Lemma Map_keys_update (k : option string) (f : TraitData.t -> TraitData.t)
    (m : list TraitData.t) :
  (forall d, TraitData.collection (f d) = TraitData.collection d) ->
  Map_keys (Map_update k f m) = Map_keys m.
Proof.
  intros Hf. unfold Map_keys, Map_update. rewrite map_map.
  apply map_ext. intros d. destruct (name_eqb _ _); [apply Hf | reflexivity].
Qed.

Lemma In_Map_update (k : option string) (f : TraitData.t -> TraitData.t)
    (m : list TraitData.t) (d' : TraitData.t) :
  In d' (Map_update k f m) ->
  exists d, In d m
            /\ d' = if name_eqb (TraitData.collection d) k then f d else d.
Proof.
  unfold Map_update. rewrite in_map_iff. intros (d & Heq & Hin).
  exists d. split; [assumption | now symmetry].
Qed.

Lemma In_Map_ensure (cs : list Collection.t) (m : list TraitData.t)
    (k : option string) (d : TraitData.t) :
  In d (Map_ensure cs m k) ->
  In d m \/ (d = newTraitData cs k /\ ~ In k (Map_keys m)).
Proof.
  unfold Map_ensure. rewrite Map_has_keys.
  destruct (existsb _ _) eqn:E; [now left|].
  rewrite in_app_iff. simpl. intros [H|[H|[]]]; [now left|right].
  split; [now symmetry|]. intros Hin. apply existsb_name_In in Hin. congruence.
Qed.

(** *** First appearances *)

Lemma fold_firstSeen_In (l acc : list (option string)) (k : option string) :
  In k (fold_left
          (fun seen k => if existsb (name_eqb k) seen then seen
                         else (seen ++ [k])%list) l acc)
  <-> In k acc \/ In k l.
Proof.
  revert acc. induction l as [|x l IH]; intros acc; simpl; [tauto|].
  rewrite IH. destruct (existsb (name_eqb x) acc) eqn:E.
  - apply existsb_name_In in E. split; [tauto|].
    intros [H|[->|H]]; auto.
  - rewrite in_app_iff. simpl. tauto.
Qed.

Lemma fold_firstSeen_NoDup (l acc : list (option string)) :
  NoDup acc ->
  NoDup (fold_left
           (fun seen k => if existsb (name_eqb k) seen then seen
                          else (seen ++ [k])%list) l acc).
Proof.
  revert acc. induction l as [|x l IH]; intros acc Hacc; simpl; [assumption|].
  apply IH. destruct (existsb (name_eqb x) acc) eqn:E; [assumption|].
  apply NoDup_app; [assumption | repeat constructor; easy |].
  intros y Hy [<-|[]]. apply existsb_name_In in Hy. congruence.
Qed.

Lemma firstSeen_In (l : list (option string)) (k : option string) :
  In k (firstSeen l) <-> In k l.
Proof. unfold firstSeen. rewrite fold_firstSeen_In. simpl. tauto. Qed.

Lemma firstSeen_NoDup (l : list (option string)) : NoDup (firstSeen l).
Proof. apply fold_firstSeen_NoDup. constructor. Qed.

Lemma firstSeen_snoc (l : list (option string)) (k : option string) :
  firstSeen (l ++ [k])
  = if existsb (name_eqb k) (firstSeen l) then firstSeen l
    else (firstSeen l ++ [k])%list.
Proof. unfold firstSeen. now rewrite fold_left_app. Qed.

Lemma firstIds_snoc (l : list number) (id : number) :
  firstIds (l ++ [id]) = pushId (firstIds l) id.
Proof. unfold firstIds. now rewrite fold_left_app. Qed.

Lemma traitsOf_snoc (k : option string) (ts : list Trait.t) (t : Trait.t) :
  traitsOf k (ts ++ [t])
  = (traitsOf k ts ++ if name_eqb (Trait.collection t) k then [t] else [])%list.
Proof. unfold traitsOf. rewrite filter_app. simpl. now destruct (name_eqb _ _). Qed.

Lemma tokenIdsOf_snoc (k : option string) (tis : list TokenIndex.t)
    (ti : TokenIndex.t) :
  tokenIdsOf k (tis ++ [ti])
  = (tokenIdsOf k tis
     ++ if name_eqb (TokenIndex.collection ti) k then [TokenIndex.tokenId ti]
        else [])%list.
Proof.
  unfold tokenIdsOf. rewrite filter_app, map_app. simpl.
  now destruct (name_eqb _ _).
Qed.

Lemma traitsOf_absent (k : option string) (ts : list Trait.t) :
  ~ In k (map Trait.collection ts) -> traitsOf k ts = [].
Proof.
  unfold traitsOf. induction ts as [|t ts IH]; simpl; [reflexivity|].
  intros Hnot. destruct (name_eqb (Trait.collection t) k) eqn:E.
  - apply name_eqb_eq in E. tauto.
  - apply IH. tauto.
Qed.

Lemma tokenIdsOf_absent (k : option string) (tis : list TokenIndex.t) :
  ~ In k (map TokenIndex.collection tis) -> tokenIdsOf k tis = [].
Proof.
  unfold tokenIdsOf. induction tis as [|t tis IH]; simpl; [reflexivity|].
  intros Hnot. destruct (name_eqb (TokenIndex.collection t) k) eqn:E.
  - apply name_eqb_eq in E. tauto.
  - apply IH. tauto.
Qed.

(** *** The two loops keep the map grouped *)

Lemma grouped_nil (cs : list Collection.t) : grouped cs [] [] [].
Proof. split; [reflexivity | intros d []]. Qed.

Lemma grouped_trait (cs : list Collection.t) (ts : list Trait.t)
    (m : list TraitData.t) (t : Trait.t) :
  grouped cs ts [] m ->
  grouped cs (ts ++ [t]) []
    (Map_update (Trait.collection t) (push_trait t)
       (Map_ensure cs m (Trait.collection t))).
Proof.
  intros [Hkeys Hall]. split.
  - rewrite Map_keys_update by reflexivity.
    rewrite Map_keys_ensure, Hkeys. rewrite !app_nil_r, map_app. simpl.
    now rewrite firstSeen_snoc.
  - intros d' Hin. apply In_Map_update in Hin as (d & Hin & ->).
    assert (Hd : TraitData.traits d = traitsOf (TraitData.collection d) ts
                 /\ TraitData.tokenIndexes d
                    = firstIds (tokenIdsOf (TraitData.collection d) [])
                 /\ TraitData.address d = addressOf cs (TraitData.collection d)).
    { apply In_Map_ensure in Hin as [Hin|[-> Hnew]]; [now apply Hall|].
      simpl. repeat split. symmetry. apply traitsOf_absent.
      rewrite Hkeys, firstSeen_In, app_nil_r in Hnew. exact Hnew. }
    destruct Hd as (Htr & Hti & Had).
    destruct (name_eqb (TraitData.collection d) (Trait.collection t)) eqn:E;
      simpl; rewrite traitsOf_snoc, name_eqb_sym, E, ?app_nil_r, Htr; auto.
Qed.

Lemma grouped_tokenIndex (cs : list Collection.t) (ts : list Trait.t)
    (tis : list TokenIndex.t) (m : list TraitData.t) (ti : TokenIndex.t) :
  grouped cs ts tis m ->
  grouped cs ts (tis ++ [ti])
    (Map_update (TokenIndex.collection ti) (push_tokenId (TokenIndex.tokenId ti))
       (Map_ensure cs m (TokenIndex.collection ti))).
Proof.
  intros [Hkeys Hall]. split.
  - rewrite Map_keys_update by reflexivity.
    rewrite Map_keys_ensure, Hkeys. rewrite map_app, app_assoc. simpl.
    now rewrite firstSeen_snoc.
  - intros d' Hin. apply In_Map_update in Hin as (d & Hin & ->).
    assert (Hd : TraitData.traits d = traitsOf (TraitData.collection d) ts
                 /\ TraitData.tokenIndexes d
                    = firstIds (tokenIdsOf (TraitData.collection d) tis)
                 /\ TraitData.address d = addressOf cs (TraitData.collection d)).
    { apply In_Map_ensure in Hin as [Hin|[-> Hnew]]; [now apply Hall|].
      rewrite Hkeys, firstSeen_In, in_app_iff in Hnew. simpl.
      rewrite traitsOf_absent, tokenIdsOf_absent by tauto. now repeat split. }
    destruct Hd as (Htr & Hti & Had).
    destruct (name_eqb (TraitData.collection d) (TokenIndex.collection ti)) eqn:E;
      simpl; rewrite tokenIdsOf_snoc, name_eqb_sym, E, ?app_nil_r; auto.
    rewrite firstIds_snoc, <- Hti. auto.
Qed.

Lemma fold_grouped_traits (cs : list Collection.t) (l ts : list Trait.t)
    (m : list TraitData.t) :
  grouped cs ts [] m ->
  grouped cs (ts ++ l) []
    (fold_left
       (fun m trait =>
          Map_update (Trait.collection trait) (push_trait trait)
            (Map_ensure cs m (Trait.collection trait))) l m).
Proof.
  revert ts m. induction l as [|t l IH]; intros ts m H; simpl.
  - now rewrite app_nil_r.
  - replace (ts ++ t :: l)%list with ((ts ++ [t]) ++ l)%list
      by now rewrite <- app_assoc.
    apply IH, grouped_trait, H.
Qed.

Lemma fold_grouped_tokenIndexes (cs : list Collection.t) (ts : list Trait.t)
    (l tis : list TokenIndex.t) (m : list TraitData.t) :
  grouped cs ts tis m ->
  grouped cs ts (tis ++ l)
    (fold_left
       (fun m tokenIndex =>
          Map_update (TokenIndex.collection tokenIndex)
            (push_tokenId (TokenIndex.tokenId tokenIndex))
            (Map_ensure cs m (TokenIndex.collection tokenIndex))) l m).
Proof.
  revert tis m. induction l as [|t l IH]; intros tis m H; simpl.
  - now rewrite app_nil_r.
  - replace (tis ++ t :: l)%list with ((tis ++ [t]) ++ l)%list
      by now rewrite <- app_assoc.
    apply IH, grouped_tokenIndex, H.
Qed.

Lemma groupTraitsByCollection_grouped (this : NFTCodeAnalyzer.t) :
  grouped (NFTCodeAnalyzer.collections this) (NFTCodeAnalyzer.traits this)
    (NFTCodeAnalyzer.tokenIndexes this) (groupTraitsByCollection this).
Proof.
  unfold groupTraitsByCollection.
  apply (fold_grouped_tokenIndexes _ _ _ []).
  apply (fold_grouped_traits _ _ []). apply grouped_nil.
Qed.

(** *** SameValueZero is an equivalence, and [firstIds] keeps one number
    of each class *)

Lemma number_sameValueZero_sym (x y : number) :
  number_sameValueZero x y = number_sameValueZero y x.
Proof.
  destruct x, y; simpl; try reflexivity;
    apply (number_strict_eqb_sym (Finite _ _) (Finite _ _))
    || apply (number_strict_eqb_sym (Infinite _) (Infinite _)).
Qed.

Lemma number_sameValueZero_trans (x y z : number) :
  number_sameValueZero x y = true -> number_sameValueZero y z = true ->
  number_sameValueZero x z = true.
Proof.
  destruct x, y, z; simpl; try congruence;
    apply (number_strict_eqb_trans (Finite _ _) (Finite _ _) (Finite _ _))
    || apply (number_strict_eqb_trans (Infinite _) (Infinite _) (Infinite _)).
Qed.

Lemma existsb_sameValueZero_class (x y : number) (l : list number) :
  number_sameValueZero x y = true ->
  existsb (number_sameValueZero x) l = existsb (number_sameValueZero y) l.
Proof.
  intros Hxy. induction l as [|a l IH]; simpl; [reflexivity|]. rewrite IH.
  f_equal. destruct (number_sameValueZero y a) eqn:E.
  - eapply number_sameValueZero_trans; eassumption.
  - destruct (number_sameValueZero x a) eqn:E'; [|reflexivity].
    rewrite <- E. rewrite number_sameValueZero_sym in Hxy.
    symmetry. eapply number_sameValueZero_trans; eassumption.
Qed.

Lemma fold_pushId_existsb (l acc : list number) (id : number) :
  existsb (number_sameValueZero id) (fold_left pushId l acc)
  = existsb (number_sameValueZero id) acc
    || existsb (number_sameValueZero id) l.
Proof.
  revert acc. induction l as [|x l IH]; intros acc; simpl.
  - now rewrite orb_false_r.
  - rewrite IH. unfold pushId.
    destruct (existsb (number_sameValueZero x) acc) eqn:E.
    + destruct (number_sameValueZero id x) eqn:Eid; [|reflexivity].
      rewrite (existsb_sameValueZero_class id x acc Eid), E. reflexivity.
    + rewrite existsb_app. simpl. now rewrite orb_false_r, orb_assoc.
Qed.

Lemma distinctIds_snoc (acc : list number) (x : number) :
  distinctIds (acc ++ [x])
  = distinctIds acc && negb (existsb (number_sameValueZero x) acc).
Proof.
  induction acc as [|a acc IH]; simpl; [reflexivity|].
  rewrite IH, existsb_app. simpl.
  rewrite orb_false_r, (number_sameValueZero_sym x a).
  destruct (existsb (number_sameValueZero a) acc), (number_sameValueZero a x),
    (distinctIds acc), (existsb (number_sameValueZero x) acc); reflexivity.
Qed.

Lemma fold_pushId_distinct (l acc : list number) :
  distinctIds acc = true -> distinctIds (fold_left pushId l acc) = true.
Proof.
  revert acc. induction l as [|x l IH]; intros acc Hacc; simpl; [assumption|].
  apply IH. unfold pushId.
  destruct (existsb (number_sameValueZero x) acc) eqn:E; [assumption|].
  now rewrite distinctIds_snoc, Hacc, E.
Qed.

Lemma fold_pushId_head (l acc : list number) (a : number) :
  exists rest, fold_left pushId l (a :: acc) = a :: rest.
Proof.
  revert acc. induction l as [|x l IH]; intros acc; simpl; [now exists acc|].
  unfold pushId at 2. destruct (existsb _ (a :: acc)); simpl; apply IH.
Qed.

Lemma firstIds_head (l : list number) :
  match firstIds l with first :: _ => first | [] => num 1 end
  = match l with first :: _ => first | [] => num 1 end.
Proof.
  destruct l as [|a l]; [reflexivity|]. unfold firstIds. simpl.
  destruct (fold_pushId_head l [] a) as (rest & Hrest).
  unfold pushId at 2. simpl. now rewrite Hrest.
Qed.

(** *** What [analyze] returns is read from one instance *)

Lemma analyze_ends_in_currentResult (acorn_parse : string -> string + node)
    (code : string) (this : NFTCodeAnalyzer.t) :
  exists final,
    fst (analyze acorn_parse code this) = fst (currentResult final).
Proof.
  unfold analyze. rewrite bind_run. destruct (parseCode acorn_parse code).
  - rewrite bind_run. eexists. reflexivity.
  - rewrite analyzeAst_run. eexists. reflexivity.
Qed.

Lemma analyzeCode_grouped (acorn_parse : string -> string + node)
    (code : string) :
  grouped (AnalysisResult.collections (analyzeCode acorn_parse code))
    (AnalysisResult.traits (analyzeCode acorn_parse code))
    (AnalysisResult.tokenIndexes (analyzeCode acorn_parse code))
    (AnalysisResult.data (analyzeCode acorn_parse code)).
Proof.
  unfold analyzeCode.
  destruct (analyze_ends_in_currentResult acorn_parse code new_NFTCodeAnalyzer)
    as (final & ->).
  apply groupTraitsByCollection_grouped.
Qed.

Lemma grouped_entry_of_name (cs : list Collection.t) (ts : list Trait.t)
    (tis : list TokenIndex.t) (m : list TraitData.t) (k : option string) :
  grouped cs ts tis m ->
  In k (map Trait.collection ts ++ map TokenIndex.collection tis)%list ->
  exists d, In d m /\ TraitData.collection d = k
            /\ TraitData.traits d = traitsOf k ts
            /\ TraitData.tokenIndexes d = firstIds (tokenIdsOf k tis)
            /\ TraitData.address d = addressOf cs k.
Proof.
  intros [Hkeys Hall] Hin.
  assert (Hk : In k (Map_keys m)) by (rewrite Hkeys; now apply firstSeen_In).
  unfold Map_keys in Hk. apply in_map_iff in Hk as (d & Hd & Hind).
  exists d. destruct (Hall d Hind) as (Htr & Hti & Had).
  rewrite Hd in Htr, Hti, Had. auto.
Qed.

Lemma addressOf_undeclared (cs : list Collection.t) (k : option string) :
  declared cs k = false -> addressOf cs k = LNull.
Proof.
  unfold declared, addressOf. intros H.
  destruct (find _ cs) as [c|] eqn:E; [|reflexivity].
  apply find_some in E as [Hin Hname].
  assert (existsb (fun c => name_eqb (Collection.name c) k) cs = true)
    by (apply existsb_exists; eauto).
  congruence.
Qed.

(** X1 (groupTraitsByCollection, analyze): the entries of [data] are keyed
    by the collection names that the result's traits and token usages
    mention, traits first: one entry per name, in the order in which the
    names first appear, and no entry for a name that nothing mentions (a
    declared collection without trait or token usage has no entry). *)
Theorem data_keys_first_appearance (acorn_parse : string -> string + node)
    (code : string) :
  map TraitData.collection (AnalysisResult.data (analyzeCode acorn_parse code))
  = firstSeen
      (map Trait.collection (AnalysisResult.traits (analyzeCode acorn_parse code))
       ++ map TokenIndex.collection
            (AnalysisResult.tokenIndexes (analyzeCode acorn_parse code)))%list
  /\ NoDup (map TraitData.collection
              (AnalysisResult.data (analyzeCode acorn_parse code)))
  /\ forall k,
       In k (map TraitData.collection
               (AnalysisResult.data (analyzeCode acorn_parse code)))
       <-> In k (map Trait.collection
                   (AnalysisResult.traits (analyzeCode acorn_parse code)))
           \/ In k (map TokenIndex.collection
                      (AnalysisResult.tokenIndexes
                         (analyzeCode acorn_parse code))).
Proof.
  destruct (analyzeCode_grouped acorn_parse code) as [Hkeys _].
  unfold Map_keys in Hkeys. rewrite Hkeys.
  split; [reflexivity|]. split; [apply firstSeen_NoDup|].
  intros k. rewrite firstSeen_In. apply in_app_iff.
Qed.

(** X2 (groupTraitsByCollection): every entry of [data] holds exactly the
    result's traits of its collection, in their order; and every trait of
    the result is in the entry of its collection. *)
Theorem data_traits_per_collection (acorn_parse : string -> string + node)
    (code : string) :
  Forall
    (fun d =>
       TraitData.traits d
       = traitsOf (TraitData.collection d)
           (AnalysisResult.traits (analyzeCode acorn_parse code)))
    (AnalysisResult.data (analyzeCode acorn_parse code))
  /\ Forall
       (fun t =>
          Exists
            (fun d => TraitData.collection d = Trait.collection t
                      /\ In t (TraitData.traits d))
            (AnalysisResult.data (analyzeCode acorn_parse code)))
       (AnalysisResult.traits (analyzeCode acorn_parse code)).
Proof.
  destruct (analyzeCode_grouped acorn_parse code) as [Hkeys Hall].
  split; apply Forall_forall.
  - intros d Hin. now apply Hall.
  - intros t Hin. apply Exists_exists.
    destruct (grouped_entry_of_name _ _ _ _ (Trait.collection t)
                (conj Hkeys Hall))
      as (d & Hind & Hd & Htr & _).
    { apply in_app_iff. left. now apply in_map. }
    exists d. repeat split; [assumption.. |].
    rewrite Htr. apply filter_In. split; [assumption | apply name_eqb_refl].
Qed.

(** X3 (groupTraitsByCollection): the [tokenIndexes] of an entry are the
    token ids the result binds to its collection, each kept once (in the
    sense of [includes], which equates 1 and 1.0, and NaN with itself), in
    the order of their first appearance. *)
Theorem data_tokenIndexes_per_collection
    (acorn_parse : string -> string + node) (code : string) :
  Forall
    (fun d =>
       let bound :=
         tokenIdsOf (TraitData.collection d)
           (AnalysisResult.tokenIndexes (analyzeCode acorn_parse code)) in
       TraitData.tokenIndexes d = firstIds bound
       /\ distinctIds (TraitData.tokenIndexes d) = true
       /\ forall id,
            existsb (number_sameValueZero id) (TraitData.tokenIndexes d)
            = existsb (number_sameValueZero id) bound)
    (AnalysisResult.data (analyzeCode acorn_parse code)).
Proof.
  destruct (analyzeCode_grouped acorn_parse code) as [_ Hall].
  apply Forall_forall. intros d Hin. destruct (Hall d Hin) as (_ & Hti & _).
  cbv zeta. rewrite Hti. repeat split.
  - now apply fold_pushId_distinct.
  - intros id. unfold firstIds. now rewrite fold_pushId_existsb.
Qed.

(** X4 (groupTraitsByCollection, generateFormaCollectionCode): the token
    id the metadata handler resolves an entry with, [tokenIndexes[0]] or
    1, is the id of the first token usage the result binds to that
    collection, and 1 when there is none. *)
Theorem data_first_token_resolves (acorn_parse : string -> string + node)
    (code : string) :
  Forall
    (fun d =>
       chosenTokenId d
       = match tokenIdsOf (TraitData.collection d)
                 (AnalysisResult.tokenIndexes (analyzeCode acorn_parse code))
         with
         | first :: _ => first
         | [] => num 1
         end)
    (AnalysisResult.data (analyzeCode acorn_parse code)).
Proof.
  destruct (analyzeCode_grouped acorn_parse code) as [_ Hall].
  apply Forall_forall. intros d Hin. destruct (Hall d Hin) as (_ & Hti & _).
  unfold chosenTokenId. rewrite Hti. apply firstIds_head.
Qed.

(** X5 (groupTraitsByCollection): the address of an entry is the address
    of the first declared collection of that name when that address is
    truthy, and null otherwise (no such collection, a missing address, or
    a falsy literal such as the empty text or 0); it is never a falsy
    literal other than null. *)
Theorem data_address_first_declaration (acorn_parse : string -> string + node)
    (code : string) :
  Forall
    (fun d =>
       TraitData.address d
       = match find (fun c => name_eqb (Collection.name c) (TraitData.collection d))
                 (AnalysisResult.collections (analyzeCode acorn_parse code))
         with
         | Some c => if literal_truthy (Collection.address c)
                     then Collection.address c else LNull
         | None => LNull
         end
       /\ (TraitData.address d = LNull
           \/ literal_truthy (TraitData.address d) = true))
    (AnalysisResult.data (analyzeCode acorn_parse code)).
Proof.
  destruct (analyzeCode_grouped acorn_parse code) as [_ Hall].
  apply Forall_forall. intros d Hin. destruct (Hall d Hin) as (_ & _ & Had).
  rewrite Had. unfold addressOf. split; [reflexivity|].
  destruct (find _ _) as [c|]; [|now left].
  destruct (literal_truthy (Collection.address c)) eqn:E; auto.
Qed.

(* ================================================================== *)
(** ** The warnings of the analyzer *)
(* ================================================================== *)

Lemma extractCollections_fold (ast : node) (this : NFTCodeAnalyzer.t) :
  snd (extractCollections ast this)
  = fold_left collectionStep (postorder ast) this.
Proof. reflexivity. Qed.

(** A property of the instance kept by every step of a loop. *)
Lemma fold_left_invariant {S A : Type} (P : S -> Prop) (f : S -> A -> S) :
  (forall st x, P st -> P (f st x)) ->
  forall l st, P st -> P (fold_left f l st).
Proof.
  intros Hstep l. induction l as [|x l IH]; intros st H; simpl; auto.
Qed.


Lemma traitStep_issues_incl (this : NFTCodeAnalyzer.t) (n : node) :
  incl (NFTCodeAnalyzer.issues this) (NFTCodeAnalyzer.issues (traitStep this n)).
Proof.
  unfold traitStep. destruct (isCallExpression n); [|apply incl_refl].
  unfold extractTrait.
  destruct (isTraitTypeCall n); simpl; [|apply incl_refl].
  destruct (traitTypeOfName _); [|apply incl_refl].
  destruct (isMetadataCall _); simpl; [|apply incl_refl].
  destruct (callee_object n); [|apply incl_refl].
  method_simpl.
  destruct (is_null _); simpl; destruct (negb _); simpl;
    auto using incl_refl, incl_appl.
Qed.

(** The issues recorded by a pass stay recorded by the passes after it. *)
Lemma later_passes_keep (ast : node) (this : NFTCodeAnalyzer.t) :
  let after := snd (validateData
                      (snd (extractTokenUsages ast (snd (extractTraits ast this))))) in
  NFTCodeAnalyzer.collections after = NFTCodeAnalyzer.collections this
  /\ incl (NFTCodeAnalyzer.issues this) (NFTCodeAnalyzer.issues after).
Proof.
  cbv zeta.
  destruct (validateData_onlyAddsIssues
              (snd (extractTokenUsages ast (snd (extractTraits ast this)))))
    as (Hc & _ & _ & Hi).
  destruct (extractTokenUsages_frame ast (snd (extractTraits ast this)))
    as (Hc' & _).
  destruct (extractTraits_frame ast this) as (Hc'' & _).
  split; [congruence|].
  eapply incl_tran; [|exact Hi].
  apply incl_tran with (m := NFTCodeAnalyzer.issues (snd (extractTraits ast this))).
  - rewrite extractTraits_fold.
    apply (fold_left_invariant
             (fun st => incl (NFTCodeAnalyzer.issues this)
                             (NFTCodeAnalyzer.issues st)) traitStep).
    + intros st x H. eapply incl_tran; [exact H | apply traitStep_issues_incl].
    + apply incl_refl.
  - rewrite extractTokenUsages_fold.
    destruct (findSetupFunction ast); [|apply incl_refl].
    apply fold_tokenStep_issues_incl.
Qed.

(** *** Collections without address *)

Lemma collectionStep_missingAddress (this : NFTCodeAnalyzer.t) (n : node) :
  (forall c, In c (NFTCodeAnalyzer.collections this) ->
             Collection.address c = LNull ->
             In (missingAddressWarning c) (NFTCodeAnalyzer.issues this)) ->
  forall c, In c (NFTCodeAnalyzer.collections (collectionStep this n)) ->
            Collection.address c = LNull ->
            In (missingAddressWarning c)
               (NFTCodeAnalyzer.issues (collectionStep this n)).
Proof.
  intros H c. unfold collectionStep.
  destruct (isVariableDeclarator n); [|apply H].
  destruct (isFormaCollectionCall n); [|apply H].
  unfold createCollection. method_simpl.
  destruct (is_null _) eqn:Enull; simpl; rewrite !in_app_iff; simpl.
  - intros [Hin|[<-|[]]] Hc; [left; now apply H|right; left; reflexivity].
  - intros [Hin|[<-|[]]] Hc; [now apply H|].
    simpl in Hc. rewrite Hc in Enull. discriminate.
Qed.

Lemma analyzeAst_missingAddress (ast : node) (c : Collection.t) :
  In c (AnalysisResult.collections (fst (analyzeAst ast new_NFTCodeAnalyzer))) ->
  Collection.address c = LNull ->
  In (missingAddressWarning c)
     (AnalysisResult.issues (fst (analyzeAst ast new_NFTCodeAnalyzer))).
Proof.
  result_fields.
  destruct (later_passes_keep ast (snd (extractCollections ast new_NFTCodeAnalyzer)))
    as (Hc & Hi).
  cbv zeta in Hc, Hi. rewrite Hc. intros Hin Hnull. apply Hi.
  revert c Hin Hnull. rewrite extractCollections_fold.
  apply (fold_left_invariant
           (fun st => forall c, In c (NFTCodeAnalyzer.collections st) ->
                                Collection.address c = LNull ->
                                In (missingAddressWarning c)
                                   (NFTCodeAnalyzer.issues st)) collectionStep).
  - intros st x. apply collectionStep_missingAddress.
  - intros c [].
Qed.

(** *** Traits without key *)

Lemma traitStep_missingKey (this : NFTCodeAnalyzer.t) (n : node) :
  (forall t, In t (NFTCodeAnalyzer.traits this) ->
             Trait.key t = LNull ->
             In (missingKeyWarning t) (NFTCodeAnalyzer.issues this)) ->
  forall t, In t (NFTCodeAnalyzer.traits (traitStep this n)) ->
            Trait.key t = LNull ->
            In (missingKeyWarning t) (NFTCodeAnalyzer.issues (traitStep this n)).
Proof.
  intros H t. unfold traitStep. destruct (isCallExpression n); [|apply H].
  unfold extractTrait.
  destruct (isTraitTypeCall n); simpl; [|apply H].
  destruct (traitTypeOfName _); [|apply H].
  destruct (isMetadataCall _); simpl; [|apply H].
  destruct (callee_object n); [|apply H].
  method_simpl.
  destruct (is_null _) eqn:Enull; simpl; destruct (negb _); simpl;
    rewrite ?in_app_iff; simpl.
  - intros [Hin|[<-|[]]] Hk; [left; now apply H | right; left; reflexivity].
  - intros Hin Hk. left. now apply H.
  - intros [Hin|[<-|[]]] Hk; [now apply H|].
    simpl in Hk. rewrite Hk in Enull. discriminate.
  - apply H.
Qed.

Lemma analyzeAst_missingKey (ast : node) (t : Trait.t) :
  In t (AnalysisResult.traits (fst (analyzeAst ast new_NFTCodeAnalyzer))) ->
  Trait.key t = LNull ->
  In (missingKeyWarning t)
     (AnalysisResult.issues (fst (analyzeAst ast new_NFTCodeAnalyzer))).
Proof.
  result_fields.
  destruct (validateData_onlyAddsIssues
              (snd (extractTokenUsages ast
                      (snd (extractTraits ast
                              (snd (extractCollections ast new_NFTCodeAnalyzer)))))))
    as (_ & -> & _ & Hi).
  destruct (extractTokenUsages_frame ast
              (snd (extractTraits ast
                      (snd (extractCollections ast new_NFTCodeAnalyzer)))))
    as (_ & ->).
  intros Hin Hnull. apply Hi.
  assert (Hi' : incl (NFTCodeAnalyzer.issues
                        (snd (extractTraits ast
                                (snd (extractCollections ast new_NFTCodeAnalyzer)))))
                     (NFTCodeAnalyzer.issues
                        (snd (extractTokenUsages ast
                                (snd (extractTraits ast
                                        (snd (extractCollections ast
                                                new_NFTCodeAnalyzer)))))))).
  { rewrite extractTokenUsages_fold.
    destruct (findSetupFunction ast); [|apply incl_refl].
    apply fold_tokenStep_issues_incl. }
  apply Hi'. revert t Hin Hnull. rewrite extractTraits_fold.
  apply (fold_left_invariant
           (fun st => forall t, In t (NFTCodeAnalyzer.traits st) ->
                                Trait.key t = LNull ->
                                In (missingKeyWarning t)
                                   (NFTCodeAnalyzer.issues st)) traitStep).
  - intros st x. apply traitStep_missingKey.
  - destruct (extractCollections_others ast new_NFTCodeAnalyzer) as (-> & _).
    intros t [].
Qed.

(** *** References to collections that are not declared *)

Lemma forEach_records {A : Type} (f : A -> Method unit) (w : AnalysisIssue.t)
    (x : A) (cs : list Collection.t) :
  (forall y, onlyAddsIssues (f y)) ->
  (forall st, NFTCodeAnalyzer.collections st = cs ->
              In w (NFTCodeAnalyzer.issues (snd (f x st)))) ->
  forall l st, In x l -> NFTCodeAnalyzer.collections st = cs ->
               In w (NFTCodeAnalyzer.issues (snd (forEach f l st))).
Proof.
  intros Hf Hx l. induction l as [|y l IH]; intros st Hin Hcs; [easy|].
  simpl. rewrite bind_run. destruct Hin as [->|Hin].
  - apply (onlyAddsIssues_forEach f l Hf). now apply Hx.
  - apply IH; [assumption|]. destruct (Hf y st) as (-> & _). exact Hcs.
Qed.

Lemma validation_step_onlyAddsIssues (k : option string) (w : AnalysisIssue.t) :
  onlyAddsIssues
    (bind (collectionExists k) (fun known => when (negb known) (addIssue w))).
Proof.
  apply onlyAddsIssues_bind; [apply onlyAddsIssues_collectionExists|].
  intros known. apply onlyAddsIssues_when, onlyAddsIssues_addIssue.
Qed.

Lemma validateData_undeclaredTrait (this : NFTCodeAnalyzer.t) (t : Trait.t) :
  In t (NFTCodeAnalyzer.traits this) ->
  declared (NFTCodeAnalyzer.collections this) (Trait.collection t) = false ->
  In (undeclaredTraitWarning t) (NFTCodeAnalyzer.issues (snd (validateData this))).
Proof.
  intros Hin Hundeclared. unfold validateData. rewrite bind_run.
  match goal with
  | |- In _ (NFTCodeAnalyzer.issues (snd (forEach ?f ?l ?st))) =>
      apply (onlyAddsIssues_forEach f l)
  end.
  { intros x. apply validation_step_onlyAddsIssues. }
  apply (forEach_records _ _ t (NFTCodeAnalyzer.collections this)); auto.
  - intros x. apply validation_step_onlyAddsIssues.
  - intros st Hcs. method_simpl. unfold declared in Hundeclared.
    rewrite Hcs, Hundeclared. simpl. apply in_app_iff. right. now left.
Qed.

Lemma validateData_undeclaredToken (this : NFTCodeAnalyzer.t) (t : TokenIndex.t) :
  In t (NFTCodeAnalyzer.tokenIndexes this) ->
  declared (NFTCodeAnalyzer.collections this) (TokenIndex.collection t) = false ->
  In (undeclaredTokenWarning t) (NFTCodeAnalyzer.issues (snd (validateData this))).
Proof.
  intros Hin Hundeclared. unfold validateData. rewrite bind_run.
  match goal with
  | |- In _ (NFTCodeAnalyzer.issues
               (snd (forEach ?f (NFTCodeAnalyzer.tokenIndexes (snd (?m this)))
                       (snd (?m this))))) =>
      assert (Hm : onlyAddsIssues m)
  end.
  { apply (onlyAddsIssues_reading (fun this0 => forEach _ _)). intros this0.
    apply onlyAddsIssues_forEach. intros x. apply validation_step_onlyAddsIssues. }
  destruct (Hm this) as (Hc & _ & Hti & _).
  apply (forEach_records _ _ t (NFTCodeAnalyzer.collections this)).
  - intros x. apply validation_step_onlyAddsIssues.
  - intros st Hcs. method_simpl. unfold declared in Hundeclared.
    rewrite Hcs, Hundeclared. simpl. apply in_app_iff. right. now left.
  - rewrite Hti. exact Hin.
  - exact Hc.
Qed.

(** *** Severities *)








(** *** The two outcomes of [analyzeCode] *)

Lemma analyzeCode_cases (acorn_parse : string -> string + node) (code : string) :
  (exists ast, acorn_parse code = inr ast
               /\ analyzeCode acorn_parse code
                  = fst (analyzeAst ast new_NFTCodeAnalyzer))
  \/ (exists msg, acorn_parse code = inl msg
                  /\ AnalysisResult.collections (analyzeCode acorn_parse code) = []
                  /\ AnalysisResult.traits (analyzeCode acorn_parse code) = []
                  /\ AnalysisResult.tokenIndexes (analyzeCode acorn_parse code) = []
                  /\ AnalysisResult.issues (analyzeCode acorn_parse code)
                     = [ {| AnalysisIssue.type := error;
                            AnalysisIssue.message :=
                              "Analysis failed: Failed to parse code: " ++ msg;
                            AnalysisIssue.location := None |} ]).
Proof.
  unfold analyzeCode, analyze, parseCode.
  destruct (acorn_parse code) as [msg|ast].
  - right. exists msg. repeat split.
  - left. exists ast. split; reflexivity.
Qed.

Lemma analyzeAst_fields (ast : node) (this : NFTCodeAnalyzer.t) :
  let final := snd (validateData
                      (snd (extractTokenUsages ast
                              (snd (extractTraits ast
                                      (snd (extractCollections ast this))))))) in
  let before := snd (extractTokenUsages ast
                       (snd (extractTraits ast
                               (snd (extractCollections ast this))))) in
  AnalysisResult.collections (fst (analyzeAst ast this))
  = NFTCodeAnalyzer.collections before
  /\ AnalysisResult.traits (fst (analyzeAst ast this))
     = NFTCodeAnalyzer.traits before
  /\ AnalysisResult.tokenIndexes (fst (analyzeAst ast this))
     = NFTCodeAnalyzer.tokenIndexes before
  /\ AnalysisResult.issues (fst (analyzeAst ast this))
     = NFTCodeAnalyzer.issues (snd (validateData before)).
Proof.
  cbv zeta. result_fields.
  destruct (validateData_onlyAddsIssues
              (snd (extractTokenUsages ast
                      (snd (extractTraits ast
                              (snd (extractCollections ast this)))))))
    as (-> & -> & -> & _).
  auto.
Qed.

(** X6 (validateData, groupTraitsByCollection): a trait of the result
    whose collection is not declared is reported by a warning that carries
    its location, and it is kept: [data] has an entry for its collection,
    with a null address, that holds it. *)
Theorem undeclared_trait_warned_and_kept
    (acorn_parse : string -> string + node) (code : string) (t : Trait.t) :
  In t (AnalysisResult.traits (analyzeCode acorn_parse code)) ->
  declared (AnalysisResult.collections (analyzeCode acorn_parse code))
    (Trait.collection t) = false ->
  In (undeclaredTraitWarning t)
     (AnalysisResult.issues (analyzeCode acorn_parse code))
  /\ exists d,
       In d (AnalysisResult.data (analyzeCode acorn_parse code))
       /\ TraitData.collection d = Trait.collection t
       /\ TraitData.address d = LNull
       /\ In t (TraitData.traits d).
Proof.
  intros Hin Hundeclared. split.
  - destruct (analyzeCode_cases acorn_parse code)
      as [(ast & _ & Heq)|(msg & _ & _ & Htr & _)].
    + rewrite Heq in *.
      destruct (analyzeAst_fields ast new_NFTCodeAnalyzer) as (Hc & Ht & _ & Hi).
      cbv zeta in Hc, Ht, Hi. rewrite Hi. rewrite Hc in Hundeclared.
      rewrite Ht in Hin. now apply validateData_undeclaredTrait.
    + rewrite Htr in Hin. destruct Hin.
  - destruct (grouped_entry_of_name _ _ _ _ (Trait.collection t)
                (analyzeCode_grouped acorn_parse code))
      as (d & Hind & Hd & Htr & _ & Had).
    { apply in_app_iff. left. now apply in_map. }
    exists d. repeat split; try assumption.
    + rewrite Had. now apply addressOf_undeclared.
    + rewrite Htr. apply filter_In. split; [assumption | apply name_eqb_refl].
Qed.

Lemma undeclared_trait_warned_and_kept_witness :
  In (undeclaredTraitWarning keyless_B_trait)
     (AnalysisResult.issues (analyzeCode (parsesTo sketch_undeclared) "sketch"))
  /\ exists d,
       In d (AnalysisResult.data (analyzeCode (parsesTo sketch_undeclared) "sketch"))
       /\ TraitData.collection d = Trait.collection keyless_B_trait
       /\ TraitData.address d = LNull
       /\ In keyless_B_trait (TraitData.traits d).
Proof.
  apply (undeclared_trait_warned_and_kept (parsesTo sketch_undeclared) "sketch"
           keyless_B_trait).
  - vm_compute. auto.
  - reflexivity.
Defined.

(** X7 (validateData, groupTraitsByCollection): a token usage of the
    result whose collection is not declared is reported by a warning
    (without location), and it is kept: [data] has an entry for its
    collection, with a null address, whose [tokenIndexes] include its
    id. *)
Theorem undeclared_token_warned_and_kept
    (acorn_parse : string -> string + node) (code : string) (t : TokenIndex.t) :
  In t (AnalysisResult.tokenIndexes (analyzeCode acorn_parse code)) ->
  declared (AnalysisResult.collections (analyzeCode acorn_parse code))
    (TokenIndex.collection t) = false ->
  In (undeclaredTokenWarning t)
     (AnalysisResult.issues (analyzeCode acorn_parse code))
  /\ exists d,
       In d (AnalysisResult.data (analyzeCode acorn_parse code))
       /\ TraitData.collection d = TokenIndex.collection t
       /\ TraitData.address d = LNull
       /\ existsb (number_sameValueZero (TokenIndex.tokenId t))
            (TraitData.tokenIndexes d) = true.
Proof.
  intros Hin Hundeclared. split.
  - destruct (analyzeCode_cases acorn_parse code)
      as [(ast & _ & Heq)|(msg & _ & _ & _ & Hti & _)].
    + rewrite Heq in *.
      destruct (analyzeAst_fields ast new_NFTCodeAnalyzer) as (Hc & _ & Ht & Hi).
      cbv zeta in Hc, Ht, Hi. rewrite Hi. rewrite Hc in Hundeclared.
      rewrite Ht in Hin. now apply validateData_undeclaredToken.
    + rewrite Hti in Hin. destruct Hin.
  - destruct (grouped_entry_of_name _ _ _ _ (TokenIndex.collection t)
                (analyzeCode_grouped acorn_parse code))
      as (d & Hind & Hd & _ & Hti & Had).
    { apply in_app_iff. right. now apply in_map. }
    exists d. repeat split; try assumption.
    + rewrite Had. now apply addressOf_undeclared.
    + rewrite Hti. unfold firstIds. rewrite fold_pushId_existsb. simpl.
      apply existsb_exists. exists (TokenIndex.tokenId t). split.
      * unfold tokenIdsOf. apply in_map, filter_In.
        split; [assumption | apply name_eqb_refl].
      * destruct (TokenIndex.tokenId t); try reflexivity.
        apply number_strict_eqb_refl_finite.
        simpl. now destruct negative.
Qed.

Lemma undeclared_token_warned_and_kept_witness :
  In (undeclaredTokenWarning B_token_7)
     (AnalysisResult.issues (analyzeCode (parsesTo sketch_undeclared) "sketch"))
  /\ exists d,
       In d (AnalysisResult.data (analyzeCode (parsesTo sketch_undeclared) "sketch"))
       /\ TraitData.collection d = TokenIndex.collection B_token_7
       /\ TraitData.address d = LNull
       /\ existsb (number_sameValueZero (TokenIndex.tokenId B_token_7))
            (TraitData.tokenIndexes d) = true.
Proof.
  apply (undeclared_token_warned_and_kept (parsesTo sketch_undeclared) "sketch"
           B_token_7).
  - vm_compute. auto.
  - reflexivity.
Defined.

(** X8 (createCollection, _filterValidCollections): a collection of the
    result whose address is null (no first argument, or one that is not a
    literal, or the literal null) is reported by a warning that carries
    its name and location; it stays in [collections], and the generator's
    filter for address-dependent fragments drops it. *)
Theorem missing_address_warned (acorn_parse : string -> string + node)
    (code : string) (c : Collection.t) :
  In c (AnalysisResult.collections (analyzeCode acorn_parse code)) ->
  Collection.address c = LNull ->
  In (missingAddressWarning c)
     (AnalysisResult.issues (analyzeCode acorn_parse code))
  /\ ~ In c (_filterValidCollections
               (AnalysisResult.collections (analyzeCode acorn_parse code))).
Proof.
  intros Hin Hnull. split.
  - destruct (analyzeCode_cases acorn_parse code)
      as [(ast & _ & Heq)|(msg & _ & Hc & _)].
    + rewrite Heq in *. now apply analyzeAst_missingAddress.
    + rewrite Hc in Hin. destruct Hin.
  - unfold _filterValidCollections. rewrite filter_In, Hnull. simpl.
    intros [_ H]. discriminate.
Qed.

Lemma missing_address_warned_witness :
  In (missingAddressWarning unaddressed_C)
     (AnalysisResult.issues (analyzeCode (parsesTo sketch_undeclared) "sketch"))
  /\ ~ In unaddressed_C
         (_filterValidCollections
            (AnalysisResult.collections
               (analyzeCode (parsesTo sketch_undeclared) "sketch"))).
Proof.
  apply (missing_address_warned (parsesTo sketch_undeclared) "sketch"
           unaddressed_C).
  - vm_compute. auto.
  - reflexivity.
Defined.

(** X9 (extractTrait): a trait of the result whose key is null (no
    argument to [metadata], or one that is not a literal, or the literal
    null) is reported by a warning that carries its collection name and
    location; the trait is recorded all the same. *)
Theorem missing_key_warned (acorn_parse : string -> string + node)
    (code : string) (t : Trait.t) :
  In t (AnalysisResult.traits (analyzeCode acorn_parse code)) ->
  Trait.key t = LNull ->
  In (missingKeyWarning t)
     (AnalysisResult.issues (analyzeCode acorn_parse code)).
Proof.
  intros Hin Hnull.
  destruct (analyzeCode_cases acorn_parse code)
    as [(ast & _ & Heq)|(msg & _ & _ & Htr & _)].
  - rewrite Heq in *. now apply analyzeAst_missingKey.
  - rewrite Htr in Hin. destruct Hin.
Qed.

Lemma missing_key_warned_witness :
  In (missingKeyWarning keyless_B_trait)
     (AnalysisResult.issues (analyzeCode (parsesTo sketch_undeclared) "sketch")).
Proof.
  apply (missing_key_warned (parsesTo sketch_undeclared) "sketch"
           keyless_B_trait).
  - vm_compute. auto.
  - reflexivity.
Defined.


(* ================================================================== *)
(** ** When the assembly throws *)
(* ================================================================== *)

Lemma mapM_None {A B : Type} (f : A -> option B) (l : list A) :
  mapM f l = None <-> exists x, In x l /\ f x = None.
Proof.
  induction l as [|x l IH]; simpl.
  - split; [discriminate | intros (x & [] & _)].
  - destruct (f x) as [y|] eqn:Hx.
    + destruct (mapM f l) as [ys|].
      * split; [discriminate|]. intros (z & [<-|Hz] & Hnone); [congruence|].
        assert (Hcontra : Some ys = None) by (apply IH; eauto).
        discriminate.
      * split; [|reflexivity]. intros _.
        destruct (proj1 IH eq_refl) as (z & Hz & Hnone). eauto.
    + split; [|reflexivity]. intros _. eauto.
Qed.

Lemma option_map_None {A B : Type} (g : A -> B) (o : option A) :
  option_map g o = None <-> o = None.
Proof. destruct o; simpl; split; congruence. Qed.

Lemma _formatName_None (name : option string) :
  _formatName name = None <-> name = None.
Proof. destruct name; simpl; split; congruence. Qed.

Lemma generateTokenIdMapping_None (collections : list Collection.t) :
  generateTokenIdMapping collections = None
  <-> exists c, In c (_filterValidCollections collections)
                /\ Collection.name c = None.
Proof.
  unfold generateTokenIdMapping. rewrite option_map_None, mapM_None.
  split; intros (c & Hin & H); exists c; (split; [assumption|]).
  - destruct (Collection.name c); [discriminate | reflexivity].
  - now rewrite H.
Qed.

Lemma generateOwnershipChecks_None (collections : list Collection.t) :
  generateOwnershipChecks collections = None
  <-> exists c, In c (_filterValidCollections collections)
                /\ Collection.name c = None.
Proof.
  unfold generateOwnershipChecks. rewrite option_map_None, mapM_None.
  split; intros (c & Hin & H); exists c; (split; [assumption|]).
  - destruct (Collection.name c); [discriminate | reflexivity].
  - now rewrite H.
Qed.

Lemma generateMetadataExtraction_None (collections : list Collection.t) :
  generateMetadataExtraction collections = None
  <-> exists c, In c (_filterValidCollections collections)
                /\ Collection.name c = None.
Proof.
  unfold generateMetadataExtraction. rewrite option_map_None, mapM_None.
  split; intros (c & Hin & H); exists c; (split; [assumption|]).
  - destruct (Collection.name c); [discriminate | reflexivity].
  - now rewrite H.
Qed.

Lemma generateSolidityJsField_None (collections : list Collection.t) :
  generateSolidityJsField collections = None
  <-> exists c, In c collections /\ Collection.name c = None.
Proof.
  unfold generateSolidityJsField, jsFieldStatement.
  rewrite option_map_None, mapM_None.
  split; intros (c & Hin & H); exists c; (split; [assumption|]).
  - destruct (Collection.name c); [discriminate | reflexivity].
  - now rewrite H.
Qed.

Lemma generateFullMetadataSettings_None (traitData : list TraitData.t) :
  generateFullMetadataSettings traitData = None
  <-> exists d, In d traitData /\ TraitData.collection d = None.
Proof.
  unfold generateFullMetadataSettings.
  match goal with
  | |- context [mapM ?f traitData] =>
      pose proof (mapM_None f traitData) as Hiff;
      destruct (mapM f traitData) as [parts|]
  end.
  - split; [discriminate|]. intros (d & Hin & H).
    assert (Hcontra : Some parts = None).
    { apply Hiff. exists d. split; [assumption|]. now rewrite H. }
    discriminate.
  - split; [|reflexivity]. intros _.
    destruct (proj1 Hiff eq_refl) as (d & Hin & H). exists d.
    split; [assumption|]. destruct (TraitData.collection d); [discriminate|reflexivity].
Qed.

Lemma assemble_None (analysis : AnalysisResult.t) (p5slot : list string)
    (templateSolidity : string) :
  assemble analysis p5slot templateSolidity = None
  <-> (exists c, In c (AnalysisResult.collections analysis)
                 /\ Collection.name c = None)
      \/ (exists d, In d (AnalysisResult.data analysis)
                    /\ TraitData.collection d = None).
Proof.
  assert (Hvalid : forall c,
             In c (_filterValidCollections (AnalysisResult.collections analysis)) ->
             In c (AnalysisResult.collections analysis)).
  { intros c Hc. unfold _filterValidCollections in Hc.
    now apply filter_In in Hc. }
  unfold assemble.
  destruct (generateTokenIdMapping _) eqn:E1.
  2:{ apply generateTokenIdMapping_None in E1 as (c & Hc & Hn).
      split; [|reflexivity]. intros _. left. eauto. }
  destruct (generateOwnershipChecks _) eqn:E2.
  2:{ apply generateOwnershipChecks_None in E2 as (c & Hc & Hn).
      split; [|reflexivity]. intros _. left. eauto. }
  destruct (generateMetadataExtraction _) eqn:E3.
  2:{ apply generateMetadataExtraction_None in E3 as (c & Hc & Hn).
      split; [|reflexivity]. intros _. left. eauto. }
  destruct (generateSolidityJsField _) eqn:E4.
  2:{ apply generateSolidityJsField_None in E4 as (c & Hc & Hn).
      split; [|reflexivity]. intros _. left. eauto. }
  destruct (generateFullMetadataSettings _) eqn:E5.
  2:{ apply generateFullMetadataSettings_None in E5 as (d & Hd & Hn).
      split; [|reflexivity]. intros _. right. eauto. }
  split; [discriminate|].
  intros [H|H].
  - apply generateSolidityJsField_None in H. congruence.
  - apply generateFullMetadataSettings_None in H. congruence.
Qed.

(** X11 (generateSolidityContract, _formatName,
    generateFullMetadataSettings): the assembly throws a TypeError exactly
    when a name of the analysis is undefined: a collection declared
    through a pattern instead of an identifier, or a trait or token usage
    read from an object that is not an identifier.  In every other case it
    returns a text, whatever the template and the chunks are. *)
Theorem assembly_throws_iff_undefined_name
    (acorn_parse : string -> string + node) (process : string -> string)
    (compress : string -> nat -> list string) (code templateSolidity : string) :
  generateSolidityContract acorn_parse process compress code templateSolidity
  = None
  <-> In None (map Collection.name
                 (AnalysisResult.collections (analyzeCode acorn_parse code)))
      \/ In None (map Trait.collection
                    (AnalysisResult.traits (analyzeCode acorn_parse code)))
      \/ In None (map TokenIndex.collection
                    (AnalysisResult.tokenIndexes (analyzeCode acorn_parse code))).
Proof.
  unfold generateSolidityContract. rewrite assemble_None.
  destruct (analyzeCode_grouped acorn_parse code) as [Hkeys _].
  assert (Hdata : (exists d, In d (AnalysisResult.data (analyzeCode acorn_parse code))
                             /\ TraitData.collection d = None)
                  <-> In None (Map_keys (AnalysisResult.data
                                           (analyzeCode acorn_parse code)))).
  { unfold Map_keys. rewrite in_map_iff.
    split; intros (d & H1 & H2); exists d; auto. }
  rewrite Hdata, Hkeys, firstSeen_In, in_app_iff.
  assert (Hname : (exists c, In c (AnalysisResult.collections
                                     (analyzeCode acorn_parse code))
                             /\ Collection.name c = None)
                  <-> In None (map Collection.name
                                 (AnalysisResult.collections
                                    (analyzeCode acorn_parse code)))).
  { rewrite in_map_iff. split; intros (c & H1 & H2); exists c; auto. }
  rewrite Hname. reflexivity.
Qed.

(* ================================================================== *)
(** ** The shape of a formatted name *)
(* ================================================================== *)

Lemma forallChars_impl (p p' : ascii -> bool) (s : string) :
  (forall c, p c = true -> p' c = true) ->
  forallChars p s = true -> forallChars p' s = true.
Proof.
  intros Himpl. induction s as [|c s IH]; simpl; [reflexivity|].
  rewrite !andb_true_iff. intros [Hc Hs]. auto.
Qed.

Lemma forallChars_app (p : ascii -> bool) (a b : string) :
  forallChars p (a ++ b) = forallChars p a && forallChars p b.
Proof.
  induction a as [|c a IH]; simpl; [reflexivity|].
  now rewrite IH, andb_assoc.
Qed.

(** A fact about every character, checked on each of them. *)
Ltac each_char c :=
  destruct c as [[] [] [] [] [] [] [] []]; vm_compute; try reflexivity;
  try discriminate; auto.














(* ================================================================== *)
(** ** Lists with a separator *)
(* ================================================================== *)

Lemma mapi_from_ext {A B : Type} (f g : A -> nat -> B) (l : list A) (i : nat) :
  (forall x j, In x l -> f x j = g x j) -> mapi_from i f l = mapi_from i g l.
Proof.
  revert i. induction l as [|x l IH]; intros i H; simpl; [reflexivity|].
  rewrite (H x i) by now left. f_equal. apply IH. intros y j Hy. apply H. now right.
Qed.

(** Appending [", "] to every element but the last and concatenating is
    joining with [", "]. *)
Lemma concat_unless_last {A : Type} (g : A -> nat -> string) (total : nat)
    (l : list A) (i : nat) :
  (i + List.length l = total)%nat ->
  String.concat EmptyString
    (mapi_from i
       (fun x j => g x j ++ (if (j =? total - 1)%nat then EmptyString else ", "))
       l)
  = join ", " (mapi_from i g l).
Proof.
  revert i. induction l as [|x l IH]; intros i Hlen; [reflexivity|].
  destruct l as [|y l].
  - simpl in Hlen. assert (Hi : (i =? total - 1)%nat = true)
      by (apply Nat.eqb_eq; lia).
    simpl. rewrite Hi. apply string_app_nil_r.
  - assert (Hi : (i =? total - 1)%nat = false)
      by (apply Nat.eqb_neq; simpl in Hlen; lia).
    assert (Hrec : (S i + List.length (y :: l) = total)%nat)
      by (simpl in Hlen |- *; lia).
    specialize (IH (S i) Hrec).
    change (mapi_from i ?f (x :: y :: l))
      with (f x i :: mapi_from (S i) f (y :: l)).
    cbv beta. rewrite Hi.
    change (String.concat EmptyString (?a :: mapi_from (S i) ?f (y :: l)))
      with (a ++ EmptyString ++ String.concat EmptyString (mapi_from (S i) f (y :: l))).
    rewrite IH.
    change (join ", " (?a :: mapi_from (S i) ?f (y :: l)))
      with (a ++ ", " ++ join ", " (mapi_from (S i) f (y :: l))).
    now rewrite !string_app_assoc.
Qed.

(** X13 (generateP5Ls): the chunk list is the names [CHUNK_0],
    [CHUNK_1], ... of the chunks joined by a comma and a space, without a
    separator after the last one; it is empty when there is no chunk. *)
Theorem generateP5Ls_joined (chunks : list string) :
  generateP5Ls chunks
  = join ", " (mapi (fun _ index => "CHUNK_" ++ string_of_nat index) chunks).
Proof.
  unfold generateP5Ls, mapi.
  rewrite <- (concat_unless_last (fun (_ : string) index =>
                                    "CHUNK_" ++ string_of_nat index)
                (List.length chunks) chunks 0 eq_refl).
  reflexivity.
Qed.

Lemma mapM_length {A B : Type} (f : A -> option B) (l : list A) (ys : list B) :
  mapM f l = Some ys -> List.length ys = List.length l.
Proof.
  revert ys. induction l as [|x l IH]; intros ys; simpl.
  - intros [= <-]. reflexivity.
  - destruct (f x); [|discriminate]. destruct (mapM f l); [|discriminate].
    intros [= <-]. simpl. f_equal. now apply IH.
Qed.

Lemma mapM_mapi_option {A : Type} (H : A -> option string) (s : nat -> string)
    (l : list A) (i : nat) :
  mapM (fun x => x)
    (mapi_from i (fun a j => option_map (fun y => y ++ s j) (H a)) l)
  = option_map (mapi_from i (fun y j => y ++ s j)) (mapM H l).
Proof.
  revert i. induction l as [|a l IH]; intros i; simpl; [reflexivity|].
  rewrite IH. destruct (H a); simpl; [|reflexivity].
  now destruct (mapM H l).
Qed.

Lemma mapi_from_const {A B : Type} (g : A -> B) (l : list A) (i : nat) :
  mapi_from i (fun x _ => g x) l = map g l.
Proof. revert i. induction l as [|x l IH]; intros i; simpl; [|rewrite IH]; auto. Qed.

(** X14 (generateFunctionParameters): the parameter list is the
    parameters of the addressed collections joined by a comma and a
    space, without a separator after the last one; the call throws
    exactly when an addressed collection has an undefined name. *)
Theorem generateFunctionParameters_joined (collections : list Collection.t) :
  generateFunctionParameters collections
  = option_map (join ", ")
      (mapM (fun collection =>
               option_map
                 (fun formatted =>
                    replace "%TOKEN_ID%" ("tokenId_" ++ formatted)
                      templates.functionParameter)
                 (_formatName (Collection.name collection)))
            (_filterValidCollections collections))
  /\ (generateFunctionParameters collections = None
      <-> exists c, In c (_filterValidCollections collections)
                    /\ Collection.name c = None).
Proof.
  assert (Heq : generateFunctionParameters collections
                = option_map (join ", ")
                    (mapM (fun collection =>
                             option_map
                               (fun formatted =>
                                  replace "%TOKEN_ID%" ("tokenId_" ++ formatted)
                                    templates.functionParameter)
                               (_formatName (Collection.name collection)))
                          (_filterValidCollections collections))).
  { unfold generateFunctionParameters, mapi.
    set (valid := _filterValidCollections collections).
    set (H := fun collection : Collection.t =>
                option_map
                  (fun formatted =>
                     replace "%TOKEN_ID%" ("tokenId_" ++ formatted)
                       templates.functionParameter)
                  (_formatName (Collection.name collection))).
    set (s := fun j : nat =>
                if (j =? List.length valid - 1)%nat then EmptyString else ", ").
    rewrite (mapi_from_ext _
               (fun a j => option_map (fun y => y ++ s j) (H a)) valid 0).
    2:{ intros x j _. unfold H. now destruct (_formatName (Collection.name x)). }
    rewrite mapM_mapi_option.
    destruct (mapM H valid) as [ys|] eqn:Hys; [|reflexivity]. simpl. f_equal.
    unfold s.
    rewrite (concat_unless_last (fun (y : string) (_ : nat) => y)
               (List.length valid) ys 0).
    - now rewrite mapi_from_const, map_id.
    - simpl. now apply mapM_length in Hys. }
  split; [exact Heq|].
  rewrite Heq, option_map_None, mapM_None.
  split; intros (c & Hin & Hn); exists c; (split; [assumption|]).
  - apply option_map_None in Hn. now apply _formatName_None.
  - now rewrite Hn.
Qed.

(* ================================================================== *)
(** ** The constants the generator declares *)
(* ================================================================== *)

Lemma replace_after_clean_prefix (name pre post g : string) :
  percentFree pre = true -> dollarFree g = true ->
  replace (mkPlaceholder name) g (pre ++ mkPlaceholder name ++ post)
  = pre ++ g ++ post.
Proof.
  intros Hpre Hg. unfold replace.
  rewrite (passes_percentFree name pre Hpre), split_first_at_head. simpl.
  now rewrite string_app_nil_r, GetSubstitution_dollarFree.
Qed.

Lemma NilEmpty_digits (d : Decimal.uint) :
  forallChars isDigit (NilEmpty.string_of_uint d) = true.
Proof. induction d; simpl; auto. Qed.

Lemma string_of_nat_digits (n : nat) :
  forallChars isDigit (string_of_nat n) = true.
Proof.
  unfold string_of_nat, NilZero.string_of_uint.
  destruct (Nat.to_uint n) eqn:E; try reflexivity;
    rewrite <- E; try (rewrite E; apply NilEmpty_digits).
Qed.

Lemma isDigit_not_percent (c : ascii) :
  isDigit c = true -> negb (c =? "%")%char = true.
Proof. each_char c. Qed.

Lemma isDigit_not_dollar (c : ascii) :
  isDigit c = true -> negb (c =? "$")%char = true.
Proof. each_char c. Qed.

Lemma string_of_nat_percentFree (n : nat) : percentFree (string_of_nat n) = true.
Proof.
  apply (forallChars_impl isDigit); [apply isDigit_not_percent|].
  apply string_of_nat_digits.
Qed.

Lemma string_of_nat_dollarFree (n : nat) : dollarFree (string_of_nat n) = true.
Proof.
  apply (forallChars_impl isDigit); [apply isDigit_not_dollar|].
  apply string_of_nat_digits.
Qed.

Lemma escapeChar_dollarFree (c : ascii) :
  dollarFree (escapeChar c) = negb (c =? "$")%char.
Proof. each_char c. Qed.

Lemma _escapeString_dollarFree (s : string) :
  dollarFree s = true -> dollarFree (_escapeString s) = true.
Proof.
  rewrite _escapeString_escapeEach.
  induction s as [|c s IH]; [reflexivity|].
  change (dollarFree (String c s))
    with (negb (c =? "$")%char && dollarFree s).
  change (escapeEach (String c s)) with (escapeChar c ++ escapeEach s).
  unfold dollarFree at 2. rewrite forallChars_app.
  fold (dollarFree (escapeChar c)). fold (dollarFree (escapeEach s)).
  rewrite escapeChar_dollarFree, !andb_true_iff.
  intros [Hc Hs]. split; [assumption | now apply IH].
Qed.

Lemma chunk_line (chunk : string) (index : nat) :
  dollarFree chunk = true ->
  replace "%DATA%" (_escapeString chunk)
    (replace "%INDEX%" (string_of_nat index) templates.p5CodeChunk)
  = chunkLine chunk index.
Proof.
  intros Hchunk.
  change templates.p5CodeChunk
    with ("string private constant CHUNK_" ++ mkPlaceholder "INDEX"
            ++ (" = " ++ q ++ "%DATA%" ++ q ++ ";")).
  change "%INDEX%" with (mkPlaceholder "INDEX").
  rewrite replace_after_clean_prefix
    by (reflexivity || apply string_of_nat_dollarFree).
  change ("string private constant CHUNK_" ++ string_of_nat index
            ++ " = " ++ q ++ "%DATA%" ++ q ++ ";")
    with ("string private constant CHUNK_"
            ++ (string_of_nat index
                  ++ (" = " ++ q ++ (mkPlaceholder "DATA" ++ (q ++ ";"))))).
  change "%DATA%" with (mkPlaceholder "DATA").
  replace ("string private constant CHUNK_"
             ++ (string_of_nat index
                   ++ (" = " ++ q ++ (mkPlaceholder "DATA" ++ (q ++ ";")))))
    with (("string private constant CHUNK_" ++ string_of_nat index ++ " = " ++ q)
            ++ mkPlaceholder "DATA" ++ (q ++ ";"))
    by (now rewrite !string_app_assoc).
  rewrite replace_after_clean_prefix.
  - unfold chunkLine, quoteLiteral. now rewrite !string_app_assoc.
  - unfold percentFree. rewrite !forallChars_app.
    fold (percentFree (string_of_nat index)).
    now rewrite string_of_nat_percentFree.
  - now apply _escapeString_dollarFree.
Qed.

Lemma chunk_count_line (count : nat) :
  replace "%COUNT%" (string_of_nat count)
    (nl ++ nl ++ "uint256 private constant CHUNK_COUNT = %COUNT%;")
  = nl ++ nl ++ chunkCountLine count.
Proof.
  change (nl ++ nl ++ "uint256 private constant CHUNK_COUNT = %COUNT%;")
    with ((nl ++ nl ++ "uint256 private constant CHUNK_COUNT = ")
            ++ mkPlaceholder "COUNT" ++ ";").
  change "%COUNT%" with (mkPlaceholder "COUNT").
  rewrite replace_after_clean_prefix
    by (reflexivity || apply string_of_nat_dollarFree).
  unfold chunkCountLine. now rewrite !string_app_assoc.
Qed.

(** X15 (generateP5Storage, _escapeString): for chunks without [$], the
    storage text is one constant per chunk, [CHUNK_i] holding the escaped
    chunk [i] between quotes, one per line in the order of the chunks,
    then an empty line and the constant [CHUNK_COUNT] with their number;
    the quoted literal of every constant reads back as its chunk. *)
Theorem generateP5Storage_layout (chunks : list string) :
  Forall (fun chunk => dollarFree chunk = true) chunks ->
  generateP5Storage chunks
  = join nl (mapi chunkLine chunks) ++ nl ++ nl
      ++ chunkCountLine (List.length chunks)
  /\ Forall (fun chunk => decodeLiteral (quoteLiteral chunk) = Some chunk) chunks.
Proof.
  intros Hclean. split.
  - unfold generateP5Storage. rewrite chunk_count_line. f_equal. f_equal.
    unfold mapi. apply mapi_from_ext. intros chunk index Hin.
    apply chunk_line. rewrite Forall_forall in Hclean. now apply Hclean.
  - apply Forall_forall. intros chunk _.
    unfold decodeLiteral, quoteLiteral. simpl.
    rewrite _escapeString_escapeEach. apply readLiteralBody_escapeEach.
Qed.

Lemma generateP5Storage_layout_witness :
  generateP5Storage sample_chunks
  = join nl (mapi chunkLine sample_chunks) ++ nl ++ nl
      ++ chunkCountLine (List.length sample_chunks)
  /\ Forall (fun chunk => decodeLiteral (quoteLiteral chunk) = Some chunk)
       sample_chunks.
Proof.
  apply (generateP5Storage_layout sample_chunks).
  repeat constructor.
Defined.

Lemma address_line (collection : Collection.t) :
  cleanCollection collection = true ->
  replace "%ADDRESS%" (literal_toString (Collection.address collection))
    (replace "%COLLECTION%" (name_toString (Collection.name collection))
       templates.collectionAddress)
  = addressLine collection.
Proof.
  unfold cleanCollection. rewrite !andb_true_iff. intros [[Hp Hd] Ha].
  change templates.collectionAddress
    with ("address private constant " ++ mkPlaceholder "COLLECTION"
            ++ (" = " ++ mkPlaceholder "ADDRESS" ++ ";")).
  change "%COLLECTION%" with (mkPlaceholder "COLLECTION").
  change "%ADDRESS%" with (mkPlaceholder "ADDRESS").
  rewrite replace_after_clean_prefix by (reflexivity || assumption).
  replace ("address private constant "
             ++ name_toString (Collection.name collection)
             ++ " = " ++ mkPlaceholder "ADDRESS" ++ ";")
    with (("address private constant "
             ++ name_toString (Collection.name collection) ++ " = ")
            ++ mkPlaceholder "ADDRESS" ++ ";")
    by (now rewrite !string_app_assoc).
  rewrite replace_after_clean_prefix.
  - unfold addressLine. now rewrite !string_app_assoc.
  - unfold percentFree in *. rewrite !forallChars_app, Hp. reflexivity.
  - assumption.
Qed.

Lemma index_line (collection : Collection.t) (index : nat) :
  cleanCollection collection = true ->
  replace "%INDEX%" (string_of_nat index)
    (replace "%COLLECTION%" (name_toString (Collection.name collection))
       templates.collectionIndex)
  = indexLine collection index.
Proof.
  unfold cleanCollection. rewrite !andb_true_iff. intros [[Hp Hd] Ha].
  change templates.collectionIndex
    with ("uint256 private constant " ++ mkPlaceholder "COLLECTION"
            ++ ("_INDEX = " ++ mkPlaceholder "INDEX" ++ ";")).
  change "%COLLECTION%" with (mkPlaceholder "COLLECTION").
  change "%INDEX%" with (mkPlaceholder "INDEX").
  rewrite replace_after_clean_prefix by (reflexivity || assumption).
  replace ("uint256 private constant "
             ++ name_toString (Collection.name collection)
             ++ "_INDEX = " ++ mkPlaceholder "INDEX" ++ ";")
    with (("uint256 private constant "
             ++ name_toString (Collection.name collection) ++ "_INDEX = ")
            ++ mkPlaceholder "INDEX" ++ ";")
    by (now rewrite !string_app_assoc).
  rewrite replace_after_clean_prefix.
  - unfold indexLine. now rewrite !string_app_assoc.
  - unfold percentFree in *. rewrite !forallChars_app, Hp. reflexivity.
  - apply string_of_nat_dollarFree.
Qed.

(** X16 (generateCollectionAddresses, generateCollectionIndexes,
    _filterValidCollections): for addressed collections whose names and
    addresses hold neither [%] nor [$], the two fragments declare, one
    per line and in declaration order, the address constant of every
    addressed collection and its index constant, numbered from 0 by its
    position among the addressed collections (a collection without
    address takes no number). *)
Theorem collection_constants_layout (collections : list Collection.t) :
  Forall (fun c => cleanCollection c = true)
         (_filterValidCollections collections) ->
  generateCollectionAddresses collections
  = join nl (map addressLine (_filterValidCollections collections))
  /\ generateCollectionIndexes collections
     = join nl (mapi indexLine (_filterValidCollections collections)).
Proof.
  intros Hclean. rewrite Forall_forall in Hclean. split.
  - unfold generateCollectionAddresses. f_equal.
    apply map_ext_in. intros c Hc. apply address_line. now apply Hclean.
  - unfold generateCollectionIndexes, mapi. f_equal.
    apply mapi_from_ext. intros c i Hc. apply index_line. now apply Hclean.
Qed.

Lemma collection_constants_layout_witness :
  generateCollectionAddresses three_collections
  = join nl (map addressLine (_filterValidCollections three_collections))
  /\ generateCollectionIndexes three_collections
     = join nl (mapi indexLine (_filterValidCollections three_collections)).
Proof.
  apply (collection_constants_layout three_collections).
  repeat constructor.
Defined.

(* ================================================================== *)
(** ** The resolution of a collection *)
(* ================================================================== *)



Lemma lookup_app {V : Type} (k : string) (o o' : list (string * V)) :
  lookup k (o ++ o')
  = match lookup k o with Some v => Some v | None => lookup k o' end.
Proof.
  induction o as [|[k' v'] o IH]; simpl; [reflexivity|].
  now destruct (k' =? k).
Qed.











Section ResolutionFacts.

Variable fetchTokenMetadata : literal -> number -> string + MetadataResult.t.
Variable extractTraitValues : jsvalue -> string + (string -> option jsvalue).
Variable TypeError_message : string.






End ResolutionFacts.




(* ================================================================== *)
(** ** The retrieval of metadata *)
(* ================================================================== *)

Lemma spanWord_spec (s : string) :
  s = fst (spanWord s) ++ snd (spanWord s)
  /\ forallChars isWordChar (fst (spanWord s)) = true.
Proof.
  induction s as [|c s [IH1 IH2]]; [split; reflexivity|].
  simpl. destruct (isWordChar c) eqn:Hc; [|split; reflexivity].
  destruct (spanWord s) as [w rest]. simpl in *. rewrite Hc.
  split; [now f_equal | assumption].
Qed.

Lemma spanWord_stops (w rest : string) (c : ascii) :
  forallChars isWordChar w = true -> isWordChar c = false ->
  spanWord (w ++ String c rest) = (w, String c rest).
Proof.
  intros Hw Hc. induction w as [|a w IH]; simpl.
  - now rewrite Hc.
  - simpl in Hw. apply andb_true_iff in Hw as [Ha Hw].
    now rewrite Ha, (IH Hw).
Qed.

Lemma spanWord_before (w sep rest : string) (c : ascii) :
  forallChars isWordChar w = true -> isWordChar c = false ->
  spanWord (w ++ String c sep ++ rest) = (w, String c sep ++ rest).
Proof. intros Hw Hc. now apply spanWord_stops. Qed.

Lemma matchBase64DataUri_eval (type subtype base64Data : string) :
  isWord type = true -> isWord subtype = true ->
  matchBase64DataUri
    ("data:" ++ type ++ "/" ++ subtype ++ ";base64," ++ base64Data)
  = if isPayload base64Data then Some base64Data else None.
Proof.
  intros Htype Hsubtype. unfold matchBase64DataUri.
  rewrite prefix_app.
  change (string_drop 5 ("data:" ++ ?x)) with x.
  pose proof Htype as Ht. pose proof Hsubtype as Hs.
  unfold isWord in Ht, Hs.
  apply andb_true_iff in Ht as [_ Ht]. apply andb_true_iff in Hs as [_ Hs].
  rewrite (spanWord_before type EmptyString _ "/" Ht eq_refl).
  cbv beta iota zeta. rewrite Htype, prefix_app. cbn [andb].
  change (string_drop 1 ("/" ++ ?x)) with x.
  rewrite (spanWord_before subtype "base64," _ ";" Hs eq_refl).
  cbv beta iota zeta. rewrite Hsubtype, prefix_app. cbn [andb].
  change (string_drop 8 (";base64," ++ ?x)) with x.
  reflexivity.
Qed.

Lemma matchBase64DataUri_matches (type subtype base64Data : string) :
  isWord type = true -> isWord subtype = true -> isPayload base64Data = true ->
  matchBase64DataUri
    ("data:" ++ type ++ "/" ++ subtype ++ ";base64," ++ base64Data)
  = Some base64Data.
Proof.
  intros Htype Hsubtype Hpayload.
  now rewrite matchBase64DataUri_eval, Hpayload.
Qed.

Lemma matchBase64DataUri_shape (data base64Data : string) :
  matchBase64DataUri data = Some base64Data ->
  exists type subtype,
    isWord type = true /\ isWord subtype = true /\ isPayload base64Data = true
    /\ data = "data:" ++ type ++ "/" ++ subtype ++ ";base64," ++ base64Data.
Proof.
  unfold matchBase64DataUri.
  destruct (prefix "data:" data) eqn:Hdata; [|discriminate].
  apply prefix_split in Hdata. change (String.length "data:") with 5%nat in Hdata.
  remember (string_drop 5 data) as rest1 eqn:Hrest1.
  destruct (spanWord_spec rest1) as [Hsplit1 _].
  destruct (spanWord rest1) as [type afterType]. cbn [fst snd] in Hsplit1.
  destruct (isWord type) eqn:Htype; [|discriminate].
  destruct (prefix "/" afterType) eqn:Hslash; [|discriminate].
  apply prefix_split in Hslash. change (String.length "/") with 1%nat in Hslash.
  cbn [andb].
  remember (string_drop 1 afterType) as rest2 eqn:Hrest2.
  destruct (spanWord_spec rest2) as [Hsplit2 _].
  destruct (spanWord rest2) as [subtype afterSubtype]. cbn [fst snd] in Hsplit2.
  destruct (isWord subtype) eqn:Hsubtype; [|discriminate].
  destruct (prefix ";base64," afterSubtype) eqn:Hbase; [|discriminate].
  apply prefix_split in Hbase.
  change (String.length ";base64,") with 8%nat in Hbase.
  cbn [andb].
  remember (string_drop 8 afterSubtype) as rest3 eqn:Hrest3.
  destruct (isPayload rest3) eqn:Hpayload; [|discriminate].
  intros [= <-]. exists type, subtype. repeat split; try assumption.
  rewrite Hdata, Hsplit1, Hslash, Hsplit2, Hbase. reflexivity.
Qed.

Section RetrievalFacts.

Variable JSON_parse : string -> option jsvalue.
Variable base64_decode : string -> string.
Variable axios_get : string -> string + jsvalue.
Variable new_Contract : literal -> string + Contract.t.

(** X21 (parseBase64Metadata): the text is read as base64 metadata
    exactly when it is [data:], a media type of two words around a
    slash, [;base64,] and a payload that is not empty and holds no line
    break; the payload is then decoded and parsed, and whatever goes
    wrong (no match, a text that does not parse) gives null, never an
    exception. *)
Theorem parseBase64Metadata_reads (data : string) :
  (forall base64Data,
      matchBase64DataUri data = Some base64Data
      <-> exists type subtype,
            isWord type = true /\ isWord subtype = true
            /\ isPayload base64Data = true
            /\ data = "data:" ++ type ++ "/" ++ subtype ++ ";base64,"
                        ++ base64Data)
  /\ NFTMetadataHandler.parseBase64Metadata JSON_parse base64_decode data
     = match matchBase64DataUri data with
       | Some base64Data =>
           match JSON_parse (base64_decode base64Data) with
           | Some parsed => parsed
           | None => JNull
           end
       | None => JNull
       end.
Proof.
  split; [|reflexivity]. intros base64Data. split.
  - apply matchBase64DataUri_shape.
  - intros (type & subtype & Ht & Hs & Hp & ->).
    now apply matchBase64DataUri_matches.
Qed.

Lemma replace_ipfs (ipfsHash : string) :
  replace "ipfs://" EmptyString ("ipfs://" ++ ipfsHash) = ipfsHash.
Proof. unfold replace. now rewrite split_first_at_head. Qed.

(** X22 (fetchMetadataFromURI): an [ipfs://] URI is fetched over HTTP
    from [https://ipfs.io/ipfs/], with the text after the scheme as the
    path; a rejected request gives null; a [data:application/json]
    URI in base64 is decoded in place; and a URI of any other form
    gives null (the error thrown for it is caught). *)
Theorem fetchMetadataFromURI_schemes :
  (forall ipfsHash,
      NFTMetadataHandler.fetchMetadataFromURI JSON_parse base64_decode
        axios_get ("ipfs://" ++ ipfsHash)
      = match axios_get ("https://ipfs.io/ipfs/" ++ ipfsHash) with
        | inr data => data
        | inl _ => JNull
        end)
  /\ (forall base64Data,
        NFTMetadataHandler.fetchMetadataFromURI JSON_parse base64_decode
          axios_get ("data:application/json;base64," ++ base64Data)
        = if isPayload base64Data
          then match JSON_parse (base64_decode base64Data) with
               | Some parsed => parsed
               | None => JNull
               end
          else JNull)
  /\ (forall uri,
        prefix "ipfs://" uri = false -> prefix "http" uri = false ->
        prefix "data:application/json;base64," uri = false ->
        NFTMetadataHandler.fetchMetadataFromURI JSON_parse base64_decode
          axios_get uri = JNull).
Proof.
  split; [|split].
  - intros ipfsHash. unfold NFTMetadataHandler.fetchMetadataFromURI.
    rewrite prefix_app, replace_ipfs. cbv beta iota zeta.
    change (prefix "http" ("https://ipfs.io/ipfs/" ++ ipfsHash)) with true.
    reflexivity.
  - intros base64Data. unfold NFTMetadataHandler.fetchMetadataFromURI.
    change (prefix "ipfs://" ("data:application/json;base64," ++ base64Data))
      with false.
    cbv beta iota zeta.
    change (prefix "http" ("data:application/json;base64," ++ base64Data))
      with false.
    cbv beta iota. rewrite prefix_app.
    unfold NFTMetadataHandler.parseBase64Metadata.
    change ("data:application/json;base64," ++ base64Data)
      with ("data:" ++ "application" ++ "/" ++ "json" ++ ";base64,"
              ++ base64Data).
    rewrite (matchBase64DataUri_eval "application" "json" base64Data
               eq_refl eq_refl).
    now destruct (isPayload base64Data).
  - intros uri H1 H2 H3. unfold NFTMetadataHandler.fetchMetadataFromURI.
    now rewrite H1, H2, H3.
Qed.

(** X23 (fetchTokenMetadata): the retrieval always returns.  Its result
    is either the failure "Failed to retrieve metadata using all
    available methods" (null metadata, source unknown), and never the
    "Unexpected error" of the outer catch, or a success without error
    whose source is the method that yielded: [forma] from the text
    [getTokenMetadata] returned, or [erc721] / [opensea] with a truthy
    metadata fetched from the URI that [tokenURI] / [uri] returned,
    kept as [source]. *)
Theorem fetchTokenMetadata_outcomes (contract : Contract.t) (tokenId : number) :
  let result :=
    NFTMetadataHandler.fetchTokenMetadata JSON_parse base64_decode axios_get
      contract tokenId in
  result = allMethodsFailed
  \/ (MetadataResult.success result = true
      /\ MetadataResult.error result = None
      /\ ((MetadataResult.sourceType result = forma
           /\ exists tokenMetadata,
                Contract.getTokenMetadata contract tokenId = inr tokenMetadata
                /\ ((prefix "{" tokenMetadata = true
                     /\ JSON_parse tokenMetadata
                        = Some (MetadataResult.metadata result)
                     /\ MetadataResult.source result = Some "getTokenMetadata")
                    \/ (prefix "{" tokenMetadata = false
                        /\ MetadataResult.metadata result
                           = NFTMetadataHandler.parseBase64Metadata JSON_parse
                               base64_decode tokenMetadata
                        /\ jsvalue_truthy (MetadataResult.metadata result) = true
                        /\ MetadataResult.source result
                           = Some "getTokenMetadata (base64)")))
          \/ (exists uri,
                ((MetadataResult.sourceType result = erc721
                  /\ Contract.tokenURI contract tokenId = inr uri)
                 \/ (MetadataResult.sourceType result = opensea
                     /\ Contract.uri contract tokenId = inr uri))
                /\ MetadataResult.source result = Some uri
                /\ MetadataResult.metadata result
                   = NFTMetadataHandler.fetchMetadataFromURI JSON_parse
                       base64_decode axios_get uri
                /\ jsvalue_truthy (MetadataResult.metadata result) = true))).
Proof.
  cbv zeta. unfold NFTMetadataHandler.fetchTokenMetadata.
  destruct (NFTMetadataHandler.formaAttempt _ _ _ _) as [r|] eqn:Hforma.
  - right. unfold NFTMetadataHandler.formaAttempt in Hforma.
    destruct (Contract.getTokenMetadata contract tokenId) as [|text] eqn:Hcall;
      [discriminate|].
    destruct (prefix "{" text) eqn:Hbrace.
    + destruct (JSON_parse text) as [parsed|] eqn:Hparse; [|discriminate].
      injection Hforma as <-. simpl. repeat split.
      left. split; [reflexivity|]. exists text. split; [reflexivity|].
      left. auto.
    + destruct (includes text "base64"); [|discriminate].
      destruct (jsvalue_truthy _) eqn:Htruthy; [|discriminate].
      injection Hforma as <-. simpl. repeat split.
      left. split; [reflexivity|]. exists text. split; [reflexivity|].
      right. auto.
  - destruct (NFTMetadataHandler.uriAttempt _ _ _ (Contract.tokenURI contract) _ _)
      as [r|] eqn:Hsecond.
    + right. unfold NFTMetadataHandler.uriAttempt in Hsecond.
      destruct (Contract.tokenURI contract tokenId) as [|u] eqn:Hcall;
        [discriminate|].
      destruct (jsvalue_truthy _) eqn:Htruthy; [|discriminate].
      injection Hsecond as <-. simpl. repeat split.
      right. exists u. auto 10.
    + destruct (NFTMetadataHandler.uriAttempt _ _ _ (Contract.uri contract) _ _)
        as [r|] eqn:Hthird; [|now left].
      right. unfold NFTMetadataHandler.uriAttempt in Hthird.
      destruct (Contract.uri contract tokenId) as [|u] eqn:Hcall;
        [discriminate|].
      destruct (jsvalue_truthy _) eqn:Htruthy; [|discriminate].
      injection Hthird as <-. simpl. repeat split.
      right. exists u. auto 10.
Qed.

Variable extractTraitValues : jsvalue -> string + (string -> option jsvalue).
Variable TypeError_message : string.


End RetrievalFacts.

Lemma fetchMetadataFromURI_schemes_witness :
  NFTMetadataHandler.fetchMetadataFromURI sample_JSON_parse sample_base64_decode
    (fun _ => inl "Network Error") "ar://token/7"
  = JNull.
Proof.
  apply (proj2 (proj2 (fetchMetadataFromURI_schemes sample_JSON_parse
                         sample_base64_decode (fun _ => inl "Network Error"))));
    reflexivity.
Defined.


(* ================================================================== *)
(** ** The extraction of trait values from a metadata *)
(* ================================================================== *)

Lemma lookup_assign_same {V : Type} (k : string) (v : V) (o : list (string * V)) :
  lookup k (assign k v o) = Some v.
Proof.
  induction o as [|[k' v'] o IH]; simpl.
  - now rewrite String.eqb_refl.
  - destruct (k' =? k) eqn:E; simpl; [now rewrite String.eqb_refl|].
    now rewrite E.
Qed.

Lemma lookup_assign_other {V : Type} (k k' : string) (v : V)
    (o : list (string * V)) :
  k' <> k -> lookup k (assign k' v o) = lookup k o.
Proof.
  intros Hne. induction o as [|[k0 v0] o IH]; simpl.
  - apply String.eqb_neq in Hne. now rewrite Hne.
  - destruct (k0 =? k') eqn:E; simpl.
    + apply String.eqb_eq in E. subst k0.
      apply String.eqb_neq in Hne. now rewrite Hne.
    + now rewrite IH.
Qed.

Lemma lookup_fold_assign {V : Type} (entries : list (string * V)) (k : string)
    (o : list (string * V)) :
  lookup k (fold_left (fun o entry => assign (fst entry) (snd entry) o) entries o)
  = match lookup k (rev entries) with
    | Some v => Some v
    | None => lookup k o
    end.
Proof.
  revert o. induction entries as [|[k' v'] entries IH]; intros o; [reflexivity|].
  simpl. rewrite IH, lookup_app. simpl.
  destruct (lookup k (rev entries)); [reflexivity|].
  destruct (k' =? k) eqn:E.
  - apply String.eqb_eq in E. subst k'. apply lookup_assign_same.
  - apply String.eqb_neq in E. now apply lookup_assign_other.
Qed.

Lemma fold_assign_nonempty {V : Type} (entries : list (string * V))
    (o : list (string * V)) :
  (entries <> [] \/ o <> []) ->
  fold_left (fun o entry => assign (fst entry) (snd entry) o) entries o <> [].
Proof.
  revert o. induction entries as [|[k v] entries IH]; intros o H; simpl.
  - destruct H as [H|H]; [contradiction | exact H].
  - apply IH. right. destruct o as [|[k0 v0] o]; simpl; [discriminate|].
    destruct (k0 =? k); discriminate.
Qed.

Lemma setProperty_plain (key : string) (value : jsvalue) (values : Values.t) :
  (key =? "__proto__") = false ->
  setProperty key value values
  = {| Values.own := assign key value (Values.own values);
       Values.proto := Values.proto values |}.
Proof. intros H. unfold setProperty. now rewrite H. Qed.

Lemma assignEntries_plain (entries : list (string * jsvalue)) (values : Values.t) :
  plainKeys entries = true ->
  NFTMetadataHandler.assignEntries entries values
  = {| Values.own :=
         fold_left (fun o entry => assign (fst entry) (snd entry) o) entries
           (Values.own values);
       Values.proto := Values.proto values |}.
Proof.
  unfold NFTMetadataHandler.assignEntries. revert values.
  induction entries as [|e entries IH]; intros values H; simpl.
  - now destruct values.
  - simpl in H. apply andb_true_iff in H as [He H].
    apply negb_true_iff in He.
    rewrite (setProperty_plain _ _ _ He), (IH _ H). reflexivity.
Qed.

Lemma getNamed_value (attribute traitType : jsvalue) :
  NFTMetadataHandler.traitTypeOf attribute = Some traitType ->
  exists value, getNamed attribute "value" = Some value.
Proof. destruct attribute; simpl; try discriminate; eauto. Qed.

Lemma ToString_None (v : jsvalue) :
  ToString v = None <-> stringifiable v = false.
Proof.
  pose proof (ToString_stringifiable v) as H. split; intros Hn.
  - destruct (stringifiable v); [|reflexivity].
    destruct (proj2 H eq_refl) as (s & Hs). congruence.
  - destruct (ToString v) as [s|] eqn:E; [|reflexivity].
    assert (stringifiable v = true) by (apply H; eauto). congruence.
Qed.

Lemma forEachAttribute_throws (attributes : list jsvalue) (values : Values.t) :
  NFTMetadataHandler.forEachAttribute attributes values = None
  <-> existsb throwingAttribute attributes = true.
Proof.
  revert values. induction attributes as [|a attributes IH]; intros values; simpl.
  - split; discriminate.
  - unfold throwingAttribute at 1.
    destruct (NFTMetadataHandler.traitTypeOf a) as [traitType|] eqn:Htype;
      [|split; reflexivity].
    destruct (jsvalue_truthy traitType); simpl; [|apply IH].
    destruct (getNamed_value _ _ Htype) as (value & ->).
    destruct (ToString traitType) as [key|] eqn:Hkey.
    + assert (Hs : stringifiable traitType = true)
        by (apply ToString_stringifiable; eauto).
      rewrite Hs. simpl. apply IH.
    + apply ToString_None in Hkey. rewrite Hkey. simpl. split; reflexivity.
Qed.

Lemma forEachAttribute_pairs (attributes : list jsvalue) (values : Values.t) :
  existsb throwingAttribute attributes = false ->
  NFTMetadataHandler.forEachAttribute attributes values
  = Some (NFTMetadataHandler.assignEntries (attributePairs attributes) values).
Proof.
  revert values. induction attributes as [|a attributes IH]; intros values;
    [reflexivity|].
  simpl. unfold throwingAttribute at 1, attributePair.
  destruct (NFTMetadataHandler.traitTypeOf a) as [traitType|] eqn:Htype;
    [|discriminate].
  destruct (jsvalue_truthy traitType); simpl; [|apply IH].
  destruct (getNamed_value _ _ Htype) as (value & ->).
  destruct (ToString traitType) as [key|] eqn:Hkey.
  - intros H. apply orb_false_iff in H as [_ H]. simpl. now apply IH.
  - apply ToString_None in Hkey. rewrite Hkey. discriminate.
Qed.

(** X25 (extractTraitValues): the extraction throws exactly when the
    metadata is truthy, its attributes ([attributes], else [traits]) are
    an array, and an element of that array is null or has for trait type
    an object without a text form; on every other metadata it returns an
    object. *)
Theorem extractTraitValues_throws_iff (metadata : jsvalue) :
  NFTMetadataHandler.extractTraitValues metadata = None
  <-> jsvalue_truthy metadata = true
      /\ exists attributes,
           NFTMetadataHandler.attributesOf metadata = JArray attributes
           /\ existsb throwingAttribute attributes = true.
Proof.
  unfold NFTMetadataHandler.extractTraitValues.
  destruct (jsvalue_truthy metadata); simpl.
  2:{ split; [discriminate | intros [H _]; discriminate]. }
  destruct (NFTMetadataHandler.attributesOf metadata) as [| |b|n|s|items|fields];
    try (split; [destruct (_ =? _)%nat; discriminate
                | intros (_ & attributes & H & _); discriminate]).
  destruct (NFTMetadataHandler.forEachAttribute items emptyValues) as [values|]
    eqn:Hloop.
  - split; [destruct (_ =? _)%nat; discriminate|].
    intros (_ & attributes & [= <-] & Hthrow).
    apply (forEachAttribute_throws items emptyValues) in Hthrow. congruence.
  - split; [|reflexivity]. intros _. split; [reflexivity|].
    exists items. split; [reflexivity|].
    now apply (forEachAttribute_throws items emptyValues).
Qed.

(** X26 (extractTraitValues): when the attributes of a truthy metadata
    are an array on which the callback does not throw and which
    contributes at least one property, none of them named [__proto__],
    the object returned holds exactly the contributed properties, each
    with the value of the last element that names it, and no top-level
    property of the metadata. *)
Theorem attributes_last_wins (metadata : jsvalue) (attributes : list jsvalue) :
  jsvalue_truthy metadata = true ->
  NFTMetadataHandler.attributesOf metadata = JArray attributes ->
  existsb throwingAttribute attributes = false ->
  attributePairs attributes <> [] ->
  plainKeys (attributePairs attributes) = true ->
  exists values,
    NFTMetadataHandler.extractTraitValues metadata = Some values
    /\ Values.proto values = ObjectPrototype
    /\ forall key,
         lookup key (Values.own values)
         = lookup key (rev (attributePairs attributes)).
Proof.
  intros Htruthy Hattributes Hsafe Hsome Hplain.
  unfold NFTMetadataHandler.extractTraitValues.
  rewrite Htruthy, Hattributes. simpl negb. cbv iota.
  rewrite (forEachAttribute_pairs _ _ Hsafe), (assignEntries_plain _ _ Hplain).
  cbn [Values.own Values.proto emptyValues].
  pose proof (fold_assign_nonempty (attributePairs attributes) []
                (or_introl Hsome)) as Hnonempty.
  destruct (fold_left _ (attributePairs attributes) []) as [|e own] eqn:Hown;
    [contradiction|].
  simpl Nat.eqb. cbv iota. eexists. split; [reflexivity|].
  split; [reflexivity|]. intros key. cbn [Values.own].
  rewrite <- Hown, lookup_fold_assign.
  now destruct (lookup key (rev (attributePairs attributes))).
Qed.

Lemma attributes_last_wins_witness :
  exists values,
    NFTMetadataHandler.extractTraitValues overridden_metadata = Some values
    /\ Values.proto values = ObjectPrototype
    /\ forall key,
         lookup key (Values.own values)
         = lookup key
             (rev (attributePairs
                     [JObject [("trait_type", JString "Color");
                               ("value", JString "red")];
                      JObject [("name", JString "Size");
                               ("value", JNumber (num 3))];
                      JObject [("trait_type", JString "Color");
                               ("value", JString "blue")]])).
Proof.
  apply (attributes_last_wins overridden_metadata); try reflexivity.
  discriminate.
Defined.

Lemma lookup_filter_keys (p : string -> bool) (entries : list (string * jsvalue))
    (key : string) :
  lookup key (filter (fun entry => p (fst entry)) entries)
  = if p key then lookup key entries else None.
Proof.
  induction entries as [|[k v] entries IH]; simpl; [now destruct (p key)|].
  destruct (p k) eqn:Hk; simpl.
  - destruct (k =? key) eqn:E; [|exact IH].
    apply String.eqb_eq in E. subst k. now rewrite Hk.
  - rewrite IH. destruct (k =? key) eqn:E; [|reflexivity].
    apply String.eqb_eq in E. subst k. now rewrite Hk.
Qed.

Lemma filter_rev_entries {A : Type} (p : A -> bool) (l : list A) :
  rev (filter p l) = filter p (rev l).
Proof.
  induction l as [|x l IH]; simpl; [reflexivity|].
  rewrite filter_app. simpl. destruct (p x); simpl.
  - now rewrite IH.
  - now rewrite IH, app_nil_r.
Qed.

Lemma plainKeys_filter (p : string * jsvalue -> bool)
    (entries : list (string * jsvalue)) :
  plainKeys entries = true -> plainKeys (filter p entries) = true.
Proof.
  unfold plainKeys. rewrite !forallb_forall. intros H e He.
  apply filter_In in He as [He _]. now apply H.
Qed.

(** X27 (extractTraitValues): when a metadata object has no attributes
    (no [attributes] and no [traits], or falsy ones, or an empty array)
    and no property named [__proto__], the object returned holds its
    top-level properties except [name], [description], [image],
    [external_url] and [animation_url], which are never taken for
    traits. *)
Theorem top_level_fallback (fields : list (string * jsvalue)) :
  NFTMetadataHandler.attributesOf (JObject fields) = JArray [] ->
  plainKeys fields = true ->
  exists values,
    NFTMetadataHandler.extractTraitValues (JObject fields) = Some values
    /\ Values.proto values = ObjectPrototype
    /\ forall key,
         lookup key (Values.own values)
         = if NFTMetadataHandler.isNonTraitField key then None
           else lookup key (rev fields).
Proof.
  intros Hattributes Hplain.
  unfold NFTMetadataHandler.extractTraitValues.
  rewrite Hattributes. simpl.
  rewrite assignEntries_plain by now apply plainKeys_filter.
  eexists. split; [reflexivity|]. split; [reflexivity|].
  intros key. cbn [Values.own emptyValues].
  rewrite lookup_fold_assign, filter_rev_entries.
  rewrite (lookup_filter_keys (fun k => negb (NFTMetadataHandler.isNonTraitField k))).
  destruct (NFTMetadataHandler.isNonTraitField key); simpl; [reflexivity|].
  now destruct (lookup key (rev fields)).
Qed.

Lemma top_level_fallback_witness :
  exists values,
    NFTMetadataHandler.extractTraitValues (JObject top_level_fields) = Some values
    /\ Values.proto values = ObjectPrototype
    /\ forall key,
         lookup key (Values.own values)
         = if NFTMetadataHandler.isNonTraitField key then None
           else lookup key (rev top_level_fields).
Proof.
  apply (top_level_fallback top_level_fields); reflexivity.
Defined.

(* ================================================================== *)
(** ** The trait registration *)
(* ================================================================== *)

Lemma percentFree_app (a b : string) :
  percentFree (a ++ b) = percentFree a && percentFree b.
Proof. apply forallChars_app. Qed.

Lemma _mapTraitTypeToSolidity_clean (type : TraitType) :
  dollarFree (_mapTraitTypeToSolidity type) = true
  /\ percentFree (_mapTraitTypeToSolidity type) = true.
Proof. destruct type; split; reflexivity. Qed.

Lemma registration_line (data : TraitData.t) (trait : Trait.t) :
  percentFree (name_toString (TraitData.collection data)) = true ->
  dollarFree (name_toString (TraitData.collection data)) = true ->
  dollarFree (keyText (Trait.key trait)) = true ->
  replace "%KEY%" (keyText (Trait.key trait))
    (replace "%TYPE%" (_mapTraitTypeToSolidity (Trait.type trait))
       (replace "%COLLECTION%" (name_toString (TraitData.collection data))
          templates.traitRegistration))
  = registrationLine data trait.
Proof.
  intros Hp Hd Hk.
  destruct (_mapTraitTypeToSolidity_clean (Trait.type trait)) as [Htd Htp].
  change templates.traitRegistration
    with ("_traitRegistry[" ++ mkPlaceholder "COLLECTION"
            ++ ("_INDEX].push(TraitRegistry(" ++ q ++ mkPlaceholder "TYPE"
                  ++ (q ++ ", " ++ q ++ mkPlaceholder "KEY" ++ (q ++ "));")))).
  change "%COLLECTION%" with (mkPlaceholder "COLLECTION").
  change "%TYPE%" with (mkPlaceholder "TYPE").
  change "%KEY%" with (mkPlaceholder "KEY").
  rewrite replace_after_clean_prefix by (reflexivity || assumption).
  replace ("_traitRegistry[" ++ name_toString (TraitData.collection data)
             ++ "_INDEX].push(TraitRegistry(" ++ q ++ mkPlaceholder "TYPE"
             ++ (q ++ ", " ++ q ++ mkPlaceholder "KEY" ++ (q ++ "));")))
    with (("_traitRegistry[" ++ name_toString (TraitData.collection data)
             ++ "_INDEX].push(TraitRegistry(" ++ q)
            ++ mkPlaceholder "TYPE"
            ++ (q ++ ", " ++ q ++ mkPlaceholder "KEY" ++ (q ++ "));")))
    by (now rewrite !string_app_assoc).
  rewrite replace_after_clean_prefix;
    [|rewrite !percentFree_app, Hp; reflexivity | assumption].
  replace (("_traitRegistry[" ++ name_toString (TraitData.collection data)
              ++ "_INDEX].push(TraitRegistry(" ++ q)
             ++ _mapTraitTypeToSolidity (Trait.type trait)
             ++ (q ++ ", " ++ q ++ mkPlaceholder "KEY" ++ (q ++ "));")))
    with (("_traitRegistry[" ++ name_toString (TraitData.collection data)
             ++ "_INDEX].push(TraitRegistry(" ++ q
             ++ _mapTraitTypeToSolidity (Trait.type trait) ++ q ++ ", " ++ q)
            ++ mkPlaceholder "KEY" ++ (q ++ "));"))
    by (now rewrite !string_app_assoc).
  rewrite replace_after_clean_prefix;
    [|rewrite !percentFree_app, Hp, Htp; reflexivity | assumption].
  unfold registrationLine. now rewrite !string_app_assoc.
Qed.

Lemma size_line (data : TraitData.t) :
  percentFree (name_toString (TraitData.collection data)) = true ->
  dollarFree (name_toString (TraitData.collection data)) = true ->
  replace "%SIZE%" (string_of_nat (List.length (TraitData.traits data)))
    (replace "%COLLECTION%" (name_toString (TraitData.collection data))
       templates.traitSizeSet)
  = sizeLine data.
Proof.
  intros Hp Hd.
  change templates.traitSizeSet
    with ("_traitRegistrySize[" ++ mkPlaceholder "COLLECTION"
            ++ ("_INDEX] = " ++ mkPlaceholder "SIZE" ++ ";")).
  change "%COLLECTION%" with (mkPlaceholder "COLLECTION").
  change "%SIZE%" with (mkPlaceholder "SIZE").
  rewrite replace_after_clean_prefix by (reflexivity || assumption).
  replace ("_traitRegistrySize[" ++ name_toString (TraitData.collection data)
             ++ "_INDEX] = " ++ mkPlaceholder "SIZE" ++ ";")
    with (("_traitRegistrySize[" ++ name_toString (TraitData.collection data)
             ++ "_INDEX] = ") ++ mkPlaceholder "SIZE" ++ ";")
    by (now rewrite !string_app_assoc).
  rewrite replace_after_clean_prefix;
    [|rewrite !percentFree_app, Hp; reflexivity | apply string_of_nat_dollarFree].
  unfold sizeLine. now rewrite !string_app_assoc.
Qed.

(** X28 (generateTraitRegistration): for data entries whose names hold
    neither [%] nor [$] and whose trait keys hold no [$], the fragment is,
    one statement per line, the registration of every trait of every
    entry, entry by entry in order, followed by one statement per entry
    that records the number of its traits. *)
Theorem generateTraitRegistration_layout (traitData : list TraitData.t) :
  Forall (fun data => cleanData data = true) traitData ->
  generateTraitRegistration traitData
  = join nl
      (flat_map (fun data => map (registrationLine data) (TraitData.traits data))
         traitData
       ++ map sizeLine traitData)%list.
Proof.
  intros Hclean. rewrite Forall_forall in Hclean.
  unfold generateTraitRegistration. f_equal. f_equal.
  - induction traitData as [|data rest IH]; [reflexivity|].
    simpl. rewrite IH by (intros d Hd; apply Hclean; now right). f_equal.
    pose proof (Hclean data (or_introl eq_refl)) as Hdata.
    unfold cleanData in Hdata. rewrite !andb_true_iff in Hdata.
    destruct Hdata as [[Hp Hd] Hkeys]. rewrite forallb_forall in Hkeys.
    apply map_ext_in. intros trait Hin. apply registration_line; auto.
  - apply map_ext_in. intros data Hin. specialize (Hclean data Hin).
    unfold cleanData in Hclean. rewrite !andb_true_iff in Hclean.
    destruct Hclean as [[Hp Hd] _]. now apply size_line.
Qed.

Lemma generateTraitRegistration_layout_witness :
  generateTraitRegistration [unaddressed_data]
  = join nl
      (flat_map (fun data => map (registrationLine data) (TraitData.traits data))
         [unaddressed_data]
       ++ map sizeLine [unaddressed_data])%list.
Proof.
  apply (generateTraitRegistration_layout [unaddressed_data]).
  repeat constructor.
Defined.

(** A contract that answers [tokenURI] with a data URI: the first method
    reverts, the second yields, and the third is not called. *)
Example fetchTokenMetadata_data_uri :
  NFTMetadataHandler.fetchTokenMetadata sample_JSON_parse sample_base64_decode
    (fun _ => inl "Network Error") data_uri_contract (num 7)
  = {| MetadataResult.metadata := JObject [("Color", JString "blue")];
       MetadataResult.sourceType := erc721;
       MetadataResult.source :=
         Some "data:application/json;base64,eyJDb2xvciI6ImJsdWUifQ==";
       MetadataResult.success := true;
       MetadataResult.error := None |}.
Proof. reflexivity. Qed.
